(** * The resource-fetch pipeline of the browser: a shallow embedding

    The development follows [chapters/01. Downloading Web Pages/exercise.py]:
    the [URL] class (constructor and [request]), the two module-level
    dictionaries [open_sockets] and [cache], and [decode_entities].

    Conventions of the embedding.
    - A Python [str] and a Python [bytes] value are both a [string], that is
      a sequence of 8-bit characters; a [str] is carried as its UTF-8
      encoding.  [bytes.decode("utf8")] checks well-formedness and
      [str.encode("utf8")] is the identity.
    - [str.strip], [str.casefold] and [int] are embedded as they work on
      ASCII text.  On other text they follow the Unicode tables of the
      interpreter, which are no part of the embedding; the statements
      that depend on them are made for ASCII text ([ascii_text]).  [int]
      is embedded without the bound that the interpreter puts on the
      length of a decimal literal ([sys.int_max_str_digits], 4300 unless
      set otherwise); the statements about the head of a response are
      made for literals within [Py.int_max_str_digits].
    - [time.time()] readings are integers (clock ticks); the n-th reading
      of a run is given by the environment.
    - Exceptions are values of [exn]; a call returns an [outcome] together
      with the final global state, because the module-level dictionaries
      keep what was written before an exception was raised.
    - The depth that is left of the Python call stack is the [fuel] of
      [URL_init] and of [request]: one unit per nested call of either, and
      [RecursionError] when none is left.
    - The reader that [socket.makefile("rb")] returns is buffered: how many
      bytes it has taken from the connection beyond the ones it returned
      depends on what had arrived, and is given by the environment. *)

From Stdlib Require Import ZArith Ascii String Lia.
From stdpp Require Import gmap strings list sorting.

Local Open Scope Z_scope.

(** ** Exceptions and outcomes *)

Inductive exn : Type :=
  | ValueError
  | AssertionError (msg : string)
  | Exception (msg : string)
  | ConnectionRefusedError
  | SSLError
  | FileNotFoundError
  | UnicodeDecodeError
  | BadGzipFile
  | EOFError
  | ZlibError
  | RecursionError
  | OverflowError.

Inductive outcome (A : Type) : Type :=
  | Returns (a : A)
  | Raises (e : exn).
Arguments Returns {A} a.
Arguments Raises {A} e.

Definition obind {A B} (o : outcome A) (k : A -> outcome B) : outcome B :=
  match o with
  | Returns a => k a
  | Raises e => Raises e
  end.

Declare Scope py_scope.
Delimit Scope py_scope with py.
Notation "'let?' x ':=' o 'in' k" := (obind o (fun x => k))
  (at level 10, x pattern, o at level 100, k at level 200) : py_scope.
Local Open Scope py_scope.

Definition of_option {A} (e : exn) (o : option A) : outcome A :=
  match o with
  | Some a => Returns a
  | None => Raises e
  end.

(** ** Python string primitives *)

Module Py.

Fixpoint drop (n : nat) (s : string) : string :=
  match n, s with
  | O, _ => s
  | S _, EmptyString => EmptyString
  | S n', String _ r => drop n' r
  end.

Fixpoint take (n : nat) (s : string) : string :=
  match n, s with
  | O, _ => EmptyString
  | S _, EmptyString => EmptyString
  | S n', String c r => String c (take n' r)
  end.

(** [s[i]] for [0 <= i]; [None] is Python's IndexError. *)
Definition get (i : nat) (s : string) : option ascii :=
  match drop i s with
  | EmptyString => None
  | String c _ => Some c
  end.

(** [s[i:j]] for [0 <= i <= j]. *)
Definition slice (i j : nat) (s : string) : string :=
  take (j - i) (drop i s).

(** [s.startswith(p)] *)
Fixpoint startswith (p s : string) : bool :=
  match p, s with
  | EmptyString, _ => true
  | String _ _, EmptyString => false
  | String a p', String b s' => Ascii.eqb a b && startswith p' s'
  end.

(** [s.endswith(p)] *)
Definition endswith (p s : string) : bool :=
  startswith (String.rev p) (String.rev s).

(** [p in s] *)
Fixpoint contains (p s : string) : bool :=
  startswith p s ||
  match s with
  | EmptyString => false
  | String _ r => contains p r
  end.

(** Index of the first [c] in [s], if any. *)
Fixpoint index_of (c : ascii) (s : string) : option nat :=
  match s with
  | EmptyString => None
  | String a r => if Ascii.eqb a c then Some O else S <$> index_of c r
  end.

(** [s.find(c, start)] for a one-character [c]; [None] is Python's [-1]. *)
Definition find (c : ascii) (start : nat) (s : string) : option nat :=
  (fun k => (start + k)%nat) <$> index_of c (drop start s).

(** [s.split(sep, maxsplit)] for a one-character separator. *)
Fixpoint split (sep : ascii) (maxsplit : nat) (s : string) {struct s}
  : list string :=
  match maxsplit with
  | O => [s]
  | S m =>
    match s with
    | EmptyString => [EmptyString]
    | String c r =>
      if Ascii.eqb c sep then EmptyString :: split sep m r
      else match split sep maxsplit r with
           | h :: t => String c h :: t
           | [] => [String c EmptyString]
           end
    end
  end.

(** [s.split(sep)]: no bound on the number of splits. *)
Definition split_all (sep : ascii) (s : string) : list string :=
  split sep (String.length s) s.

(** [a, b = l]: unpacking a list of exactly two items. *)
Definition unpack2 (l : list string) : outcome (string * string) :=
  match l with
  | [a; b] => Returns (a, b)
  | _ => Raises ValueError
  end.

(** [a, b, c = l] *)
Definition unpack3 (l : list string) : outcome (string * string * string) :=
  match l with
  | [a; b; c] => Returns (a, b, c)
  | _ => Raises ValueError
  end.

(** Blank characters of [str.strip] in the ASCII range: tab, line feed,
    vertical tab, form feed, carriage return, the four separators 28..31
    and the space. *)
Definition is_space (c : ascii) : bool :=
  let n := N_of_ascii c in
  ((9 <=? n) && (n <=? 13) || (28 <=? n) && (n <=? 32))%N.

Fixpoint lstrip (s : string) : string :=
  match s with
  | EmptyString => EmptyString
  | String c r => if is_space c then lstrip r else s
  end.

Fixpoint rstrip (s : string) : string :=
  match s with
  | EmptyString => EmptyString
  | String c r =>
    match rstrip r with
    | EmptyString => if is_space c then EmptyString else String c EmptyString
    | r' => String c r'
    end
  end.

(** [s.strip()] *)
Definition strip (s : string) : string := rstrip (lstrip s).

Definition lower_ascii (c : ascii) : ascii :=
  let n := N_of_ascii c in
  if ((65 <=? n) && (n <=? 90))%N then ascii_of_N (n + 32) else c.

(** [s.casefold()] *)
Fixpoint casefold (s : string) : string :=
  match s with
  | EmptyString => EmptyString
  | String c r => String (lower_ascii c) (casefold r)
  end.

(** *** [int(s)] and [int(s, 16)] *)

(** The blanks that [int] skips around a literal of ASCII text: tab, line
    feed, vertical tab, form feed, carriage return and the space.  The
    separators 28..31, blanks for [str.strip], are none for [int]. *)
Definition is_int_space (c : ascii) : bool :=
  let n := N_of_ascii c in
  ((9 <=? n) && (n <=? 13) || (n =? 32))%N.

Fixpoint int_lstrip (s : string) : string :=
  match s with
  | EmptyString => EmptyString
  | String c r => if is_int_space c then int_lstrip r else s
  end.

Fixpoint int_rstrip (s : string) : string :=
  match s with
  | EmptyString => EmptyString
  | String c r =>
    match int_rstrip r with
    | EmptyString =>
      if is_int_space c then EmptyString else String c EmptyString
    | r' => String c r'
    end
  end.

(** What [int] takes off the two ends of its argument. *)
Definition int_strip (s : string) : string := int_rstrip (int_lstrip s).

Definition digit_value (c : ascii) : option Z :=
  let n := Z.of_N (N_of_ascii c) in
  if (48 <=? n) && (n <=? 57) then Some (n - 48)
  else if (97 <=? n) && (n <=? 122) then Some (n - 87)
  else if (65 <=? n) && (n <=? 90) then Some (n - 55)
  else None.

(** The digits of a literal, single underscores allowed between them. *)
Fixpoint int_digits (base acc : Z) (prev_us : bool) (s : string) : option Z :=
  match s with
  | EmptyString => if prev_us then None else Some acc
  | String c r =>
    if Ascii.eqb c "_" then
      if prev_us then None else int_digits base acc true r
    else
      match digit_value c with
      | Some d =>
        if d <? base then int_digits base (acc * base + d) false r else None
      | None => None
      end
  end.

Definition int_body (base : Z) (s : string) : option Z :=
  match s with
  | EmptyString => None
  | String c _ => if Ascii.eqb c "_" then None else int_digits base 0 false s
  end.

(** After the sign a base-16 literal may carry [0x] or [0X], itself
    followed by at most one underscore. *)
Definition skip_prefix (base : Z) (s : string) : string :=
  if base =? 16 then
    match s with
    | String "0" (String x r) =>
      if Ascii.eqb x "x" || Ascii.eqb x "X" then
        match r with
        | String "_" r' => r'
        | _ => r
        end
      else s
    | _ => s
    end
  else s.

(** [int(s, base)] for base 10 and 16; [None] is ValueError. *)
Definition int (base : Z) (s : string) : option Z :=
  let s := int_strip s in
  let '(neg, s) :=
    match s with
    | String "+" r => (false, r)
    | String "-" r => (true, r)
    | _ => (false, s)
    end in
  v ← int_body base (skip_prefix base s);
  Some (if neg : bool then - v else v).

(** The length up to which [int] converts every decimal literal, with the
    setting [sys.int_max_str_digits] of the interpreter at its default. *)
Definition int_max_str_digits : nat := 4300.

(** [x + n] for a float [x] and an int [n] converts [n] to a float first,
    which raises OverflowError when [n] rounds to 2^1024 or beyond. *)
Definition float_overflows (n : Z) : bool :=
  2 ^ 1024 - 2 ^ 970 <=? Z.abs n.

End Py.

(** ** Byte streams: [bytes.decode] and the buffered reader *)

Definition CR : ascii := "013"%char.
Definition LF : ascii := "010"%char.
Definition CRLF : string := String CR (String LF EmptyString).

Module Bytes.

Definition byte_in (lo hi : N) (c : ascii) : bool :=
  let n := N_of_ascii c in ((lo <=? n) && (n <=? hi))%N.

Definition cont (c : ascii) : bool := byte_in 128 191 c.

(** Well-formed UTF-8: shortest forms only, no surrogates, at most
    U+10FFFF. *)
Fixpoint utf8_valid (s : string) : bool :=
  match s with
  | EmptyString => true
  | String c r =>
    if byte_in 0 127 c then utf8_valid r
    else
      match r with
      | EmptyString => false
      | String c1 r1 =>
        if byte_in 194 223 c then cont c1 && utf8_valid r1
        else
          match r1 with
          | EmptyString => false
          | String c2 r2 =>
            if byte_in 224 239 c then
              (if byte_in 224 224 c then byte_in 160 191 c1
               else if byte_in 237 237 c then byte_in 128 159 c1
               else cont c1)
              && cont c2 && utf8_valid r2
            else
              match r2 with
              | EmptyString => false
              | String c3 r3 =>
                if byte_in 240 244 c then
                  (if byte_in 240 240 c then byte_in 144 191 c1
                   else if byte_in 244 244 c then byte_in 128 143 c1
                   else cont c1)
                  && cont c2 && cont c3 && utf8_valid r3
                else false
              end
          end
      end
  end.

(** [b.decode("utf8")] *)
Definition decode (b : string) : outcome string :=
  if utf8_valid b then Returns b else Raises UnicodeDecodeError.

(** [s.encode("utf8")] *)
Definition encode (s : string) : string := s.

(** A reader over the bytes of a stream that have not been returned yet:
    the result and what is left.  These are the methods of the buffered
    reader of [socket.makefile("rb")] as its caller sees them; what the
    buffer does to the connection is in [release] below.  A read of more
    bytes than the interpreter can allocate is outside the embedding. *)
Definition reader (A : Type) : Type := string -> outcome A * string.

Definition ret {A} (a : A) : reader A := fun buf => (Returns a, buf).
Definition raise {A} (e : exn) : reader A := fun buf => (Raises e, buf).
Definition lift {A} (o : outcome A) : reader A := fun buf => (o, buf).
Definition bind {A B} (m : reader A) (k : A -> reader B) : reader B :=
  fun buf =>
    match m buf with
    | (Returns a, buf') => k a buf'
    | (Raises e, buf') => (Raises e, buf')
    end.

(** [readline()]: up to and including the first line feed, or all that
    is left. *)
Fixpoint readline_split (buf : string) : string * string :=
  match buf with
  | EmptyString => (EmptyString, EmptyString)
  | String c r =>
    if Ascii.eqb c LF then (String c EmptyString, r)
    else let '(line, rest) := readline_split r in (String c line, rest)
  end.

Definition readline : reader string :=
  fun buf => let '(line, rest) := readline_split buf in (Returns line, rest).

(** [read()] *)
Definition read_all : reader string :=
  fun buf => (Returns buf, EmptyString).

(** [read(n)]: at most [n] bytes; [-1] reads everything and any other
    negative size is refused. *)
Definition read (n : Z) : reader string :=
  fun buf =>
    if n =? -1 then read_all buf
    else if n <? -1 then (Raises ValueError, buf)
    else (Returns (Py.take (Z.to_nat n) buf), Py.drop (Z.to_nat n) buf).

End Bytes.

Notation "x <~ m ;; k" := (Bytes.bind m (fun x => k))
  (at level 100, m at next level, right associativity,
   format "x  <~  m  ;;  '/' k") : py_scope.

(** ** The [URL] class *)

Inductive URL : Type :=
  | DataURL (MIME_type data : string)
  | ViewSourceURL (actual_url : URL)
  | FileURL (path : string)
  | HttpURL (scheme host : string) (port : Z) (path : string).

Definition schemes : list string :=
  ["http"; "https"; "file"; "data"; "view-source"].

Definition str_in (s : string) (l : list string) : bool :=
  existsb (String.eqb s) l.

(** [URL.__init__] with [fuel] calls left on the stack; the nested
    constructor call of a view-source URL runs with one less. *)
Fixpoint URL_init (fuel : nat) (url : string) : outcome URL :=
  match fuel with
  | O => Raises RecursionError
  | S fuel' =>
    let? (scheme, url_body) := Py.unpack2 (Py.split ":" 1 url) in
    if negb (str_in scheme schemes) then
      Raises (AssertionError "Unsupported scheme")
    else if String.eqb scheme "data" then
      let? (MIME_type, data) := Py.unpack2 (Py.split "," 1 url_body) in
      Returns (DataURL MIME_type data)
    else if String.eqb scheme "view-source" then
      let? actual_url := URL_init fuel' url_body in
      Returns (ViewSourceURL actual_url)
    else
      let url_body :=
        if Py.startswith "//" url_body then Py.drop 2 url_body else url_body in
      (* the assertion leaves only https as the other scheme with a port *)
      let port := if String.eqb scheme "http" then 80 else 443 in
      if String.eqb scheme "file" then Returns (FileURL url_body)
      else
        let url_body :=
          if negb (Py.contains "/" url_body) then url_body +:+ "/"
          else url_body in
        let? (host, path) := Py.unpack2 (Py.split "/" 1 url_body) in
        let path := "/" +:+ path in
        if Py.contains ":" host then
          let? (host, port) := Py.unpack2 (Py.split ":" 1 host) in
          let? port := of_option ValueError (Py.int 10 port) in
          Returns (HttpURL scheme host port path)
        else Returns (HttpURL scheme host port path)
  end.

(** ** Process-wide state and the outside world *)

(** A socket: whether it was wrapped by TLS, and the bytes the peer sends
    on this connection that have not been read yet. *)
Record socket : Type := { tls : bool; unread : string }.

Inductive event : Type :=
  | Connect (peer : string * Z)
  | Handshake (peer : string * Z)
  | Send (peer : string * Z) (data : string)
  | Recv (peer : string * Z) (data : string).

(** The module-level dictionaries [open_sockets] and [cache], the number
    of clock readings taken so far, and the network activity so far. *)
Record State : Type := {
  open_sockets : gmap (string * Z) socket;
  cache : gmap string (string * option Z);
  ticks : nat;
  log : list event
}.

(** What the program does not control: the byte stream a peer sends on a
    new connection ([None]: the connection is refused), whether its TLS
    handshake succeeds, the clock, the text of the local files as
    [open(path, "r", encoding="utf8").read()] returns it,
    [gzip.decompress] with the exception it raises on the data it
    refuses ([BadGzipFile], [EOFError] or [zlib.error]), and how far the buffered reader of a response had
    read ahead of its caller when it was given up, after the network
    activity of the argument. *)
Record Env : Type := {
  remote : string * Z -> option string;
  tls_ok : string * Z -> bool;
  time_at : nat -> Z;
  files : string -> option string;
  gunzip : string -> outcome string;
  read_ahead : list event -> nat
}.

Definition set_sockets (f : gmap (string * Z) socket -> gmap (string * Z) socket)
  (st : State) : State :=
  {| open_sockets := f (open_sockets st); cache := cache st;
     ticks := ticks st; log := log st |}.

Definition set_cache
  (f : gmap string (string * option Z) -> gmap string (string * option Z))
  (st : State) : State :=
  {| open_sockets := open_sockets st; cache := f (cache st);
     ticks := ticks st; log := log st |}.

Definition emit (ev : event) (st : State) : State :=
  {| open_sockets := open_sockets st; cache := cache st;
     ticks := ticks st; log := log st ++ [ev] |}.

Definition initial : State :=
  {| open_sockets := ∅; cache := ∅; ticks := O; log := [] |}.

Definition is_io (ev : event) : bool :=
  match ev with
  | Send _ _ | Recv _ _ => true
  | Connect _ | Handshake _ => false
  end.

(** ** Parsing a response *)

(** The header loop of [request]: lines up to a bare CRLF, each split at
    its first colon; the name is case-folded, the value stripped, a later
    duplicate overwrites.  [fuel] bounds the iterations; each one consumes
    a byte or raises, so one more than the length of the stream is enough. *)
Fixpoint read_headers (fuel : nat) (response_headers : gmap string string)
  : Bytes.reader (gmap string string) :=
  match fuel with
  | O => Bytes.raise ValueError
  | S fuel' =>
    raw <~ Bytes.readline ;;
    line <~ Bytes.lift (Bytes.decode raw) ;;
    if String.eqb line CRLF then Bytes.ret response_headers
    else
      hv <~ Bytes.lift (Py.unpack2 (Py.split ":" 1 line)) ;;
      read_headers fuel'
        (<[Py.casefold (fst hv) := Py.strip (snd hv)]> response_headers)
  end.

(** Status line and headers: the status (still a string) and the header
    dictionary. *)
Definition read_head : Bytes.reader (string * gmap string string) :=
  fun buf =>
    (raw <~ Bytes.readline ;;
     status_line <~ Bytes.lift (Bytes.decode raw) ;;
     vse <~ Bytes.lift (Py.unpack3 (Py.split " " 2 status_line)) ;;
     response_headers <~ read_headers (S (String.length buf)) ∅ ;;
     Bytes.ret (snd (fst vse), response_headers)) buf.

(** The chunk loop: a hexadecimal size line, then that many bytes and two
    more that are skipped; size 0 ends the body after one more line. *)
Fixpoint read_chunked (fuel : nat) (body_bytes : string)
  : Bytes.reader string :=
  match fuel with
  | O => Bytes.raise ValueError
  | S fuel' =>
    raw <~ Bytes.readline ;;
    line <~ Bytes.lift (Bytes.decode raw) ;;
    let size_line := Py.strip line in
    chunk_size <~ Bytes.lift (of_option ValueError (Py.int 16 size_line)) ;;
    if chunk_size =? 0 then
      _ <~ Bytes.readline ;;
      Bytes.ret body_bytes
    else
      chunk_data <~ Bytes.read chunk_size ;;
      _ <~ Bytes.read 2 ;;
      read_chunked fuel' (body_bytes +:+ chunk_data)
  end.

(** The body: chunked, or [content-length] bytes when that is positive,
    or everything up to the end of the stream. *)
Definition read_body (response_headers : gmap string string)
  : Bytes.reader string :=
  fun buf =>
    if bool_decide (response_headers !! "transfer-encoding" = Some "chunked")
    then read_chunked (S (String.length buf)) "" buf
    else
      (content_length <~ Bytes.lift
         (match response_headers !! "content-length" with
          | None => Returns 0
          | Some v => of_option ValueError (Py.int 10 v)
          end) ;;
       if 0 <? content_length then Bytes.read content_length
       else Bytes.read_all) buf.

(** ** The cache policy *)

(** The loop over the directives of a cache-control value: the first one
    that starts with [max-age=] decides; [None] when the loop ends without
    one, or when the [IndexError] or [ValueError] of that directive is
    caught. *)
Fixpoint scan_directives (directives : list string) : option Z :=
  match directives with
  | [] => None
  | directive :: rest =>
    let directive := Py.strip directive in
    if Py.startswith "max-age=" directive then
      v ← Py.split_all "=" directive !! 1%nat;
      Py.int 10 v
    else scan_directives rest
  end.

(** [Some max_age] exactly when [should_cache] ends up true. *)
Definition max_age_of (cache_control : string) : option Z :=
  if Py.contains "max-age=" cache_control then
    scan_directives (Py.split_all "," cache_control)
  else None.

(** ** [URL.request] *)

Section Request.

Variable E : Env.

(** [time.time()] *)
Definition time_time (st : State) : Z * State :=
  (time_at E (ticks st),
   {| open_sockets := open_sockets st; cache := cache st;
      ticks := S (ticks st); log := log st |}).

(** Lines 57-73: the pooled socket of [(host, port)], or a new connection,
    wrapped by TLS for https and then stored in the pool. *)
Definition obtain (scheme host : string) (port : Z) (st : State)
  : outcome socket * State :=
  let socket_key := (host, port) in
  match open_sockets st !! socket_key with
  | Some s => (Returns s, st)
  | None =>
    let st := emit (Connect socket_key) st in
    match remote E socket_key with
    | None => (Raises ConnectionRefusedError, st)
    | Some stream =>
      if String.eqb scheme "https" then
        let st := emit (Handshake socket_key) st in
        if tls_ok E socket_key then
          let s := {| tls := true; unread := stream |} in
          (Returns s, set_sockets <[socket_key := s]> st)
        else (Raises SSLError, st)
      else
        let s := {| tls := false; unread := stream |} in
        (Returns s, set_sockets <[socket_key := s]> st)
    end
  end.

(** Lines 78-83: the cached body while the entry has not expired; an
    expired entry is deleted. *)
Definition cache_lookup (url : string) (now : Z) (st : State)
  : option string * State :=
  match cache st !! url with
  | Some (body, expiry) =>
    match expiry with
    | None => (Some body, st)
    | Some t =>
      if now <? t then (Some body, st)
      else (None, set_cache (delete url) st)
    end
  | None => (None, st)
  end.

Definition request_headers (host : string) : list (string * string) :=
  [("Host", host); ("Connection", "keep-alive");
   ("User-Agent", "ArunBrowser/0.1"); ("Accept-Encoding", "gzip")].

(** Lines 92-95: the request line, one line per header, a blank line. *)
Definition frame_request (host path : string) : string :=
  fold_left (fun request kv => request +:+ fst kv +:+ ": " +:+ snd kv +:+ CRLF)
    (request_headers host)
    ("GET " +:+ path +:+ " HTTP/1.1" +:+ CRLF)
  +:+ CRLF.

(** [s.send(data)] *)
Definition send (socket_key : string * Z) (data : string) (st : State)
  : State :=
  emit (Send socket_key data) st.

(** Running a reader on the socket of [socket_key]: the socket is left at
    the position that the reader has reached, also when the reader
    raises. *)
Definition recv {A} (socket_key : string * Z) (s : socket)
  (m : Bytes.reader A) (st : State) : outcome A * socket * State :=
  let '(o, rest) := m (unread s) in
  let s' := {| tls := tls s; unread := rest |} in
  let consumed :=
    Py.take (String.length (unread s) - String.length rest) (unread s) in
  (o, s', emit (Recv socket_key consumed)
            (set_sockets <[socket_key := s']> st)).

(** The reader of line 99 is local to its activation, and with it goes
    what it had taken from the connection beyond the position it had
    reached: whoever reads from the socket next finds the stream that
    many bytes further on. *)
Definition release (socket_key : string * Z) (st : State) : State :=
  let lost := read_ahead E (log st) in
  set_sockets
    (alter (fun s => {| tls := tls s; unread := Py.drop lost (unread s) |})
       socket_key) st.

(** Lines 119-129: the Location header made absolute. *)
Definition resolve_location (scheme host path redirect_location : string)
  : string :=
  if negb (Py.contains "://" redirect_location) then
    if Py.startswith "/" redirect_location then
      scheme +:+ "://" +:+ host +:+ redirect_location
    else if Py.endswith "/" path then
      scheme +:+ "://" +:+ host +:+ path +:+ redirect_location
    else
      scheme +:+ "://" +:+ host +:+ path +:+ "/" +:+ redirect_location
  else redirect_location.

(** Lines 163-181: a 200 response is stored when its cache-control value
    yields a max-age; the expiry is a new clock reading plus max-age.
    The sum of line 174 is one of a float and an int: a max-age beyond
    the range of the floats raises OverflowError there, which the
    [except] clause of line 177 does not catch. *)
Definition cache_store (url body : string) (status : Z)
  (response_headers : gmap string string) (st : State)
  : outcome unit * State :=
  if status =? 200 then
    let cache_control := default "" (response_headers !! "cache-control") in
    match max_age_of cache_control with
    | Some max_age =>
      let '(t, st) := time_time st in
      if Py.float_overflows max_age then (Raises OverflowError, st)
      else (Returns tt, set_cache <[url := (body, Some (t + max_age))]> st)
    | None => (Returns tt, st)
    end
  else (Returns tt, st).

(** One activation of [request] up to its [return]: either a final
    outcome, or the tail call [u.request(r)] it returns the result of. *)
Inductive step : Type :=
  | Final (o : outcome string)
  | Forward (u : URL) (r : Z).

Definition raising (e : exn) : step := Final (Raises e).

(** Line 75: the cache key. *)
Definition absolute_url (scheme host path : string) : string :=
  scheme +:+ "://" +:+ host +:+ path.

(** Lines 85-183 as they read from the response: the request is sent on
    [s] and the response is read, followed as a redirect or decoded and
    cached.  [fuel] is the depth of the stack that is left for the calls
    made here. *)
Definition respond (fuel : nat) (scheme host : string) (port : Z)
  (path : string) (s : socket) (redirects : Z) (st : State) : step * State :=
  let socket_key := (host, port) in
  let url := absolute_url scheme host path in
  let st := send socket_key (Bytes.encode (frame_request host path)) st in
  match recv socket_key s read_head st with
  | (Raises e, _, st) => (raising e, st)
  | (Returns (status, response_headers), s, st) =>
    match Py.int 10 status with
    | None => (raising ValueError, st)
    | Some status =>
      if (300 <=? status) && (status <? 400) then
        if 5 <=? redirects then
          (raising (Exception "Too many redirects"), st)
        else
          match response_headers !! "location" with
          | None | Some EmptyString =>
            (raising (Exception "Redirect with no Location header"), st)
          | Some redirect_location =>
            match URL_init fuel (resolve_location scheme host path
                                   redirect_location) with
            | Raises e => (raising e, st)
            | Returns redirect_url =>
              (Forward redirect_url (redirects + 1), st)
            end
          end
      else
        match recv socket_key s (read_body response_headers) st with
        | (Raises e, _, st) => (raising e, st)
        | (Returns body_bytes, _, st) =>
          let content_encoding :=
            default "" (response_headers !! "content-encoding") in
          match
            (if String.eqb content_encoding "gzip" then
               gunzip E body_bytes
             else Returns body_bytes)
          with
          | Raises e => (raising e, st)
          | Returns body_bytes =>
            match Bytes.decode body_bytes with
            | Raises e => (raising e, st)
            | Returns body =>
              match cache_store url body status response_headers st with
              | (Raises e, st) => (raising e, st)
              | (Returns _, st) => (Final (Returns body), st)
              end
            end
          end
        end
    end
  end.

(** Lines 85-183: what [respond] does, and the reader given up. *)
Definition exchange (fuel : nat) (scheme host : string) (port : Z)
  (path : string) (s : socket) (redirects : Z) (st : State) : step * State :=
  let '(result, st) := respond fuel scheme host port path s redirects st in
  (result, release (host, port) st).

(** Lines 47-83: the dispatch on the scheme, the pool and the cache. *)
Definition request_step (fuel : nat) (self : URL) (redirects : Z) (st : State)
  : step * State :=
  match self with
  | ViewSourceURL actual_url => (Forward actual_url 0, st)
  | FileURL path => (Final (of_option FileNotFoundError (files E path)), st)
  | DataURL _ data => (Final (Returns data), st)
  | HttpURL scheme host port path =>
    match obtain scheme host port st with
    | (Raises e, st) => (raising e, st)
    | (Returns s, st) =>
      let url := absolute_url scheme host path in
      let '(now, st) := time_time st in
      match cache_lookup url now st with
      | (Some body, st) => (Final (Returns body), st)
      | (None, st) => exchange fuel scheme host port path s redirects st
      end
    end
  end.

(** [self.request(redirects)]; [fuel] is the depth of the call stack that
    is left: the activation takes one unit and its calls, the constructor
    of line 131 and the requests of lines 50 and 132, run with the rest. *)
Fixpoint request (fuel : nat) (self : URL) (redirects : Z) (st : State)
  : outcome string * State :=
  match fuel with
  | O => (Raises RecursionError, st)
  | S fuel' =>
    match request_step fuel' self redirects st with
    | (Final o, st) => (o, st)
    | (Forward u r, st) => request fuel' u r st
    end
  end.

End Request.

(** ** [decode_entities] *)

Definition ENTITIES : list (string * string) :=
  [("&lt;", "<"); ("&gt;", ">"); ("&copy;", "©"); ("&ndash;", "–");
   ("&amp;", "&")].

(** [ENTITIES[entity]] when [entity in ENTITIES] *)
Fixpoint entity_lookup (table : list (string * string)) (entity : string)
  : option string :=
  match table with
  | [] => None
  | (k, v) :: rest =>
    if String.eqb entity k then Some v else entity_lookup rest entity
  end.

(** The [while i < len(text)] loop; [Py.get i text] is [None] exactly when
    [i] has reached the length of the text.  Every iteration advances [i],
    so [len(text)] iterations are enough. *)
Fixpoint decode_loop (fuel : nat) (text : string) (i : nat) (result : string)
  : string :=
  match fuel with
  | O => result
  | S fuel' =>
    match Py.get i text with
    | None => result
    | Some c =>
      let literal := decode_loop fuel' text (S i) (result +:+ String c "") in
      if Ascii.eqb c "&" then
        match Py.find ";" (i + 1) text with
        | Some semicolon_index =>
          let entity := Py.slice i (semicolon_index + 1) text in
          match entity_lookup ENTITIES entity with
          | Some replacement =>
            decode_loop fuel' text (semicolon_index + 1)
              (result +:+ replacement)
          | None => literal
          end
        | None => literal
        end
      else literal
    end
  end.

Definition decode_entities (text : string) : string :=
  decode_loop (String.length text) text 0 "".

(** ** Reference definitions, written from the specification *)

Module Spec.

(** The entity of the table that [text] starts with, if any. *)
Definition entity_at (text : string) : option (string * string) :=
  List.find (fun kv => Py.startswith (fst kv) text) ENTITIES.

(** [decoded text out]: [out] is [text] with every table entity replaced,
    left to right, and every other character kept. *)
Inductive decoded : string -> string -> Prop :=
  | decoded_end : decoded "" ""
  | decoded_entity k v rest out :
      entity_at (k +:+ rest) = Some (k, v) ->
      decoded rest out ->
      decoded (k +:+ rest) (v +:+ out)
  | decoded_char c rest out :
      entity_at (String c rest) = None ->
      decoded rest out ->
      decoded (String c rest) (String c out).

(** Digits 0..15 as characters, lower case. *)
Definition digit_char (d : Z) : ascii :=
  if d <? 10 then ascii_of_N (Z.to_N (48 + d))
  else ascii_of_N (Z.to_N (87 + d)).

(** The digits of a natural number in [base], most significant first. *)
Fixpoint digits_of (fuel : nat) (base n : Z) : string :=
  match fuel with
  | O => EmptyString
  | S fuel' =>
    if n <? base then String (digit_char n) EmptyString
    else digits_of fuel' base (n / base)
         +:+ String (digit_char (n mod base)) EmptyString
  end.

Definition numeral (base n : Z) : string :=
  digits_of (S (Z.to_nat n)) base n.

(** [str(z)] *)
Definition str_of_Z (z : Z) : string :=
  if z <? 0 then String "-" (numeral 10 (- z)) else numeral 10 z.

(** Host, port and path written back as a URL. *)
Definition serialize (u : URL) : string :=
  match u with
  | HttpURL scheme host port path =>
    scheme +:+ "://" +:+ host +:+ ":" +:+ str_of_Z port +:+ path
  | FileURL path => "file://" +:+ path
  | DataURL MIME_type data => "data:" +:+ MIME_type +:+ "," +:+ data
  | ViewSourceURL _ => EmptyString
  end.

(** A chunked body on the wire: per chunk its size in hexadecimal, CRLF,
    the payload, CRLF; then the last chunk of size 0 and a final CRLF. *)
Definition encode_chunk (payload : string) : string :=
  numeral 16 (Z.of_nat (String.length payload)) +:+ CRLF +:+ payload +:+ CRLF.

Fixpoint encode_chunked (chunks : list string) : string :=
  match chunks with
  | [] => "0" +:+ CRLF +:+ CRLF
  | payload :: rest => encode_chunk payload +:+ encode_chunked rest
  end.

Fixpoint concat (chunks : list string) : string :=
  match chunks with
  | [] => EmptyString
  | payload :: rest => payload +:+ concat rest
  end.

(** The first directive of a cache-control value that is a max-age
    directive, and the text between its first and second [=]. *)
Definition max_age_directive (cache_control : string) : option string :=
  List.find (Py.startswith "max-age=")
    (Py.strip <$> Py.split_all "," cache_control).

Definition directive_value (directive : string) : option string :=
  Py.split_all "=" directive !! 1%nat.

End Spec.

(** ** Predicates used in the statements *)

Fixpoint all_chars (P : ascii -> bool) (s : string) : bool :=
  match s with
  | EmptyString => true
  | String c r => P c && all_chars P r
  end.

(** Text of the ASCII range. *)
Definition ascii_text (s : string) : bool :=
  all_chars (Bytes.byte_in 0 127) s.

(** A character that [Py.int] reads as a digit below 16. *)
Definition hexdigit (c : ascii) : bool :=
  match Py.digit_value c with
  | Some d => d <? 16
  | None => false
  end.

Definition nonspace (c : ascii) : bool := negb (Py.is_space c).

(** An ASCII character that is no blank and none of the characters with a
    meaning for the parsers above. *)
Definition plain (c : ascii) : bool :=
  negb (Py.is_space c) && Bytes.byte_in 0 127 c &&
  negb (Ascii.eqb c "_") && negb (Ascii.eqb c "+") && negb (Ascii.eqb c "-") &&
  negb (Ascii.eqb c "x") && negb (Ascii.eqb c "X") && negb (Ascii.eqb c "/") &&
  negb (Ascii.eqb c LF) && negb (Ascii.eqb c ":").

(** The sign that [Py.int] takes off a stripped literal. *)
Definition sign_of (s : string) : bool * string :=
  match s with
  | String "+" r => (false, r)
  | String "-" r => (true, r)
  | _ => (false, s)
  end.

(** Lines 27-30: the port of a URL that names none. *)
Definition default_port (scheme : string) : Z :=
  if String.eqb scheme "http" then 80 else 443.

(** Line 80: [expiry is None or now < expiry]. *)
Definition unexpired (expiry : option Z) (now : Z) : Prop :=
  match expiry with
  | None => True
  | Some t => now < t
  end.

Definition is_send (ev : event) : bool :=
  match ev with
  | Send _ _ => true
  | _ => false
  end.

(** ** A small world to run the program in *)

Module Demo.

Definition line (s : string) : string := s +:+ CRLF.

(** A 301 response without a body. *)
Definition moved (location : string) : string :=
  line "HTTP/1.1 301 Moved Permanently" +:+ line ("Location: " +:+ location)
  +:+ CRLF.

(** A 200 response of five bytes with a cache-control header. *)
Definition page (cache_control body : string) : string :=
  line "HTTP/1.1 200 OK" +:+ line "Content-Length: 5"
  +:+ line ("Cache-Control: " +:+ cache_control) +:+ CRLF +:+ body.

(** A 200 response with a chunked body of 5 and 3 bytes. *)
Definition chunked_page : string :=
  line "HTTP/1.1 200 OK" +:+ line "Transfer-Encoding: chunked" +:+ CRLF
  +:+ line "5" +:+ line "hello" +:+ line "3" +:+ line "abc"
  +:+ line "0" +:+ CRLF.

(** The headers of such a response, as [request] stores them. *)
Definition chunked_headers : gmap string string :=
  {["transfer-encoding" := "chunked"]}.

Definition five_hops : string :=
  moved "/1" +:+ moved "/2" +:+ moved "/3" +:+ moved "/4" +:+ moved "/5"
  +:+ page "no-store" "done.".

Definition six_hops : string :=
  moved "/1" +:+ moved "/2" +:+ moved "/3" +:+ moved "/4" +:+ moved "/5"
  +:+ moved "/6" +:+ page "no-store" "done.".

(** Six redirects again, the first one to a view-source URL. *)
Definition six_hops_view_source : string :=
  moved "view-source:http://vs/1" +:+ moved "/2" +:+ moved "/3"
  +:+ moved "/4" +:+ moved "/5" +:+ moved "/6" +:+ page "no-store" "done.".

(** What each peer sends on a connection. *)
Definition peers : list (string * Z * string) :=
  [("five", 80, five_hops); ("six", 80, six_hops);
   ("vs", 80, six_hops_view_source);
   ("h", 80, page "max-age=60" "hello");
   ("h", 8080, "");
   ("secure", 8443, page "no-store" "hello");
   ("old", 80, page "max-age=0" "first" +:+ page "no-store" "again");
   ("chunks", 80, chunked_page)].

Fixpoint stream_of (l : list (string * Z * string)) (peer : string * Z)
  : option string :=
  match l with
  | [] => None
  | (h, p, stream) :: rest =>
    if String.eqb h peer.1 && (p =? peer.2) then Some stream
    else stream_of rest peer
  end.

(** Every handshake succeeds, the clock advances by one tick per reading,
    there is one local file, nothing can be decompressed, and a response
    arrives only when it is read (no reader is ever ahead). *)
Definition world : Env := {|
  remote := stream_of peers;
  tls_ok := fun _ => true;
  time_at := Z.of_nat;
  files := fun path =>
    if String.eqb path "/tmp/a.txt" then Some "text" else None;
  gunzip := fun _ => Raises BadGzipFile;
  read_ahead := fun _ => O
|}.

(** The same world with readers that have always taken [n] bytes more
    than they returned. *)
Definition hasty (n : nat) : Env := {|
  remote := stream_of peers;
  tls_ok := fun _ => true;
  time_at := Z.of_nat;
  files := fun _ => None;
  gunzip := fun _ => Raises BadGzipFile;
  read_ahead := fun _ => n
|}.

(** [URL(url).request()] with a stack of 100 calls. *)
Definition fetch (url : string) (st : State) : outcome string * State :=
  match URL_init 100 url with
  | Returns u => request world 100 u 0 st
  | Raises e => (Raises e, st)
  end.

Definition sends (st : State) : nat := length (filter is_send (log st)).

(** The state after [http://h/] was fetched and cached. *)
Definition after_h : State := (fetch "http://h/" initial).2.

(** The state after [https://secure:8443/] was fetched. *)
Definition after_secure : State := (fetch "https://secure:8443/" initial).2.

(** The state after [http://old/] was fetched; its entry expires at once. *)
Definition after_old : State := (fetch "http://old/" initial).2.

End Demo.

(** ** Four sentences of the specification, as they are written *)

Module Stated.

(** "A pool entry's transport, once TLS-upgraded, is never reused under a
    different scheme for the same key." *)
Definition tls_never_reused : Prop :=
  forall (E : Env) (scheme host : string) (port : Z) (st st' : State)
         (s : socket),
    open_sockets st !! (host, port) = Some s -> tls s = true ->
    obtain E scheme host port st = (Returns s, st') ->
    scheme = "https".


(** "On a cache hit request returns the cached body without any network
    I/O." *)
Definition cache_hit_without_io : Prop :=
  forall (E : Env) (fuel : nat) (scheme host : string) (port : Z)
         (path : string) (r : Z) (st : State) (body : string) (t : Z),
    scheme = "http" \/ scheme = "https" ->
    cache st !! absolute_url scheme host path = Some (body, Some t) ->
    time_at E (ticks st) < t ->
    (request E (S fuel) (HttpURL scheme host port path) r st).1 = Returns body
    /\ log (request E (S fuel) (HttpURL scheme host port path) r st).2 = log st.

(** "A body cached by a fetch on one port is returned (while unexpired) by
    a later fetch on the other port without a network request." *)
Definition cached_body_on_any_port : Prop :=
  forall (E : Env) (fuel1 fuel2 : nat) (scheme host : string)
         (port1 port2 : Z) (path : string) (r1 r2 : Z) (st0 st1 : State)
         (body : string) (expiry : option Z),
    scheme = "http" \/ scheme = "https" -> port1 <> port2 ->
    request E fuel1 (HttpURL scheme host port1 path) r1 st0
    = (Returns body, st1) ->
    cache st1 !! (scheme +:+ "://" +:+ host +:+ path) = Some (body, expiry) ->
    unexpired expiry (time_at E (ticks st1)) ->
    (request E (S fuel2) (HttpURL scheme host port2 path) r2 st1).1
    = Returns body.

End Stated.

(** ** [show] and [load] *)

(** A [for c in s] loop with loop state [st]. *)
Fixpoint for_chars {S : Type} (f : S -> ascii -> S) (s : string) (st : S) : S :=
  match s with
  | EmptyString => st
  | String c r => for_chars f r (f st c)
  end.

(** One iteration of the tag filter of [show] (lines 225-230); the loop of
    [lex] in [browser.py] (lines 120-125) is the same. *)
Definition tag_step (st : string * bool) (c : ascii) : string * bool :=
  let '(text_only, in_tag) := st in
  if Ascii.eqb c "<" then (text_only, true)
  else if Ascii.eqb c ">" then (text_only, false)
  else if negb in_tag then (text_only +:+ String c "", in_tag)
  else (text_only, in_tag).

(** Lines 221-230: the text outside the tags. *)
Definition strip_tags (body : string) : string :=
  (for_chars tag_step body ("", false)).1.

(** [show(body)]: what is printed. *)
Definition show (body : string) : string := decode_entities (strip_tags body).

Definition is_view_source (url : URL) : bool :=
  match url with
  | ViewSourceURL _ => true
  | _ => false
  end.

(** [load(url)]: what is printed, or the exception of the request. *)
Definition load (E : Env) (fuel : nat) (url : URL) (st : State)
  : outcome string * State :=
  match request E fuel url 0 st with
  | (Returns body, st) =>
    (Returns (if is_view_source url then body else show body), st)
  | (Raises e, st) => (Raises e, st)
  end.

(** [load(URL(url))], the body of the main block for one argument. *)
Definition browse (E : Env) (fuel : nat) (url : string) (st : State)
  : outcome string * State :=
  match URL_init fuel url with
  | Returns u => load E fuel u st
  | Raises e => (Raises e, st)
  end.

(** ** Responses on the wire *)

Module Wire.

(** A header line as a peer sends it. *)
Definition header_line (h : string * string) : string :=
  h.1 +:+ ":" +:+ h.2 +:+ CRLF.

Fixpoint header_lines (hs : list (string * string)) : string :=
  match hs with
  | [] => EmptyString
  | h :: rest => header_line h +:+ header_lines rest
  end.

(** Status line, header lines and the blank line. *)
Definition head (version status reason : string) (hs : list (string * string))
  : string :=
  version +:+ " " +:+ status +:+ " " +:+ reason +:+ CRLF
  +:+ header_lines hs +:+ CRLF.

(** The dictionary that the header loop builds from these lines, starting
    from [acc]. *)
Definition headers_from (acc : gmap string string)
  (hs : list (string * string)) : gmap string string :=
  fold_left (fun m h => <[Py.casefold h.1 := Py.strip (h.2 +:+ CRLF)]> m) hs acc.

(** A name or value that can stand in a header line: ASCII text without
    a line feed. *)
Definition field_ok (s : string) : bool :=
  ascii_text s && all_chars (fun c => negb (Ascii.eqb c LF)) s.

Definition header_ok (h : string * string) : bool :=
  field_ok h.1 && field_ok h.2 && negb (Py.contains ":" h.1).

(** The blank characters of ASCII text, by their codes: tab, line feed,
    vertical tab, form feed, carriage return, the separators 28 to 31 and
    the space. *)
Definition blanks : list ascii :=
  ["009"; "010"; "011"; "012"; "013"; "028"; "029"; "030"; "031"; "032"]%char.

Definition blank (c : ascii) : bool := existsb (Ascii.eqb c) blanks.

(** [v] is [raw] without the blanks at its two ends. *)
Definition trimmed (raw v : string) : Prop :=
  (exists a b, raw = a +:+ v +:+ b /\
               all_chars blank a = true /\ all_chars blank b = true) /\
  (forall c r, v = String c r -> blank c = false) /\
  (forall r c, v = r +:+ String c "" -> blank c = false).

(** The letters, upper case and lower case. *)
Definition letters : list (ascii * ascii) :=
  combine (list_ascii_of_string "ABCDEFGHIJKLMNOPQRSTUVWXYZ")
          (list_ascii_of_string "abcdefghijklmnopqrstuvwxyz").

Definition upper (c : ascii) : bool := existsb (Ascii.eqb c) letters.*1.

(** Two characters that are equal or the two cases of one letter. *)
Definition same_letter (a b : ascii) : Prop :=
  a = b \/ In (a, b) letters \/ In (b, a) letters.

(** Two names that differ in the case of their letters at most. *)
Fixpoint same_name (a b : string) : Prop :=
  match a, b with
  | EmptyString, EmptyString => True
  | String x a', String y b' => same_letter x y /\ same_name a' b'
  | _, _ => False
  end.

(** A name without upper-case letters. *)
Definition lower_case (s : string) : bool :=
  all_chars (fun c => negb (upper c)) s.

(** A chunked body cut off after its last data chunk. *)
Fixpoint truncated_chunks (chunks : list string) : string :=
  match chunks with
  | [] => EmptyString
  | payload :: rest => Spec.encode_chunk payload +:+ truncated_chunks rest
  end.

End Wire.

Definition is_connect_to (peer : string * Z) (ev : event) : bool :=
  match ev with
  | Connect p => bool_decide (p = peer)
  | _ => false
  end.

(** How many times a connection to [peer] was attempted. *)
Definition connects (peer : string * Z) (l : list event) : nat :=
  length (filter (is_connect_to peer) l).

(** ** [browser.py]: layout and scrolling *)

Module Browser.

Definition WIDTH : Z := 800.
Definition HEIGHT : Z := 600.
Definition HSTEP : Z := 13.
Definition VSTEP : Z := 18.
Definition SCROLL_STEP : Z := 100.

(** [s.split(sep, 1)] for a separator of any length: the text before and
    after the first occurrence, if there is one. *)
Fixpoint partition (sep s : string) : option (string * string) :=
  if Py.startswith sep s then Some (EmptyString, Py.drop (String.length sep) s)
  else
    match s with
    | EmptyString => None
    | String c r =>
      match partition sep r with
      | Some (a, b) => Some (String c a, b)
      | None => None
      end
    end.

(** The attributes of a [URL] object of [browser.py]. *)
Record URL : Type := { scheme : string; host : string; port : Z; path : string }.

(** [URL.__init__] (lines 10-26). *)
Definition URL_init (url : string) : outcome URL :=
  let? (scheme, url) := of_option ValueError (partition "://" url) in
  if negb (str_in scheme ["http"; "https"]) then Raises (AssertionError "")
  else
    (* the assertion leaves only https as the other scheme *)
    let port := if String.eqb scheme "http" then 80 else 443 in
    let url := if negb (Py.contains "/" url) then url +:+ "/" else url in
    let? (host, url) := Py.unpack2 (Py.split "/" 1 url) in
    let path := "/" +:+ url in
    if Py.contains ":" host then
      let? (host, port) := Py.unpack2 (Py.split ":" 1 host) in
      let? port := of_option ValueError (Py.int 10 port) in
      Returns {| scheme := scheme; host := host; port := port; path := path |}
    else
      Returns {| scheme := scheme; host := host; port := port; path := path |}.

(** [lex(body)] (lines 116-126). *)
Definition lex (body : string) : string :=
  (for_chars tag_step body ("", false)).1.

Section Layout.

(** The characters of the text: any type with a test for the newline. *)
Context {A : Type} (is_newline : A -> bool).

(** One iteration of the loop of [layout] (lines 102-112). *)
Definition layout_step (st : list (Z * Z * A) * Z * Z) (c : A)
  : list (Z * Z * A) * Z * Z :=
  let '(display_list, cursor_x, cursor_y) := st in
  let '(display_list, cursor_x, cursor_y) :=
    if is_newline c then (display_list, HSTEP, cursor_y + VSTEP)
    else (display_list ++ [(cursor_x, cursor_y, c)], cursor_x + HSTEP, cursor_y)
  in
  if WIDTH - HSTEP <=? cursor_x then (display_list, HSTEP, cursor_y + VSTEP)
  else (display_list, cursor_x, cursor_y).

(** [layout(text)] *)
Definition layout (text : list A) : list (Z * Z * A) :=
  (fold_left layout_step text ([], HSTEP, VSTEP)).1.1.

(** The fields of a [Browser] that its methods read and write, and the
    text items on its canvas. *)
Record browser : Type := {
  scroll : Z;
  display_list : list (Z * Z * A);
  canvas : list (Z * Z * A)
}.

(** The items that [draw] creates (lines 85-88). *)
Fixpoint visible (scroll : Z) (display_list : list (Z * Z * A))
  : list (Z * Z * A) :=
  match display_list with
  | [] => []
  | (x, y, c) :: rest =>
    if scroll + HEIGHT <? y then visible scroll rest
    else if y + VSTEP <? scroll then visible scroll rest
    else (x, y - scroll, c) :: visible scroll rest
  end.

(** [draw]: the canvas is cleared and filled again. *)
Definition draw (b : browser) : browser :=
  {| scroll := scroll b; display_list := display_list b;
     canvas := visible (scroll b) (display_list b) |}.

Definition scroll_down (b : browser) : browser :=
  draw {| scroll := scroll b + SCROLL_STEP; display_list := display_list b;
          canvas := canvas b |}.

Definition scroll_up (b : browser) : browser :=
  if 0 <? scroll b then
    draw {| scroll := scroll b - SCROLL_STEP; display_list := display_list b;
            canvas := canvas b |}
  else b.

(** [load] from line 80 on, in a new [Browser]: the text is laid out and
    drawn at scroll 0. *)
Definition load_text (text : list A) : browser :=
  draw {| scroll := 0; display_list := layout text; canvas := [] |}.

Inductive key : Type := Down | Up.

Definition handle (b : browser) (k : key) : browser :=
  match k with
  | Down => scroll_down b
  | Up => scroll_up b
  end.

End Layout.

End Browser.

(** The key under which [request] caches the body of a URL, if any. *)
Definition cache_key (u : URL) : option string :=
  match u with
  | HttpURL scheme host _ path => Some (absolute_url scheme host path)
  | _ => None
  end.

(** Reading order of two items of a display list: an earlier line, or the
    same line and further to the left. *)
Definition before {A : Type} (p q : Z * Z * A) : Prop :=
  p.1.2 < q.1.2 \/ (p.1.2 = q.1.2 /\ p.1.1 < q.1.1).

(** A position of the grid of [layout]: column [HSTEP * i] left of the
    right margin, line [VSTEP * j]. *)
Definition on_grid {A : Type} (p : Z * Z * A) : Prop :=
  Browser.HSTEP <= p.1.1 < Browser.WIDTH - Browser.HSTEP /\
  p.1.1 mod Browser.HSTEP = 0 /\
  Browser.VSTEP <= p.1.2 /\ p.1.2 mod Browser.VSTEP = 0.

(** A position that [draw] puts on the canvas. *)
Definition on_screen {A : Type} (p : Z * Z * A) : Prop :=
  Browser.HSTEP <= p.1.1 < Browser.WIDTH - Browser.HSTEP /\
  - Browser.VSTEP <= p.1.2 <= Browser.HEIGHT.

(** An item of the page that a window of 600 pixels shows at offset
    [scroll]: its line is at most 18 pixels above the top edge and not
    below the bottom edge. *)
Definition in_window {A : Type} (scroll : Z) (p : Z * Z * A) : bool :=
  (scroll - 18 <=? p.1.2) && (p.1.2 <=? scroll + 600).

(** The item at its place in the window. *)
Definition scrolled {A : Type} (scroll : Z) (p : Z * Z * A) : Z * Z * A :=
  (p.1.1, p.1.2 - scroll, p.2).

(** [n] times [view-source:] in front of a string. *)
Fixpoint wrapped (n : nat) (s : string) : string :=
  match n with
  | O => s
  | S n' => "view-source:" +:+ wrapped n' s
  end.

(** The loop invariant of [layout]: the cursor is on the grid, every item
    is on the grid and before the cursor, and the items are in reading
    order. *)
Definition cursor_after {A : Type} (x y : Z) (p : Z * Z * A) : Prop :=
  p.1.2 < y \/ (p.1.2 = y /\ p.1.1 < x).

Definition layout_inv {A : Type} (st : list (Z * Z * A) * Z * Z) : Prop :=
  let '(dl, x, y) := st in
  (13 <= x < 787 /\ x mod 13 = 0 /\ 18 <= y /\ y mod 18 = 0) /\
  Forall on_grid dl /\ Forall (cursor_after x y) dl /\
  StronglySorted before dl.

(** The state of a browser that has loaded [text]: the scroll offset is a
    multiple of the step and not negative, and the canvas shows the part
    of the display list that the offset selects. *)
Definition synced {A : Type} (is_newline : A -> bool) (text : list A)
  (b : Browser.browser) : Prop :=
  0 <= Browser.scroll b /\ Browser.scroll b mod Browser.SCROLL_STEP = 0 /\
  Browser.display_list b = Browser.layout is_newline text /\
  Browser.canvas b = Browser.visible (Browser.scroll b) (Browser.display_list b).

(** * Facts about the embedding *)

#[local] Arguments String.append !s1 s2 : simpl nomatch.

(** ** Strings: append, take, drop, prefixes *)

Section StringFacts.

Lemma sapp_nil_r (s : string) : s +:+ "" = s.
Proof. induction s as [|c s IH]; cbn; [done | by rewrite IH]. Qed.

Lemma sapp_assoc (a b c : string) : (a +:+ b) +:+ c = a +:+ b +:+ c.
Proof. induction a as [|x a IH]; cbn; [done | by rewrite IH]. Qed.

Lemma sapp_cons (c : ascii) (a b : string) :
  String c a +:+ b = String c (a +:+ b).
Proof. reflexivity. Qed.

Lemma slength_app (a b : string) :
  String.length (a +:+ b) = (String.length a + String.length b)%nat.
Proof. induction a as [|x a IH]; cbn; [done | by rewrite IH]. Qed.

Lemma sdrop_app_length (a b : string) : Py.drop (String.length a) (a +:+ b) = b.
Proof. induction a as [|x a IH]; cbn; [by destruct b | done]. Qed.

Lemma stake_app_length (a b : string) : Py.take (String.length a) (a +:+ b) = a.
Proof. induction a as [|x a IH]; cbn; [by destruct b | by rewrite IH]. Qed.

Lemma stake_drop (n : nat) (s : string) : Py.take n s +:+ Py.drop n s = s.
Proof.
  revert s; induction n as [|n IH]; intros [|c s]; cbn; try done.
  by rewrite IH.
Qed.

Lemma sdrop_drop (n m : nat) (s : string) :
  Py.drop n (Py.drop m s) = Py.drop (m + n) s.
Proof.
  revert s; induction m as [|m IH]; intros s; cbn; [done|].
  destruct s as [|c s]; [by destruct n | apply IH].
Qed.

Lemma startswith_app (p t : string) : Py.startswith p (p +:+ t) = true.
Proof.
  induction p as [|c p IH]; cbn; [done|]. by rewrite Ascii.eqb_refl, IH.
Qed.

Lemma startswith_inv (p s : string) :
  Py.startswith p s = true -> s = p +:+ Py.drop (String.length p) s.
Proof.
  revert s; induction p as [|c p IH]; intros [|x s]; cbn; try done.
  intros [Hc Hp]%andb_prop. apply Ascii.eqb_eq in Hc as ->.
  by rewrite <- IH.
Qed.

End StringFacts.

(** ** The loop of [decode_entities] against [Spec.decoded] *)

Section Entities.

Lemma slength_drop (n : nat) (s : string) :
  (String.length (Py.drop n s) <= String.length s)%nat.
Proof.
  revert s; induction n as [|n IH]; intros [|c s]; cbn; try lia.
  specialize (IH s); lia.
Qed.

Lemma sdrop_S (i : nat) (text : string) (c : ascii) (rest : string) :
  Py.drop i text = String c rest -> Py.drop (S i) text = rest.
Proof.
  intros H. replace (S i) with (i + 1)%nat by lia.
  by rewrite <- sdrop_drop, H.
Qed.

Lemma entity_lookup_at (e r t : string) :
  entity_lookup ENTITIES e = Some r -> Spec.entity_at (e +:+ t) = Some (e, r).
Proof.
  cbn [entity_lookup ENTITIES].
  repeat
    match goal with
    | |- context [String.eqb e ?k] =>
      destruct (String.eqb_spec e k) as [->|_]; [by intros [= <-]|]
    end.
  done.
Qed.

Lemma entity_at_scan (c : ascii) (rest k v : string) :
  Spec.entity_at (String c rest) = Some (k, v) ->
  c = "&"%char /\
  exists n, Py.index_of ";" rest = Some n /\
            String "&" (Py.take (n + 1) rest) = k /\
            entity_lookup ENTITIES k = Some v.
Proof.
  unfold Spec.entity_at, ENTITIES, List.find, fst.
  repeat
    (destruct (Py.startswith _ (String c rest)) eqn:Hs;
     [ intros [= <- <-]; apply startswith_inv in Hs;
       cbn in Hs; injection Hs as -> ->; split; [done|];
       eexists; cbn; split; [reflexivity|]; split; reflexivity
     | clear Hs ]).
  done.
Qed.

Lemma decode_loop_decoded (fuel : nat) (text : string) :
  forall (i : nat) (result : string),
    (String.length (Py.drop i text) <= fuel)%nat ->
    exists out, Spec.decoded (Py.drop i text) out /\
                decode_loop fuel text i result = result +:+ out.
Proof.
  induction fuel as [|fuel IH]; intros i result Hlen.
  { destruct (Py.drop i text) eqn:Hd; cbn in Hlen; [|lia].
    exists ""; split; [constructor | by rewrite sapp_nil_r]. }
  cbn [decode_loop]. unfold Py.get.
  destruct (Py.drop i text) as [|c rest] eqn:Hd.
  { exists ""; split; [constructor | by rewrite sapp_nil_r]. }
  pose proof (sdrop_S _ _ _ _ Hd) as Hrest.
  assert (Hlit : Spec.entity_at (String c rest) = None ->
    exists out, Spec.decoded (String c rest) out /\
      decode_loop fuel text (S i) (result +:+ String c "") = result +:+ out).
  { intros Hnone. destruct (IH (S i) (result +:+ String c "")) as (out & Hdec & Heq).
    - rewrite Hrest. cbn in Hlen; lia.
    - rewrite Hrest in Hdec. exists (String c out); split.
      + by constructor.
      + by rewrite Heq, sapp_assoc. }
  destruct (Spec.entity_at (String c rest)) as [[k v]|] eqn:Hat.
  - destruct (entity_at_scan _ _ _ _ Hat) as (-> & n & Hidx & Hk & Hlook).
    unfold Py.find, Py.slice. replace (i + 1)%nat with (S i) by lia.
    rewrite Hrest, Hidx, Hd; cbn [fmap option_fmap option_map Ascii.eqb].
    replace (S i + n + 1 - i)%nat with (S (n + 1)) by lia.
    cbn [Py.take]. rewrite Hk, Hlook. cbn [Ascii.eqb Bool.eqb].
    destruct (IH (S i + n + 1)%nat (result +:+ v)) as (out & Hdec & Heq).
    + pose proof (slength_drop (S i + n + 1) text).
      replace (S i + n + 1)%nat with (i + S (n + 1))%nat by lia.
      rewrite <- sdrop_drop, Hd. cbn [Py.drop].
      pose proof (slength_drop (n + 1) rest). cbn in Hlen; lia.
    + exists (v +:+ out). split; [|by rewrite Heq, sapp_assoc].
      replace (S i + n + 1)%nat with (i + S (n + 1))%nat in Hdec by lia.
      rewrite <- sdrop_drop, Hd in Hdec. cbn [Py.drop] in Hdec.
      assert (Hsplit : String "&" rest = k +:+ Py.drop (n + 1) rest).
      { by rewrite <- Hk, sapp_cons, stake_drop. }
      rewrite Hsplit. constructor; [by rewrite <- Hsplit | done].
  - specialize (Hlit eq_refl).
    destruct (Ascii.eqb c "&"); [|done].
    destruct (Py.find ";" (i + 1) text) as [semi|] eqn:Hfind; [|done].
    destruct (entity_lookup ENTITIES _) as [r|] eqn:Hlook; [|done].
    exfalso.
    apply entity_lookup_at with (t := Py.drop (semi + 1) text) in Hlook.
    unfold Py.slice in Hlook.
    unfold Py.find in Hfind.
    destruct (Py.index_of ";" (Py.drop (i + 1) text)) as [n|]; [|done].
    injection Hfind as <-.
    replace (i + 1 + n + 1)%nat with (i + (i + 1 + n + 1 - i))%nat in Hlook at 2 by lia.
    rewrite <- sdrop_drop, stake_drop, Hd in Hlook. congruence.
Qed.

Lemma entity_at_prefix (s k v : string) :
  Spec.entity_at s = Some (k, v) -> exists t, s = k +:+ t.
Proof.
  unfold Spec.entity_at. intros H.
  apply find_some in H as [_ H]. cbn in H.
  apply startswith_inv in H. eauto.
Qed.

Lemma entity_at_nonempty (s k v : string) :
  Spec.entity_at s = Some (k, v) -> exists c k', k = String c k'.
Proof.
  unfold Spec.entity_at. intros H.
  apply find_some in H as [Hin _].
  cbn in Hin. intuition (simplify_eq; eauto).
Qed.

Lemma decoded_unique (s o1 : string) :
  Spec.decoded s o1 -> forall o2, Spec.decoded s o2 -> o1 = o2.
Proof.
  induction 1 as [|k v rest out Hat Hdec IH|c rest out Hat Hdec IH];
    intros o2 H2.
  - inversion H2 as [|k v rest out Hat Hdec Heq|]; subst; [done|].
    destruct (entity_at_nonempty _ _ _ Hat) as (c & k' & ->). done.
  - inversion H2 as [Heq|k' v' rest' out' Hat' Hdec' Heq|c rest' out' Hat' Hdec' Heq];
      subst.
    + destruct (entity_at_nonempty _ _ _ Hat) as (c & k' & ->). done.
    + rewrite <- Heq in Hat. rewrite Hat in Hat'. injection Hat' as -> ->.
      apply String.app_inj in Heq as ->. f_equal. by apply IH.
    + rewrite Heq in Hat'. congruence.
  - inversion H2 as [|k' v' rest' out' Hat' Hdec' Heq|c' rest' out' Hat' Hdec' Heq];
      subst.
    + rewrite Heq in Hat'. congruence.
    + f_equal. by apply IH.
Qed.

Lemma decode_entities_decoded (text : string) :
  Spec.decoded text (decode_entities text).
Proof.
  destruct (decode_loop_decoded (String.length text) text 0 "")
    as (out & Hdec & Heq); [done|].
  unfold decode_entities. by rewrite Heq.
Qed.

Lemma contains_cons (p : string) (c : ascii) (s : string) :
  Py.contains p (String c s) = false ->
  Py.startswith p (String c s) = false /\ Py.contains p s = false.
Proof. cbn [Py.contains]. by intros [? ?]%orb_false_elim. Qed.

Lemma decoded_no_entity (text : string) :
  (forall k v, In (k, v) ENTITIES -> Py.contains k text = false) ->
  Spec.decoded text text.
Proof.
  induction text as [|c rest IH]; intros Hno; [constructor|].
  constructor.
  - unfold Spec.entity_at.
    destruct (List.find _ ENTITIES) as [[k v]|] eqn:Hf; [|done].
    apply find_some in Hf as [Hin Hs]. cbn [fst] in Hs.
    apply Hno, contains_cons in Hin as [Hin _]. congruence.
  - apply IH. intros k v Hin. by apply Hno, contains_cons in Hin as [_ ?].
Qed.

End Entities.

(** ** Numerals: what [Py.int] reads back *)

Section Numerals.

(** Taking a [plain] hypothesis apart. *)
Ltac plain_facts H :=
  unfold plain in H; repeat apply andb_prop in H as [H ?].

Lemma hexdigit_plain (c : ascii) : hexdigit c = true -> plain c = true.
Proof. destruct c as [[] [] [] [] [] [] [] []]; vm_compute; done. Qed.

Lemma all_chars_app (P : ascii -> bool) (a b : string) :
  all_chars P (a +:+ b) = all_chars P a && all_chars P b.
Proof. induction a as [|c a IH]; cbn; [done | by rewrite IH, andb_assoc]. Qed.

Lemma all_chars_impl (P Q : ascii -> bool) (s : string) :
  (forall c, P c = true -> Q c = true) ->
  all_chars P s = true -> all_chars Q s = true.
Proof.
  intros HPQ. induction s as [|c s IH]; cbn; [done|].
  intros [? ?]%andb_prop. rewrite HPQ, IH; done.
Qed.

Lemma digit_char_value (d : Z) :
  0 <= d < 16 -> Py.digit_value (Spec.digit_char d) = Some d.
Proof.
  intros Hd.
  assert (Hcases : d = 0 \/ d = 1 \/ d = 2 \/ d = 3 \/ d = 4 \/ d = 5 \/ d = 6
    \/ d = 7 \/ d = 8 \/ d = 9 \/ d = 10 \/ d = 11 \/ d = 12 \/ d = 13
    \/ d = 14 \/ d = 15) by lia.
  repeat (destruct Hcases as [->|Hcases]; [reflexivity|]). by subst.
Qed.

Lemma digit_char_hex (d : Z) : 0 <= d < 16 -> hexdigit (Spec.digit_char d) = true.
Proof.
  intros Hd. unfold hexdigit. rewrite digit_char_value by done.
  apply Z.ltb_lt; lia.
Qed.

Lemma digits_of_hex (fuel : nat) (base n : Z) :
  2 <= base <= 16 -> 0 <= n ->
  all_chars hexdigit (Spec.digits_of fuel base n) = true.
Proof.
  intros Hb. revert n. induction fuel as [|fuel IH]; intros n Hn; [done|].
  cbn [Spec.digits_of]. destruct (Z.ltb_spec n base).
  - cbn. rewrite digit_char_hex by lia. done.
  - rewrite all_chars_app, IH by (apply Z.div_pos; lia). cbn.
    rewrite digit_char_hex; [done|].
    pose proof (Z.mod_pos_bound n base); lia.
Qed.

Lemma digits_of_nonempty (fuel : nat) (base n : Z) :
  exists c r, Spec.digits_of (S fuel) base n = String c r.
Proof.
  cbn [Spec.digits_of]. destruct (n <? base); [eauto|].
  destruct (Spec.digits_of fuel base (n / base)); cbn; eauto.
Qed.

Lemma int_digits_snoc (base : Z) (s : string) (c : ascii) (d : Z) :
  Py.digit_value c = Some d -> d < base -> Ascii.eqb c "_" = false ->
  forall acc p v,
    Py.int_digits base acc p s = Some v ->
    Py.int_digits base acc p (s +:+ String c "") = Some (v * base + d).
Proof.
  intros Hc Hd Hus. induction s as [|x s IH]; intros acc p v.
  - cbn. destruct p; [done|]. intros [= ->].
    rewrite Hus, Hc. by destruct (Z.ltb_spec d base); [|lia].
  - cbn. destruct (Ascii.eqb x "_").
    + destruct p; [done | apply IH].
    + destruct (Py.digit_value x) as [dx|]; [|done].
      destruct (dx <? base); [apply IH | done].
Qed.

Lemma int_digits_numeral (fuel : nat) (base n : Z) :
  2 <= base <= 16 -> 0 <= n -> (Z.to_nat n < fuel)%nat ->
  Py.int_digits base 0 false (Spec.digits_of fuel base n) = Some n.
Proof.
  intros Hb. revert n. induction fuel as [|fuel IH]; intros n Hn Hf; [lia|].
  cbn [Spec.digits_of]. destruct (Z.ltb_spec n base) as [Hlt|Hge].
  - cbn [Py.int_digits].
    pose proof (hexdigit_plain _ (digit_char_hex n ltac:(lia))) as Hp.
    plain_facts Hp.
    destruct (Ascii.eqb (Spec.digit_char n) "_"); [done|].
    rewrite digit_char_value by lia.
    destruct (Z.ltb_spec n base); [|lia]. f_equal; lia.
  - pose proof (Z.mod_pos_bound n base ltac:(lia)) as Hm.
    pose proof (hexdigit_plain _ (digit_char_hex (n mod base) ltac:(lia))) as Hp.
    plain_facts Hp.
    erewrite int_digits_snoc.
    + f_equal. rewrite Z.mul_comm. symmetry. apply Z.div_mod. lia.
    + apply digit_char_value; lia.
    + lia.
    + by destruct (Ascii.eqb (Spec.digit_char (n mod base)) "_").
    + apply IH; [apply Z.div_pos; lia|].
      assert (n / base < n) by (apply Z.div_lt; lia).
      assert (0 <= n / base) by (apply Z.div_pos; lia). lia.
Qed.

Lemma lstrip_plain (c : ascii) (s : string) :
  Py.is_space c = false -> Py.lstrip (String c s) = String c s.
Proof. intros H. cbn. by rewrite H. Qed.

Lemma rstrip_all_space (t : string) :
  all_chars Py.is_space t = true -> Py.rstrip t = "".
Proof.
  induction t as [|c t IH]; cbn; [done|].
  intros [Hc Ht]%andb_prop. by rewrite IH, Hc.
Qed.

Lemma rstrip_app_blank (s t : string) :
  all_chars (fun c => negb (Py.is_space c)) s = true ->
  all_chars Py.is_space t = true ->
  Py.rstrip (s +:+ t) = s.
Proof.
  intros Hs Ht. induction s as [|c s IH]; cbn.
  - by apply rstrip_all_space.
  - cbn in Hs. apply andb_prop in Hs as [Hc Hs]. rewrite (IH Hs).
    apply negb_true_iff in Hc. rewrite Hc. by destruct s.
Qed.

Lemma strip_nonspace (s t : string) :
  all_chars nonspace s = true -> all_chars Py.is_space t = true ->
  Py.strip (s +:+ t) = s.
Proof.
  intros Hns Ht. unfold Py.strip.
  destruct s as [|c s].
  - cbn [String.append].
    assert (Py.lstrip t = "") as ->; [|done].
    clear -Ht. induction t as [|c t IH]; cbn; [done|].
    cbn in Ht. apply andb_prop in Ht as [-> Ht]. auto.
  - pose proof Hns as Hns'. cbn in Hns'. apply andb_prop in Hns' as [Hc _].
    rewrite sapp_cons, lstrip_plain by by apply negb_true_iff.
    rewrite <- sapp_cons. by apply rstrip_app_blank.
Qed.

Lemma plain_nonspace (s : string) :
  all_chars plain s = true -> all_chars nonspace s = true.
Proof.
  apply all_chars_impl. intros c Hc. unfold plain in Hc.
  by repeat apply andb_prop in Hc as [Hc ?].
Qed.

Lemma numeral_plain (base n : Z) :
  2 <= base <= 16 -> 0 <= n -> all_chars plain (Spec.numeral base n) = true.
Proof.
  intros. eapply all_chars_impl; [apply hexdigit_plain|].
  by apply digits_of_hex.
Qed.

Lemma int_space_is_space (c : ascii) :
  Py.is_int_space c = true -> Py.is_space c = true.
Proof. destruct c as [[] [] [] [] [] [] [] []]; vm_compute; done. Qed.

Lemma nonspace_int (s : string) :
  all_chars nonspace s = true ->
  all_chars (fun c => negb (Py.is_int_space c)) s = true.
Proof.
  apply all_chars_impl. intros c Hc. unfold nonspace in Hc.
  destruct (Py.is_int_space c) eqn:Hi; [|done].
  apply int_space_is_space in Hi. by rewrite Hi in Hc.
Qed.

Lemma int_rstrip_all_space (t : string) :
  all_chars Py.is_int_space t = true -> Py.int_rstrip t = "".
Proof.
  induction t as [|c t IH]; cbn; [done|].
  intros [Hc Ht]%andb_prop. by rewrite IH, Hc.
Qed.

Lemma int_rstrip_app_blank (s t : string) :
  all_chars (fun c => negb (Py.is_int_space c)) s = true ->
  all_chars Py.is_int_space t = true ->
  Py.int_rstrip (s +:+ t) = s.
Proof.
  intros Hs Ht. induction s as [|c s IH]; cbn.
  - by apply int_rstrip_all_space.
  - cbn in Hs. apply andb_prop in Hs as [Hc Hs]. rewrite (IH Hs).
    apply negb_true_iff in Hc. rewrite Hc. by destruct s.
Qed.

(** [int] takes nothing off a text without blanks but the blanks that
    follow it. *)
Lemma int_strip_nonspace (s t : string) :
  all_chars nonspace s = true -> all_chars Py.is_int_space t = true ->
  Py.int_strip (s +:+ t) = s.
Proof.
  intros Hns%nonspace_int Ht. unfold Py.int_strip.
  destruct s as [|c s].
  - cbn [String.append].
    assert (Py.int_lstrip t = "") as ->; [|done].
    clear -Ht. induction t as [|c t IH]; cbn; [done|].
    cbn in Ht. apply andb_prop in Ht as [-> Ht]. auto.
  - pose proof Hns as Hns'. cbn in Hns'. apply andb_prop in Hns' as [Hc _].
    apply negb_true_iff in Hc.
    rewrite sapp_cons. cbn [Py.int_lstrip]. rewrite Hc.
    rewrite <- sapp_cons. by apply int_rstrip_app_blank.
Qed.

Lemma int_unfold (base : Z) (s : string) :
  Py.int base s =
  (v ← Py.int_body base (Py.skip_prefix base (snd (sign_of (Py.int_strip s))));
   Some (if fst (sign_of (Py.int_strip s)) then - v else v)).
Proof.
  unfold Py.int, sign_of.
  destruct (Py.int_strip s) as [|c r]; [done|].
  destruct c as [[] [] [] [] [] [] [] []]; done.
Qed.

Lemma sign_of_plain (c : ascii) (r : string) :
  plain c = true -> sign_of (String c r) = (false, String c r).
Proof. destruct c as [[] [] [] [] [] [] [] []]; done. Qed.

Lemma int_body_numeral (base n : Z) :
  base = 10 \/ base = 16 -> 0 <= n ->
  sign_of (Spec.numeral base n) = (false, Spec.numeral base n) /\
  Py.int_body base (Py.skip_prefix base (Spec.numeral base n)) = Some n.
Proof.
  intros Hb Hn.
  pose proof (numeral_plain base n ltac:(lia) Hn) as Hpl.
  pose proof (int_digits_numeral (S (Z.to_nat n)) base n ltac:(lia) Hn ltac:(lia))
    as Hint.
  unfold Spec.numeral in *.
  destruct (digits_of_nonempty (Z.to_nat n) base n) as (c & r & Hcr).
  rewrite Hcr in *. cbn in Hpl. apply andb_prop in Hpl as [Hc Hr].
  split; [by apply sign_of_plain|].
  assert (Hskip : Py.skip_prefix base (String c r) = String c r).
  { unfold Py.skip_prefix. destruct (base =? 16); [|done].
    destruct r as [|x r']; [by destruct c as [[] [] [] [] [] [] [] []]|].
    cbn in Hr. apply andb_prop in Hr as [Hx _].
    unfold plain in Hx. repeat apply andb_prop in Hx as [Hx ?].
    repeat match goal with H : negb _ = true |- _ => apply negb_true_iff in H end.
    assert (Ascii.eqb x "x" || Ascii.eqb x "X" = false) as Hxx
      by (apply orb_false_intro; done).
    destruct c as [[] [] [] [] [] [] [] []]; try done. by rewrite Hxx. }
  rewrite Hskip. unfold Py.int_body.
  unfold plain in Hc. repeat apply andb_prop in Hc as [Hc ?].
  repeat match goal with H : negb _ = true |- _ => apply negb_true_iff in H end.
  assert (Ascii.eqb c "_" = false) as -> by done.
  done.
Qed.

Lemma int_numeral (base n : Z) (t : string) :
  base = 10 \/ base = 16 -> 0 <= n ->
  all_chars Py.is_int_space t = true ->
  Py.int base (Spec.numeral base n +:+ t) = Some n.
Proof.
  intros Hb Hn Ht. rewrite int_unfold.
  rewrite int_strip_nonspace; [|apply plain_nonspace, numeral_plain; lia|done].
  destruct (int_body_numeral base n Hb Hn) as [Hs Hv].
  rewrite Hs. cbn [fst snd]. by rewrite Hv.
Qed.

Lemma int_str_of_Z (z : Z) : Py.int 10 (Spec.str_of_Z z) = Some z.
Proof.
  unfold Spec.str_of_Z. destruct (Z.ltb_spec z 0) as [Hneg|Hpos].
  - rewrite int_unfold, <- (sapp_nil_r (String "-" _)).
    rewrite int_strip_nonspace; [|cbn|done].
    + cbn [sign_of fst snd].
      destruct (int_body_numeral 10 (- z) ltac:(lia) ltac:(lia)) as [_ ->].
      cbn. f_equal; lia.
    + apply plain_nonspace, numeral_plain; lia.
  - pose proof (int_numeral 10 z "" ltac:(lia) Hpos eq_refl) as H.
    by rewrite sapp_nil_r in H.
Qed.

End Numerals.

(** ** The constructor of [URL] on well-formed input *)

Section URLFacts.

Lemma contains_char (c x : ascii) (s : string) :
  Py.contains (String c "") (String x s)
  = Ascii.eqb c x || Py.contains (String c "") s.
Proof. cbn. by rewrite andb_true_r. Qed.

Lemma contains_char_app (c : ascii) (a b : string) :
  Py.contains (String c "") (a +:+ b)
  = Py.contains (String c "") a || Py.contains (String c "") b.
Proof.
  induction a as [|x a IH].
  - cbn [String.append]. cbn. done.
  - rewrite sapp_cons, !contains_char, IH. by rewrite orb_assoc.
Qed.

Lemma split1_app (c : ascii) (a b : string) :
  Py.contains (String c "") a = false ->
  Py.split c 1 (a +:+ String c b) = [a; b].
Proof.
  induction a as [|x a IH]; intros Ha.
  - cbn. rewrite Ascii.eqb_refl. by destruct b.
  - rewrite contains_char in Ha. apply orb_false_elim in Ha as [Hx Ha].
    rewrite sapp_cons. cbn [Py.split]. rewrite Ascii.eqb_sym, Hx, (IH Ha). done.
Qed.

Lemma split1_inv (c : ascii) (s a b : string) :
  Py.split c 1 s = [a; b] ->
  Py.contains (String c "") a = false /\ s = a +:+ String c b.
Proof.
  revert a. induction s as [|x s IH]; intros a; [done|].
  cbn [Py.split]. destruct (Ascii.eqb x c) eqn:Hx.
  - apply Ascii.eqb_eq in Hx as ->. destruct s; intros [= <- <-]; done.
  - destruct (Py.split c 1 s) as [|h [|h' t]] eqn:Hs; try done.
    intros [= <- <- ->]. destruct (IH h eq_refl) as [Hh ->].
    rewrite contains_char, Ascii.eqb_sym, Hx, Hh. done.
Qed.

Lemma sapp_cons_assoc (a : string) (c : ascii) (b d : string) :
  a +:+ String c (b +:+ d) = (a +:+ String c b) +:+ d.
Proof. by rewrite sapp_assoc, sapp_cons. Qed.

Lemma contains_char_all (P : ascii -> bool) (c : ascii) (s : string) :
  P c = false -> all_chars P s = true -> Py.contains (String c "") s = false.
Proof.
  intros Hc. induction s as [|x s IH]; [done|].
  cbn [all_chars]. intros [Hx Hs]%andb_prop.
  rewrite contains_char, (IH Hs), orb_false_r.
  destruct (Ascii.eqb_spec c x) as [->|]; congruence.
Qed.

Lemma URL_host_path (fuel : nat) (scheme host rest : string) :
  scheme = "http" \/ scheme = "https" ->
  Py.contains "/" host = false -> Py.contains ":" host = false ->
  URL_init (S fuel) (scheme +:+ "://" +:+ host +:+ "/" +:+ rest)
  = Returns (HttpURL scheme host (default_port scheme) ("/" +:+ rest)).
Proof.
  intros [-> | ->] Hs Hc; cbn;
    rewrite contains_char_app, Hs, contains_char, Ascii.eqb_refl; cbn;
    rewrite split1_app by done; cbn; rewrite Hc; done.
Qed.

Lemma URL_host_only (fuel : nat) (scheme host : string) :
  scheme = "http" \/ scheme = "https" ->
  Py.contains "/" host = false -> Py.contains ":" host = false ->
  URL_init (S fuel) (scheme +:+ "://" +:+ host)
  = Returns (HttpURL scheme host (default_port scheme) "/").
Proof.
  intros [-> | ->] Hs Hc; cbn;
    rewrite Hs; cbn; rewrite split1_app by done; cbn; rewrite Hc; done.
Qed.

Lemma URL_host_port_path (fuel : nat) (scheme host p rest : string) (n : Z) :
  scheme = "http" \/ scheme = "https" ->
  Py.contains "/" host = false -> Py.contains ":" host = false ->
  Py.contains "/" p = false -> Py.int 10 p = Some n ->
  URL_init (S fuel) (scheme +:+ "://" +:+ host +:+ ":" +:+ p +:+ "/" +:+ rest)
  = Returns (HttpURL scheme host n ("/" +:+ rest)).
Proof.
  intros [-> | ->] Hs Hc Hp Hn; cbn;
    rewrite sapp_cons_assoc, contains_char_app, contains_char, Ascii.eqb_refl,
      orb_true_r; cbn;
    (rewrite split1_app
       by (rewrite contains_char_app, Hs, contains_char, Hp; done)); cbn;
    rewrite contains_char_app, contains_char, Ascii.eqb_refl, orb_true_r;
    rewrite split1_app by done; cbn; rewrite Hn; done.
Qed.

Lemma URL_host_port (fuel : nat) (scheme host p : string) (n : Z) :
  scheme = "http" \/ scheme = "https" ->
  Py.contains "/" host = false -> Py.contains ":" host = false ->
  Py.contains "/" p = false -> Py.int 10 p = Some n ->
  URL_init (S fuel) (scheme +:+ "://" +:+ host +:+ ":" +:+ p)
  = Returns (HttpURL scheme host n "/").
Proof.
  intros [-> | ->] Hs Hc Hp Hn; cbn;
    rewrite contains_char_app, Hs, contains_char, Hp; cbn;
    (rewrite split1_app
       by (rewrite contains_char_app, Hs, contains_char, Hp; done)); cbn;
    rewrite contains_char_app, contains_char, Ascii.eqb_refl, orb_true_r;
    rewrite split1_app by done; cbn; rewrite Hn; done.
Qed.

Lemma str_of_Z_no_slash (z : Z) : Py.contains "/" (Spec.str_of_Z z) = false.
Proof.
  unfold Spec.str_of_Z. destruct (Z.ltb_spec z 0).
  - rewrite contains_char. cbn [Ascii.eqb Bool.eqb orb].
    apply contains_char_all with (P := plain); [done|].
    apply numeral_plain; lia.
  - apply contains_char_all with (P := plain); [done|].
    apply numeral_plain; lia.
Qed.

Lemma URL_serialize (fuel : nat) (scheme host rest : string) (n : Z) :
  scheme = "http" \/ scheme = "https" ->
  Py.contains "/" host = false -> Py.contains ":" host = false ->
  URL_init (S fuel) (Spec.serialize (HttpURL scheme host n ("/" +:+ rest)))
  = Returns (HttpURL scheme host n ("/" +:+ rest)).
Proof.
  intros Hsch Hs Hc. cbn [Spec.serialize].
  apply URL_host_port_path; auto using str_of_Z_no_slash, int_str_of_Z.
Qed.

(** Whatever the input, an http or https URL that the constructor builds
    has a host without [:] and [/] and a path that starts with [/]. *)
Lemma URL_init_http_shape (fuel : nat) (url scheme host path : string) (port : Z) :
  URL_init fuel url = Returns (HttpURL scheme host port path) ->
  (scheme = "http" \/ scheme = "https") /\
  Py.contains ":" host = false /\ Py.contains "/" host = false /\
  exists rest, path = "/" +:+ rest.
Proof.
  destruct fuel as [|fuel]; [done|]. cbn [URL_init].
  destruct (Py.unpack2 (Py.split ":" 1 url)) as [[sch body]|] eqn:Hsplit; [|done].
  cbn [obind]. cbv zeta.
  generalize (if Py.startswith "//" body then Py.drop 2 body else body).
  intros b0.
  generalize (if negb (Py.contains "/" b0) then b0 +:+ "/" else b0).
  intros b1.
  destruct (negb (str_in sch schemes)) eqn:Hin; [done|].
  destruct (String.eqb sch "data") eqn:Hdata.
  { destruct (Py.unpack2 (Py.split "," 1 body)) as [[? ?]|]; cbn; done. }
  destruct (String.eqb sch "view-source") eqn:Hvs.
  { destruct (URL_init fuel body); cbn; done. }
  destruct (String.eqb sch "file") eqn:Hfile; [done|].
  assert (Hsch : sch = "http" \/ sch = "https").
  { apply negb_false_iff in Hin. unfold str_in, schemes in Hin.
    cbn [existsb] in Hin. rewrite Hdata, Hvs, Hfile in Hin.
    rewrite !orb_false_r in Hin.
    apply orb_prop in Hin as [?%String.eqb_eq | ?%String.eqb_eq]; auto. }
  destruct (Py.split "/" 1 b1) as [|h [|pa [|? ?]]] eqn:Hb; try done.
  cbn beta iota delta [Py.unpack2 obind].
  apply split1_inv in Hb as [Hnoslash _].
  destruct (Py.contains ":" h) eqn:Hcolon.
  - destruct (Py.split ":" 1 h) as [|h1 [|p1 [|? ?]]] eqn:Hh1; try done.
    cbn beta iota delta [Py.unpack2 obind].
    destruct (Py.int 10 p1); [|done]. cbn beta iota delta [of_option obind].
    intros [= <- <- <- <-].
    apply split1_inv in Hh1 as [Hnc ->].
    rewrite contains_char_app in Hnoslash.
    apply orb_false_elim in Hnoslash as [? _]. eauto 10.
  - intros [= <- <- <- <-]. eauto 10.
Qed.

End URLFacts.

(** ** Reading a chunked body *)

Section Chunked.

Lemma readline_split_app (l rest : string) :
  all_chars (fun c => negb (Ascii.eqb c LF)) l = true ->
  Bytes.readline_split (l +:+ String LF rest) = (l +:+ String LF "", rest).
Proof.
  induction l as [|c l IH]; intros Hl.
  - cbn. done.
  - cbn in Hl. apply andb_prop in Hl as [Hc Hl]. apply negb_true_iff in Hc.
    rewrite !sapp_cons. cbn [Bytes.readline_split]. rewrite Hc, (IH Hl). done.
Qed.

Lemma utf8_valid_ascii (s : string) :
  all_chars (Bytes.byte_in 0 127) s = true -> Bytes.utf8_valid s = true.
Proof.
  induction s as [|c s IH]; [done|]. cbn [all_chars].
  intros [Hc Hs]%andb_prop. cbn [Bytes.utf8_valid]. rewrite Hc. auto.
Qed.

Lemma plain_parts (s : string) :
  all_chars plain s = true ->
  all_chars (fun c => negb (Ascii.eqb c LF)) s = true /\
  all_chars (Bytes.byte_in 0 127) s = true.
Proof.
  intros H; split; (eapply all_chars_impl; [|exact H]); intros c Hc;
    unfold plain in Hc; repeat apply andb_prop in Hc as [Hc ?]; done.
Qed.

(** Reading one size line [numeral CRLF] of a chunked body. *)
Lemma read_size_line (n : Z) (rest : string) :
  0 <= n ->
  exists line,
    Bytes.readline_split (Spec.numeral 16 n +:+ CRLF +:+ rest) = (line, rest) /\
    Bytes.decode line = Returns line /\
    Py.int 16 (Py.strip line) = Some n.
Proof.
  intros Hn. exists (Spec.numeral 16 n +:+ CRLF).
  pose proof (numeral_plain 16 n ltac:(lia) Hn) as Hpl.
  destruct (plain_parts _ Hpl) as [Hlf Hascii].
  split; [|split].
  - change (CRLF +:+ rest) with (String CR (String LF rest)).
    replace (Spec.numeral 16 n +:+ String CR (String LF rest))
      with ((Spec.numeral 16 n +:+ String CR "") +:+ String LF rest)
      by (by rewrite sapp_assoc).
    rewrite readline_split_app.
    + by rewrite sapp_assoc.
    + rewrite all_chars_app, Hlf. done.
  - unfold Bytes.decode. rewrite utf8_valid_ascii; [done|].
    rewrite all_chars_app, Hascii. done.
  - rewrite strip_nonspace; [|by apply plain_nonspace|done].
    rewrite <- (sapp_nil_r (Spec.numeral 16 n)).
    apply int_numeral; auto.
Qed.

Lemma read_exact (payload rest : string) :
  payload <> "" ->
  Bytes.read (Z.of_nat (String.length payload)) (payload +:+ rest)
  = (Returns payload, rest).
Proof.
  intros Hne. unfold Bytes.read.
  assert (0 < String.length payload)%nat by (destruct payload; cbn; [done|lia]).
  destruct (Z.eqb_spec (Z.of_nat (String.length payload)) (-1)); [lia|].
  destruct (Z.ltb_spec (Z.of_nat (String.length payload)) (-1)); [lia|].
  by rewrite Nat2Z.id, stake_app_length, sdrop_app_length.
Qed.

Lemma read_chunked_chunk (fuel : nat) (acc payload rest : string) :
  payload <> "" ->
  read_chunked (S fuel) acc (Spec.encode_chunk payload +:+ rest)
  = read_chunked fuel (acc +:+ payload) rest.
Proof.
  intros Hne. unfold Spec.encode_chunk. rewrite !sapp_assoc.
  destruct (read_size_line (Z.of_nat (String.length payload))
              (payload +:+ CRLF +:+ rest) ltac:(lia)) as (line & Hrl & Hdec & Hint).
  cbn [read_chunked]. unfold Bytes.bind at 1. unfold Bytes.readline.
  rewrite Hrl. unfold Bytes.bind at 1. unfold Bytes.lift at 1. rewrite Hdec.
  unfold Bytes.bind at 1. unfold Bytes.lift at 1. rewrite Hint.
  cbn [of_option].
  assert (0 < String.length payload)%nat by (destruct payload; cbn; [done|lia]).
  destruct (Z.eqb_spec (Z.of_nat (String.length payload)) 0); [lia|].
  unfold Bytes.bind at 1. rewrite read_exact by done.
  unfold Bytes.bind at 1. reflexivity.
Qed.

Lemma read_chunked_last (fuel : nat) (acc rest : string) :
  read_chunked (S fuel) acc ("0" +:+ CRLF +:+ CRLF +:+ rest)
  = (Returns acc, rest).
Proof. reflexivity. Qed.

Lemma read_chunked_encoded (chunks : list string) :
  Forall (fun payload => payload <> "") chunks ->
  forall (fuel : nat) (acc rest : string),
    (length chunks < fuel)%nat ->
    read_chunked fuel acc (Spec.encode_chunked chunks +:+ rest)
    = (Returns (acc +:+ Spec.concat chunks), rest).
Proof.
  induction 1 as [|payload chunks Hne _ IH]; intros fuel acc rest Hf.
  - destruct fuel as [|fuel]; [cbn in Hf; lia|].
    cbn [Spec.encode_chunked Spec.concat]. rewrite !sapp_assoc, sapp_nil_r.
    apply read_chunked_last.
  - destruct fuel as [|fuel]; [cbn in Hf; lia|].
    cbn [Spec.encode_chunked Spec.concat]. rewrite sapp_assoc.
    rewrite read_chunked_chunk by done.
    rewrite IH by (cbn in Hf; lia). by rewrite sapp_assoc.
Qed.

Lemma length_encode_chunked (chunks : list string) :
  (length chunks < String.length (Spec.encode_chunked chunks))%nat.
Proof.
  induction chunks as [|payload chunks IH]; [cbn; lia|].
  cbn [Spec.encode_chunked length]. unfold Spec.encode_chunk.
  rewrite !slength_app. cbn [String.length CRLF]. unfold CRLF. cbn [String.length]. lia.
Qed.

Lemma read_body_chunked (response_headers : gmap string string)
    (chunks : list string) (rest : string) :
  response_headers !! "transfer-encoding" = Some "chunked" ->
  Forall (fun payload => payload <> "") chunks ->
  read_body response_headers (Spec.encode_chunked chunks +:+ rest)
  = (Returns (Spec.concat chunks), rest).
Proof.
  intros Hte Hne. unfold read_body. rewrite bool_decide_eq_true_2 by done.
  rewrite read_chunked_encoded; [done | done |].
  pose proof (length_encode_chunked chunks). rewrite slength_app. lia.
Qed.

End Chunked.

(** ** The pool and the cache lookup *)

Section PoolAndCache.

Variable E : Env.

Lemma obtain_pooled (scheme host : string) (port : Z) (st : State) (s : socket) :
  open_sockets st !! (host, port) = Some s ->
  obtain E scheme host port st = (Returns s, st).
Proof. intros H. unfold obtain. by rewrite H. Qed.

Lemma obtain_new (scheme host : string) (port : Z) (st st' : State) (s : socket) :
  open_sockets st !! (host, port) = None ->
  obtain E scheme host port st = (Returns s, st') ->
  open_sockets st' = <[(host, port) := s]> (open_sockets st) /\
  tls s = String.eqb scheme "https" /\
  remote E (host, port) = Some (unread s) /\
  log st' = log st ++ Connect (host, port) ::
            (if tls s then [Handshake (host, port)] else []).
Proof.
  intros Hnone. unfold obtain. rewrite Hnone.
  destruct (remote E (host, port)) as [stream|]; [|done].
  destruct (String.eqb scheme "https").
  - destruct (tls_ok E (host, port)); [|done]. intros [= <- <-]. cbn.
    by rewrite <- (assoc_L (++)).
  - intros [= <- <-]. done.
Qed.

Lemma obtain_frame (scheme host : string) (port : Z) (st st' : State)
    (o : outcome socket) :
  obtain E scheme host port st = (o, st') ->
  cache st' = cache st /\ ticks st' = ticks st /\
  filter is_io (log st') = filter is_io (log st) /\
  (forall k, k <> (host, port) -> open_sockets st' !! k = open_sockets st !! k).
Proof.
  unfold obtain.
  destruct (open_sockets st !! (host, port)); [by intros [= <- <-]|].
  destruct (remote E (host, port)) as [stream|];
    [destruct (String.eqb scheme "https");
     [destruct (tls_ok E (host, port))|]|];
    intros [= <- <-]; cbn; rewrite ?filter_app; cbn; rewrite ?app_nil_r;
    (repeat split; try done); intros k Hk; by rewrite lookup_insert_ne.
Qed.

Lemma cache_lookup_hit (url : string) (now : Z) (st : State)
    (body : string) (expiry : option Z) :
  cache st !! url = Some (body, expiry) -> unexpired expiry now ->
  cache_lookup url now st = (Some body, st).
Proof.
  intros Hc Hu. unfold cache_lookup. rewrite Hc.
  destruct expiry as [t|]; [|done]. cbn in Hu.
  by destruct (Z.ltb_spec now t); [|lia].
Qed.

Lemma cache_lookup_expired (url : string) (now : Z) (st : State)
    (body : string) (t : Z) :
  cache st !! url = Some (body, Some t) -> t <= now ->
  cache_lookup url now st = (None, set_cache (delete url) st).
Proof.
  intros Hc Hu. unfold cache_lookup. rewrite Hc.
  by destruct (Z.ltb_spec now t); [lia|].
Qed.

Lemma cache_lookup_some (url : string) (now : Z) (st : State) (body : string) :
  (cache_lookup url now st).1 = Some body <->
  exists expiry, cache st !! url = Some (body, expiry) /\ unexpired expiry now.
Proof.
  unfold cache_lookup. destruct (cache st !! url) as [[b e]|]; cbn.
  - destruct e as [t|]; cbn.
    + destruct (Z.ltb_spec now t); cbn; split.
      * intros [= ->]. eauto.
      * intros (e & [= -> <-] & _). done.
      * done.
      * intros (e & [= -> <-] & Hu). cbn in Hu. lia.
    + split; [intros [= ->]; by exists None | by intros (e & [= -> <-] & _)].
  - split; [done | by intros (e & ? & _)].
Qed.

Lemma request_step_cache_hit (fuel : nat) (scheme host : string) (port : Z)
    (path : string) (r : Z) (st st1 : State) (s : socket) (body : string)
    (expiry : option Z) :
  obtain E scheme host port st = (Returns s, st1) ->
  cache st !! absolute_url scheme host path = Some (body, expiry) ->
  unexpired expiry (time_at E (ticks st)) ->
  request_step E fuel (HttpURL scheme host port path) r st
  = (Final (Returns body), (time_time E st1).2).
Proof.
  intros Hob Hc Hu. cbn [request_step]. rewrite Hob.
  destruct (obtain_frame _ _ _ _ _ _ Hob) as (Hcache & Hticks & _).
  unfold time_time. rewrite Hticks.
  rewrite (cache_lookup_hit _ _ _ body expiry); [done| |exact Hu].
  cbn. by rewrite Hcache.
Qed.

End PoolAndCache.

(** ** After a cache miss *)

Section CacheStore.

Variable E : Env.

Lemma cache_store_log (url body : string) (status : Z)
    (response_headers : gmap string string) (st : State) :
  log (cache_store E url body status response_headers st).2 = log st.
Proof. unfold cache_store, time_time. by repeat case_match. Qed.

Lemma cache_store_sockets (url body : string) (status : Z)
    (response_headers : gmap string string) (st : State) :
  open_sockets (cache_store E url body status response_headers st).2
  = open_sockets st.
Proof. unfold cache_store, time_time. by repeat case_match. Qed.

End CacheStore.

(** With the state that [cache_store] returns under a name, what is known
    of the log and the pool of the state it started from carries over. *)
Ltac cache_store_facts :=
  repeat match goal with
  | H : cache_store ?E0 ?u ?b ?z ?g ?st0 = _ |- _ =>
    let Hl := fresh "Hlog" in
    let Hs := fresh "Hsock" in
    pose proof (cache_store_log E0 u b z g st0) as Hl;
    pose proof (cache_store_sockets E0 u b z g st0) as Hs;
    rewrite H in Hl, Hs; cbn [fst snd] in Hl, Hs |- *;
    try rewrite Hl; try rewrite Hs; clear H
  end.

Section Exchange.

Variable E : Env.

(** What [release] leaves alone. *)
Lemma release_frame (k : string * Z) (st : State) :
  log (release E k st) = log st /\ cache (release E k st) = cache st /\
  ticks (release E k st) = ticks st /\
  (forall k', k' <> k ->
     open_sockets (release E k st) !! k' = open_sockets st !! k') /\
  (forall k', is_Some (open_sockets st !! k') ->
     is_Some (open_sockets (release E k st) !! k')).
Proof.
  unfold release, set_sockets. cbn. repeat split; try done.
  - intros k' Hk. by rewrite lookup_alter_ne.
  - intros k' Hk. destruct (decide (k = k')) as [->|Hne].
    + rewrite lookup_alter_eq. by apply fmap_is_Some.
    + by rewrite lookup_alter_ne.
Qed.

Lemma respond_sends (fuel : nat) (scheme host : string) (port : Z)
    (path : string) (s : socket) (r : Z) (st : State) :
  exists l,
    log (respond E fuel scheme host port path s r st).2
    = log st ++ Send (host, port) (frame_request host path) :: l.
Proof.
  unfold respond, send, recv, raising, Bytes.encode.
  repeat case_match; simplify_eq; cache_store_facts;
    cbn [fst snd log emit set_sockets];
    rewrite <- ?(assoc_L (++)); cbn [app]; eauto.
Qed.

Lemma exchange_unfold (fuel : nat) (scheme host : string) (port : Z)
    (path : string) (s : socket) (r : Z) (st : State) :
  exchange E fuel scheme host port path s r st
  = ((respond E fuel scheme host port path s r st).1,
     release E (host, port) (respond E fuel scheme host port path s r st).2).
Proof. unfold exchange. by destruct (respond _ _ _ _ _ _ _ _ _). Qed.

Lemma exchange_sends (fuel : nat) (scheme host : string) (port : Z)
    (path : string) (s : socket) (r : Z) (st : State) :
  exists l,
    log (exchange E fuel scheme host port path s r st).2
    = log st ++ Send (host, port) (frame_request host path) :: l.
Proof.
  rewrite exchange_unfold. cbn [snd].
  destruct (release_frame (host, port)
              (respond E fuel scheme host port path s r st).2) as (-> & _).
  apply respond_sends.
Qed.

Lemma request_step_expired (fuel : nat) (scheme host : string) (port : Z)
    (path : string) (r : Z) (st st1 : State) (s : socket) (body : string)
    (t : Z) :
  obtain E scheme host port st = (Returns s, st1) ->
  cache st !! absolute_url scheme host path = Some (body, Some t) ->
  t <= time_at E (ticks st) ->
  request_step E fuel (HttpURL scheme host port path) r st
  = exchange E fuel scheme host port path s r
      (set_cache (delete (absolute_url scheme host path)) (time_time E st1).2).
Proof.
  intros Hob Hc Hu. cbn [request_step]. rewrite Hob.
  destruct (obtain_frame _ _ _ _ _ _ _ Hob) as (Hcache & Hticks & _).
  unfold time_time. rewrite Hticks.
  rewrite (cache_lookup_expired _ _ _ body t); [done| |exact Hu].
  cbn. by rewrite Hcache.
Qed.

Lemma request_step_miss (fuel : nat) (scheme host : string) (port : Z)
    (path : string) (r : Z) (st st1 : State) (s : socket) :
  obtain E scheme host port st = (Returns s, st1) ->
  cache st !! absolute_url scheme host path = None ->
  request_step E fuel (HttpURL scheme host port path) r st
  = exchange E fuel scheme host port path s r (time_time E st1).2.
Proof.
  intros Hob Hc. cbn [request_step]. rewrite Hob.
  destruct (obtain_frame _ _ _ _ _ _ _ Hob) as (Hcache & Hticks & _).
  unfold time_time, cache_lookup. cbn. by rewrite Hcache, Hc.
Qed.

Lemma obtain_forget (scheme host : string) (port : Z) (url : string)
    (st st1 : State) (o : outcome socket) :
  obtain E scheme host port st = (o, st1) ->
  obtain E scheme host port (set_cache (delete url) st)
  = (o, set_cache (delete url) st1).
Proof.
  unfold obtain. cbn.
  repeat case_match; intros; simplify_eq; done.
Qed.

End Exchange.

(** ** The cache-control loop finds the first max-age directive *)

Section Directives.

Lemma startswith_contains (p s : string) :
  Py.startswith p s = true -> Py.contains p s = true.
Proof. intros H. destruct s; cbn [Py.contains]; by rewrite H. Qed.

Lemma contains_cons_r (p : string) (c : ascii) (s : string) :
  Py.contains p s = true -> Py.contains p (String c s) = true.
Proof. intros H. cbn [Py.contains]. rewrite H. apply orb_true_r. Qed.

Lemma startswith_app_r (p a u : string) :
  Py.startswith p a = true -> Py.startswith p (a +:+ u) = true.
Proof.
  revert a; induction p as [|c p IH]; intros [|x a]; cbn; try done.
  intros [-> ?]%andb_prop. cbn. auto.
Qed.

Lemma contains_app_r (p a u : string) :
  Py.contains p a = true -> Py.contains p (a +:+ u) = true.
Proof.
  induction a as [|x a IH].
  - cbn. destruct p; [|done]. intros _. by destruct u.
  - rewrite sapp_cons. cbn [Py.contains].
    intros [H|H]%orb_prop.
    + apply (startswith_app_r _ _ u) in H. rewrite sapp_cons in H.
      by rewrite H.
    + rewrite (IH H). apply orb_true_r.
Qed.

Lemma contains_app_l (p a b : string) :
  Py.contains p b = true -> Py.contains p (a +:+ b) = true.
Proof.
  intros H. induction a as [|x a IH]; [done|].
  rewrite sapp_cons. by apply contains_cons_r.
Qed.

Lemma lstrip_suffix (s : string) : exists a, s = a +:+ Py.lstrip s.
Proof.
  induction s as [|c s [a IH]]; [by exists ""|].
  cbn [Py.lstrip]. destruct (Py.is_space c).
  - exists (String c a). by rewrite sapp_cons, <- IH.
  - by exists "".
Qed.

Lemma rstrip_prefix (s : string) : exists b, s = Py.rstrip s +:+ b.
Proof.
  induction s as [|c s [b IH]]; [by exists ""|].
  cbn [Py.rstrip]. destruct (Py.rstrip s) as [|x r] eqn:Hr.
  - destruct (Py.is_space c).
    + by exists (String c s).
    + exists b. cbn in IH. by rewrite sapp_cons, <- IH.
  - exists b. by rewrite sapp_cons, <- IH.
Qed.

Lemma contains_strip (p d : string) :
  Py.contains p (Py.strip d) = true -> Py.contains p d = true.
Proof.
  unfold Py.strip. intros H.
  destruct (lstrip_suffix d) as [a Ha].
  destruct (rstrip_prefix (Py.lstrip d)) as [b Hb].
  rewrite Ha. apply contains_app_l. rewrite Hb. by apply contains_app_r.
Qed.

Lemma split_head_prefix (c : ascii) (n : nat) (s : string) :
  exists h t u, Py.split c n s = h :: t /\ s = h +:+ u.
Proof.
  revert n. induction s as [|x s IH]; intros [|n]; cbn [Py.split].
  - by exists "", [], "".
  - by exists "", [], "".
  - exists (String x s), [], "". by rewrite sapp_nil_r.
  - destruct (Ascii.eqb x c).
    + by exists "", (Py.split c n s), (String x s).
    + destruct (IH (S n)) as (h & t & u & -> & ->).
      by exists (String x h), t, u.
Qed.

Lemma contains_split (p : string) (c : ascii) (s : string) :
  forall (n : nat) (d : string),
    In d (Py.split c n s) -> Py.contains p d = true -> Py.contains p s = true.
Proof.
  induction s as [|x s IH]; intros [|n] d; cbn [Py.split].
  - by intros [<-|[]].
  - by intros [<-|[]].
  - by intros [<-|[]].
  - destruct (Ascii.eqb x c).
    + intros [<-|Hin] Hp.
      * cbn in Hp. destruct p; [|done]. done.
      * apply contains_cons_r. by eapply IH.
    + destruct (split_head_prefix c (S n) s) as (h & t & u & Hs & Hu).
      rewrite Hs. intros [<-|Hin] Hp.
      * cbn [Py.contains] in Hp |- *.
        apply orb_prop in Hp as [Hp|Hp].
        -- apply (startswith_app_r _ _ u) in Hp. rewrite sapp_cons in Hp.
           rewrite Hu. by rewrite Hp.
        -- assert (Py.contains p s = true) as ->; [|apply orb_true_r].
           eapply (IH (S n) h); [rewrite Hs; by left | done].
      * apply contains_cons_r. eapply (IH (S n) d); [|done].
        rewrite Hs. by right.
Qed.

Lemma scan_directives_find (directives : list string) :
  scan_directives directives
  = (d ← List.find (Py.startswith "max-age=") (Py.strip <$> directives);
     v ← Spec.directive_value d; Py.int 10 v).
Proof.
  induction directives as [|d l IH]; [done|].
  cbn [scan_directives fmap list_fmap List.find].
  destruct (Py.startswith "max-age=" (Py.strip d)); [done | apply IH].
Qed.

Lemma max_age_of_spec (cache_control : string) :
  max_age_of cache_control
  = (d ← Spec.max_age_directive cache_control;
     v ← Spec.directive_value d; Py.int 10 v).
Proof.
  unfold max_age_of, Spec.max_age_directive.
  destruct (Py.contains "max-age=" cache_control) eqn:Hc.
  - apply scan_directives_find.
  - destruct (List.find _ _) as [d|] eqn:Hf; [|done].
    apply find_some in Hf as [Hin Hs].
    apply in_map_iff in Hin as (d0 & <- & Hin).
    apply startswith_contains, contains_strip in Hs.
    apply (contains_split _ _ _ _ _ Hin) in Hs. congruence.
Qed.

End Directives.

(** ** The bounds of the two reading loops are never reached *)

Section LoopFuel.

Lemma readline_split_rest (buf : string) :
  (String.length (Bytes.readline_split buf).2 <= pred (String.length buf))%nat.
Proof.
  induction buf as [|c r IH]; [done|].
  change (Bytes.readline_split (String c r))
    with (if Ascii.eqb c LF then (String c "", r)
          else let '(line, rest) := Bytes.readline_split r in
               (String c line, rest)).
  destruct (Ascii.eqb c LF); [cbn; lia|].
  destruct (Bytes.readline_split r) as [line rest]. cbn in *. lia.
Qed.

Lemma readline_split_length (c : ascii) (buf : string) :
  (String.length (Bytes.readline_split (String c buf)).2 <= String.length buf)%nat.
Proof. apply (readline_split_rest (String c buf)). Qed.

Lemma read_length (n : Z) (buf rest : string) (o : outcome string) :
  Bytes.read n buf = (o, rest) ->
  (String.length rest <= String.length buf)%nat.
Proof.
  unfold Bytes.read, Bytes.read_all.
  destruct (n =? -1); [intros [= <- <-]; cbn; lia|].
  destruct (n <? -1); intros [= <- <-]; [lia | apply slength_drop].
Qed.

(** The bound of the header loop is never what stops it. *)
Lemma read_headers_fuel (f1 : nat) :
  forall (f2 : nat) (hdrs : gmap string string) (buf : string),
    (String.length buf < f1)%nat -> (String.length buf < f2)%nat ->
    read_headers f1 hdrs buf = read_headers f2 hdrs buf.
Proof.
  induction f1 as [|f1 IH]; intros [|f2] hdrs buf H1 H2; try lia.
  destruct buf as [|c buf]; [reflexivity|].
  cbn [read_headers]. unfold Bytes.bind, Bytes.readline, Bytes.lift, Bytes.ret.
  pose proof (readline_split_length c buf) as Hlen.
  destruct (Bytes.readline_split (String c buf)) as [line rest].
  cbn [snd] in Hlen. cbn [String.length] in H1, H2.
  destruct (Bytes.decode line) as [l|]; [|done].
  destruct (String.eqb l CRLF); [done|].
  destruct (Py.unpack2 (Py.split ":" 1 l)) as [hv|]; [|done].
  apply IH; lia.
Qed.

(** Nor is the bound of the chunk loop. *)
Lemma read_chunked_fuel (f1 : nat) :
  forall (f2 : nat) (acc buf : string),
    (String.length buf < f1)%nat -> (String.length buf < f2)%nat ->
    read_chunked f1 acc buf = read_chunked f2 acc buf.
Proof.
  induction f1 as [|f1 IH]; intros [|f2] acc buf H1 H2; try lia.
  destruct buf as [|c buf]; [reflexivity|].
  cbn [read_chunked]. unfold Bytes.bind, Bytes.readline, Bytes.lift, Bytes.ret.
  pose proof (readline_split_length c buf) as Hlen.
  destruct (Bytes.readline_split (String c buf)) as [line rest].
  cbn [snd] in Hlen. cbn [String.length] in H1, H2.
  destruct (Bytes.decode line) as [l|]; [|done].
  destruct (of_option ValueError (Py.int 16 (Py.strip l))) as [n|]; [|done].
  destruct (n =? 0); [done|].
  destruct (Bytes.read n rest) as [[data|] rest1] eqn:Hr1; [|done].
  apply read_length in Hr1.
  destruct (Bytes.read 2 rest1) as [[skip|] rest2] eqn:Hr2; [|done].
  apply read_length in Hr2.
  apply IH; lia.
Qed.

End LoopFuel.

(** ** The redirect limit at one hop *)

Section Redirects.

Variable E : Env.

Lemma URL_init_raises (fuel : nat) :
  forall (url : string) (e : exn),
    URL_init fuel url = Raises e ->
    forall msg, e <> Exception msg.
Proof.
  induction fuel as [|fuel IH]; intros url e; [by intros [= <-]|].
  cbn [URL_init].
  destruct (Py.unpack2 (Py.split ":" 1 url)) as [[sch body]|] eqn:Hu.
  2: { destruct (Py.split ":" 1 url) as [|? [|? [|? ?]]]; cbn in Hu;
       simplify_eq; by intros [= <-]. }
  cbn beta iota delta [obind]. cbv zeta.
  generalize (if Py.startswith "//" body then Py.drop 2 body else body).
  intros b0.
  generalize (if negb (Py.contains "/" b0) then b0 +:+ "/" else b0).
  intros b1.
  destruct (negb (str_in sch schemes)); [by intros [= <-]|].
  destruct (String.eqb sch "data").
  { destruct (Py.split "," 1 body) as [|? [|? [|? ?]]]; cbn;
      by intros [= <-]. }
  destruct (String.eqb sch "view-source").
  { destruct (URL_init fuel body) eqn:Hin; cbn; [done|].
    intros [= <-]. by eapply IH. }
  destruct (String.eqb sch "file"); [done|].
  destruct (Py.split "/" 1 b1) as [|h [|pa [|? ?]]]; cbn;
    try by intros [= <-].
  destruct (Py.contains ":" h); [|done].
  destruct (Py.split ":" 1 h) as [|? [|p1 [|? ?]]]; cbn;
    try by intros [= <-].
  destruct (Py.int 10 p1); cbn; [done | by intros [= <-]].
Qed.

(** At a hop that reads a 3xx response, [request] raises "Too many
    redirects" exactly when the counter of that hop is at least 5. *)
Lemma exchange_too_many (fuel : nat) (scheme host : string) (port : Z)
    (path : string) (s s1 : socket) (r : Z) (st st1 : State) (status : string)
    (response_headers : gmap string string) (code : Z) :
  recv (host, port) s read_head
    (send (host, port) (Bytes.encode (frame_request host path)) st)
  = (Returns (status, response_headers), s1, st1) ->
  Py.int 10 status = Some code -> 300 <= code < 400 ->
  (exchange E fuel scheme host port path s r st).1
  = raising (Exception "Too many redirects") <-> 5 <= r.
Proof.
  intros Hrecv Hint Hcode. rewrite exchange_unfold. cbn [fst].
  unfold respond. rewrite Hrecv, Hint.
  destruct (Z.leb_spec 300 code); [|lia].
  destruct (Z.ltb_spec code 400); [|lia]. cbn [andb].
  destruct (Z.leb_spec 5 r); [done|].
  split; [|lia]. intros Hfail. exfalso. revert Hfail.
  destruct (response_headers !! "location") as [[|c loc]|];
    cbn [fst]; [done| |done].
  match goal with
  | |- context [URL_init fuel ?x] => destruct (URL_init fuel x) as [u|e] eqn:Hu
  end; cbn [fst]; [done|]. unfold raising.
  intros [= ->]. by eapply URL_init_raises.
Qed.

End Redirects.

(** ** What a request leaves in the cache *)

Section CacheFacts.

Variable E : Env.

Lemma cache_store_other (url body : string) (status : Z)
    (response_headers : gmap string string) (st : State) (k : string) :
  k <> url ->
  cache (cache_store E url body status response_headers st).2 !! k
  = cache st !! k.
Proof.
  intros Hk. unfold cache_store, time_time.
  repeat case_match; cbn; rewrite ?lookup_insert_ne by done; done.
Qed.

(** An entry that [cache_store] has put where there was none holds the
    body it was given, and then nothing was raised. *)
Lemma cache_store_own (url body : string) (status : Z)
    (response_headers : gmap string string) (st : State) (b : string)
    (e : option Z) :
  cache st !! url = None ->
  cache (cache_store E url body status response_headers st).2 !! url
  = Some (b, e) ->
  b = body /\ (cache_store E url body status response_headers st).1 = Returns tt.
Proof.
  intros Hnone. unfold cache_store, time_time.
  repeat case_match; cbn; rewrite ?lookup_insert_eq; try congruence.
  by intros [= <- <-].
Qed.

Lemma cache_store_ext (url body : string) (status : Z)
    (response_headers : gmap string string) (st st' : State) :
  cache st' = cache st -> ticks st' = ticks st ->
  cache (cache_store E url body status response_headers st').2
  = cache (cache_store E url body status response_headers st).2
  /\ (cache_store E url body status response_headers st').1
     = (cache_store E url body status response_headers st).1.
Proof.
  intros Hc Ht. unfold cache_store, time_time.
  repeat case_match; cbn; by rewrite ?Hc, ?Ht.
Qed.

Lemma respond_cache_other (fuel : nat) (scheme host : string) (port : Z)
    (path : string) (s : socket) (r : Z) (st : State) (k : string) :
  k <> absolute_url scheme host path ->
  cache (respond E fuel scheme host port path s r st).2 !! k = cache st !! k.
Proof.
  intros Hk. unfold respond, send, recv, raising, Bytes.encode.
  repeat case_match; simplify_eq; cbn [fst snd]; try done.
  all: match goal with
       | H : cache_store _ ?u ?b ?z ?g ?st0 = _ |- _ =>
         pose proof (cache_store_other u b z g st0 k Hk) as Hc;
         rewrite H in Hc; cbn [snd] in Hc; by rewrite Hc
       end.
Qed.

(** An entry that is in the cache after the response was read, and was
    not before, holds the body that the activation returns. *)
Lemma respond_cache_new (fuel : nat) (scheme host : string) (port : Z)
    (path : string) (s : socket) (r : Z) (st : State) (k b : string)
    (e : option Z) :
  cache st !! k = None ->
  cache (respond E fuel scheme host port path s r st).2 !! k = Some (b, e) ->
  (respond E fuel scheme host port path s r st).1 = Final (Returns b).
Proof.
  intros Hnone.
  destruct (decide (k = absolute_url scheme host path)) as [->|Hk];
    [|rewrite respond_cache_other by done; congruence].
  unfold respond, send, recv, raising, Bytes.encode.
  repeat case_match; simplify_eq; cbn [fst snd]; try (cbn; congruence).
  all: match goal with
       | H : cache_store _ ?u ?b0 ?z ?g ?st0 = _ |- _ =>
         intros Hsome;
         destruct (cache_store_own u b0 z g st0 b e) as [-> Hret];
           [exact Hnone | by rewrite H | rewrite H in Hret; done]
       end.
Qed.

Lemma exchange_cache_other (fuel : nat) (scheme host : string) (port : Z)
    (path : string) (s : socket) (r : Z) (st : State) (k : string) :
  k <> absolute_url scheme host path ->
  cache (exchange E fuel scheme host port path s r st).2 !! k = cache st !! k.
Proof.
  intros Hk. rewrite exchange_unfold. cbn [snd].
  destruct (release_frame E (host, port)
              (respond E fuel scheme host port path s r st).2) as (_ & -> & _).
  by apply respond_cache_other.
Qed.

Lemma exchange_cache_new (fuel : nat) (scheme host : string) (port : Z)
    (path : string) (s : socket) (r : Z) (st : State) (k b : string)
    (e : option Z) :
  cache st !! k = None ->
  cache (exchange E fuel scheme host port path s r st).2 !! k = Some (b, e) ->
  (exchange E fuel scheme host port path s r st).1 = Final (Returns b).
Proof.
  rewrite exchange_unfold. cbn [fst snd].
  destruct (release_frame E (host, port)
              (respond E fuel scheme host port path s r st).2) as (_ & -> & _).
  apply respond_cache_new.
Qed.

Lemma exchange_cache_own (fuel : nat) (scheme host : string) (port : Z)
    (path : string) (s : socket) (r : Z) (st : State) (body b : string)
    (e : option Z) :
  cache st !! absolute_url scheme host path = None ->
  (exchange E fuel scheme host port path s r st).1 = Final (Returns body) ->
  cache (exchange E fuel scheme host port path s r st).2
    !! absolute_url scheme host path = Some (b, e) ->
  b = body.
Proof.
  intros Hnone Hres Hsome.
  rewrite (exchange_cache_new _ _ _ _ _ _ _ _ _ _ _ Hnone Hsome) in Hres.
  congruence.
Qed.

Lemma cache_lookup_cache (url : string) (now : Z) (st st' : State)
    (o : option string) (k : string) :
  cache_lookup url now st = (o, st') ->
  (k <> url -> cache st' !! k = cache st !! k) /\
  (o = None -> cache st' !! url = None) /\
  (forall body, o = Some body ->
     st' = st /\ exists e, cache st !! url = Some (body, e)).
Proof.
  unfold cache_lookup.
  destruct (cache st !! url) as [[b [t|]]|] eqn:Hc.
  - destruct (now <? t); intros [= <- <-]; cbn.
    + split; [done|]. split; [done|]. intros b0 [= <-]. eauto.
    + split; [intros; by rewrite lookup_delete_ne|].
      split; [intros; apply lookup_delete_eq | done].
  - intros [= <- <-]. split; [done|]. split; [done|]. intros b0 [= <-]. eauto.
  - intros [= <- <-]. done.
Qed.

(** The body that a request returns is the one that the cache holds under
    a key afterwards, when the key is the one of the URL or had no entry
    before: along a chain of redirects only the activation that returns
    the body stores anything. *)
Lemma request_cached_body (fuel : nat) :
  forall (u : URL) (r : Z) (st st1 : State) (body k b : string)
         (e : option Z),
    cache st !! k = None \/ cache_key u = Some k ->
    request E fuel u r st = (Returns body, st1) ->
    cache st1 !! k = Some (b, e) ->
    b = body.
Proof.
  induction fuel as [|fuel IH]; intros u r st st1 body k b e Hk; [done|].
  cbn [request].
  destruct u as [m d|a|p|scheme host port path]; cbn [request_step].
  - destruct Hk as [Hk|Hk]; [|done]. intros [= <- <-]. congruence.
  - destruct Hk as [Hk|Hk]; [|done]. apply IH. by left.
  - destruct Hk as [Hk|Hk]; [|done]. intros [= _ <-]. congruence.
  - destruct (obtain E scheme host port st) as [[s|ex] st0] eqn:Hob; [|done].
    destruct (obtain_frame _ _ _ _ _ _ _ Hob) as (Hc0 & _).
    unfold time_time.
    destruct (cache_lookup _ _ _) as [[body0|] st2] eqn:Hl.
    + destruct (cache_lookup_cache _ _ _ _ _ k Hl) as (_ & _ & Hhit).
      destruct (Hhit body0 eq_refl) as (-> & e0 & He0). cbn in He0.
      intros [= <- <-]. cbn [cache]. rewrite Hc0.
      destruct Hk as [Hk|[= <-]]; congruence.
    + assert (Habs : cache st2 !! k = None).
      { destruct (cache_lookup_cache _ _ _ _ _ k Hl) as (Hother & Hmiss & _).
        destruct (decide (k = absolute_url scheme host path)) as [->|Hne].
        - by apply Hmiss.
        - rewrite Hother by done. cbn. rewrite Hc0.
          destruct Hk as [Hk|[= <-]]; done. }
      pose proof (exchange_cache_new fuel scheme host port path s r st2 k)
        as Hnew.
      destruct (exchange E fuel scheme host port path s r st2)
        as [[o|u' r'] st3]; cbn [fst snd] in Hnew.
      * intros [= -> <-] Hsome.
        specialize (Hnew b e Habs Hsome). congruence.
      * destruct (cache st3 !! k) as [[b' e']|] eqn:Hk3.
        -- by specialize (Hnew b' e' Habs eq_refl).
        -- apply IH. by left.
Qed.

End CacheFacts.

(** * The claims *)

Section Claims.

(** Supporting facts for C1: five redirects are followed, and a sixth one
    on plain http URLs is refused. *)
Lemma five_redirects_succeed :
  (Demo.fetch "http://five/" initial).1 = Returns "done.".
Proof. vm_compute. reflexivity. Qed.

Lemma sixth_redirect_refused :
  (Demo.fetch "http://six/" initial).1
  = Raises (Exception "Too many redirects").
Proof. vm_compute. reflexivity. Qed.

(** C1 (the code departs from the claim).  A chain that starts with
    redirect count 0 and whose first redirect names a view-source URL goes
    through six 3xx responses and still returns the body of the seventh
    response: the call of line 50 restarts the count at 0.  Seven requests
    are sent, one per response. *)
Theorem view_source_redirect_resets_count :
  (Demo.fetch "http://vs/" initial).1 = Returns "done." /\
  Demo.sends (Demo.fetch "http://vs/" initial).2 = 7%nat /\
  (forall fuel,
     request_step Demo.world fuel
       (ViewSourceURL (HttpURL "http" "vs" 80 "/1")) 1 initial
     = (Forward (HttpURL "http" "vs" 80 "/1") 0, initial)).
Proof.
  split; [vm_compute; reflexivity|]. split; [vm_compute; reflexivity|].
  intros fuel. reflexivity.
Qed.

(** C2 as written fails: after an https fetch of [secure:8443] an http
    request to the same host and port is handed the TLS socket. *)
Lemma tls_socket_reused_for_http : ~ Stated.tls_never_reused.
Proof.
  intros H.
  specialize (H Demo.world "http" "secure" 8443 Demo.after_secure
                Demo.after_secure {| tls := true; unread := "" |}).
  discriminate H; vm_compute; reflexivity.
Qed.

(** C2 (amended).  [obtain] touches the pool at the key [(host, port)]
    only: an entry that is there is returned as it is, whatever the scheme
    of the request, and nothing changes; when there is none, the new
    socket is stored under the key, TLS-wrapped exactly when the scheme is
    https; so the pool never grows by more than one entry. *)
Theorem pool_one_entry_per_key (E : Env) (scheme host : string) (port : Z)
    (st st' : State) (o : outcome socket) :
  obtain E scheme host port st = (o, st') ->
  (forall k, k <> (host, port) -> open_sockets st' !! k = open_sockets st !! k)
  /\ (forall s, open_sockets st !! (host, port) = Some s ->
        o = Returns s /\ st' = st)
  /\ (forall s, open_sockets st !! (host, port) = None -> o = Returns s ->
        open_sockets st' = <[(host, port) := s]> (open_sockets st) /\
        tls s = String.eqb scheme "https")
  /\ (size (open_sockets st') <= S (size (open_sockets st)))%nat.
Proof.
  intros Hob. split; [|split; [|split]].
  - by destruct (obtain_frame _ _ _ _ _ _ _ Hob) as (_ & _ & _ & ?).
  - intros s Hs. rewrite (obtain_pooled _ _ _ _ _ _ Hs) in Hob.
    by injection Hob as <- <-.
  - intros s Hnone ->.
    by destruct (obtain_new _ _ _ _ _ _ _ Hnone Hob) as (? & ? & _).
  - destruct (open_sockets st !! (host, port)) as [s|] eqn:Hs.
    + rewrite (obtain_pooled _ _ _ _ _ _ Hs) in Hob.
      injection Hob as <- <-. lia.
    + destruct o as [s|e].
      * destruct (obtain_new _ _ _ _ _ _ _ Hs Hob) as (-> & _).
        rewrite map_size_insert_None by done. lia.
      * assert (open_sockets st' = open_sockets st) as ->; [|lia].
        revert Hob. unfold obtain. rewrite Hs.
        repeat case_match; intros; simplify_eq; done.
Qed.

Lemma pool_one_entry_per_key_witness :
  obtain Demo.world "http" "secure" 8443 Demo.after_secure
  = (Returns {| tls := true; unread := "" |}, Demo.after_secure) /\
  (forall s, open_sockets Demo.after_secure !! ("secure", 8443) = Some s ->
     Returns {| tls := true; unread := "" |} = Returns s
     /\ Demo.after_secure = Demo.after_secure).
Proof.
  split; [vm_compute; reflexivity|].
  apply (pool_one_entry_per_key Demo.world "http" "secure" 8443
           Demo.after_secure Demo.after_secure).
  vm_compute; reflexivity.
Defined.




(** C4 as written fails: the body cached for [http://h/] is returned to a
    request for [http://h:8080/], but only after a connection to port 8080
    was opened. *)
Lemma cache_hit_opens_connection : ~ Stated.cache_hit_without_io.
Proof.
  intros H.
  destruct (H Demo.world 0%nat "http" "h" 8080 "/" 0 Demo.after_h "hello" 61)
    as [_ Hlog].
  - by left.
  - vm_compute. reflexivity.
  - vm_compute. reflexivity.
  - vm_compute in Hlog. discriminate Hlog.
Qed.

(** C4 (amended).  When the absolute URL has an unexpired cache entry and
    the connection of [(host, port)] is pooled or can be opened, [request]
    returns the cached body; no request is sent and no response is read;
    the cache is left as it is; and when the connection was pooled already
    the log and the pool are unchanged as well. *)
Theorem cache_hit_skips_exchange (E : Env) (fuel : nat) (scheme host : string)
    (port : Z) (path : string) (r : Z) (st st1 : State) (s : socket)
    (body : string) (expiry : option Z) :
  cache st !! absolute_url scheme host path = Some (body, expiry) ->
  unexpired expiry (time_at E (ticks st)) ->
  obtain E scheme host port st = (Returns s, st1) ->
  exists st',
    request E (S fuel) (HttpURL scheme host port path) r st
    = (Returns body, st') /\
    cache st' = cache st /\
    filter is_io (log st') = filter is_io (log st) /\
    (is_Some (open_sockets st !! (host, port)) ->
     log st' = log st /\ open_sockets st' = open_sockets st).
Proof.
  intros Hc Hu Hob. exists (time_time E st1).2.
  cbn [request].
  rewrite (request_step_cache_hit _ _ _ _ _ _ _ _ _ _ _ _ Hob Hc Hu).
  destruct (obtain_frame _ _ _ _ _ _ _ Hob) as (Hcache & _ & Hio & _).
  split; [done|]. split; [done|]. split; [done|].
  intros [s0 Hs0]. rewrite (obtain_pooled _ _ _ _ _ _ Hs0) in Hob.
  by injection Hob as <- <-.
Qed.

Lemma cache_hit_skips_exchange_witness :
  cache Demo.after_h !! absolute_url "http" "h" "/" = Some ("hello", Some 61)
  /\ unexpired (Some 61) (time_at Demo.world (ticks Demo.after_h))
  /\ exists st',
       request Demo.world 1 (HttpURL "http" "h" 8080 "/") 0 Demo.after_h
       = (Returns "hello", st') /\
       cache st' = cache Demo.after_h /\
       filter is_io (log st') = filter is_io (log Demo.after_h) /\
       (is_Some (open_sockets Demo.after_h !! ("h", 8080)) ->
        log st' = log Demo.after_h /\
        open_sockets st' = open_sockets Demo.after_h).
Proof.
  split; [vm_compute; reflexivity|]. split; [vm_compute; reflexivity|].
  eapply (cache_hit_skips_exchange Demo.world 0 "http" "h" 8080 "/" 0
            Demo.after_h).
  - vm_compute; reflexivity.
  - vm_compute; reflexivity.
  - vm_compute; reflexivity.
Defined.

(** C5.  A lookup returns a cached body exactly when the entry has no
    expiry or the clock reading is before it.  When the entry has expired
    ([expiry <= now]) and the connection is available, the lookup deletes
    the entry and [request] goes on to the network: the request is sent,
    and what [request] does is what the exchange with the peer does in the
    state without the entry, so the stale body is not what is returned. *)
Theorem expired_entry_refetched (E : Env) (fuel0 : nat) (u : URL)
    (scheme host : string) (port : Z) (path : string) (r : Z) (st st1 : State)
    (s : socket) (body : string) (t : Z) :
  u = HttpURL scheme host port path ->
  cache st !! absolute_url scheme host path = Some (body, Some t) ->
  t <= time_at E (ticks st) ->
  obtain E scheme host port st = (Returns s, st1) ->
  let url := absolute_url scheme host path in
  let st2 := set_cache (delete url) (time_time E st1).2 in
  (forall now st0 b,
     (cache_lookup url now st0).1 = Some b <->
     exists expiry, cache st0 !! url = Some (b, expiry) /\ unexpired expiry now)
  /\ cache_lookup url (time_at E (ticks st)) (time_time E st1).2 = (None, st2)
  /\ cache st2 !! url = None
  /\ request_step E fuel0 u r st
     = exchange E fuel0 scheme host port path s r st2
  /\ (exists l, log (request_step E fuel0 u r st).2
                = log st1 ++ Send (host, port) (frame_request host path) :: l)
  /\ (forall fuel, request E (S fuel) u r st
                   = request E (S fuel) u r (set_cache (delete url) st)).
Proof.
  intros -> Hc Hu Hob url st2.
  destruct (obtain_frame _ _ _ _ _ _ _ Hob) as (Hcache & Hticks & _).
  assert (Hstep : forall fuel,
            request_step E fuel (HttpURL scheme host port path) r st
            = exchange E fuel scheme host port path s r st2)
    by (intros fuel; exact (request_step_expired _ _ _ _ _ _ _ _ _ _ _ _ Hob Hc Hu)).
  split; [intros; apply cache_lookup_some|].
  split; [apply (cache_lookup_expired _ _ _ body t); [by cbn; rewrite Hcache | done]|].
  split; [apply lookup_delete_eq|].
  split; [apply Hstep|].
  split.
  { rewrite Hstep.
    destruct (exchange_sends E fuel0 scheme host port path s r st2) as [l Hl].
    exists l. by rewrite Hl. }
  intros fuel. cbn [request]. rewrite Hstep.
  rewrite (request_step_miss _ _ _ _ _ _ _ _ _ _
             (obtain_forget _ _ _ _ url _ _ _ Hob)).
  - done.
  - apply lookup_delete_eq.
Qed.

Lemma expired_entry_refetched_witness :
  cache Demo.after_old !! absolute_url "http" "old" "/" = Some ("first", Some 1)
  /\ 1 <= time_at Demo.world (ticks Demo.after_old)
  /\ (Demo.fetch "http://old/" Demo.after_old).1 = Returns "again"
  /\ forall fuel,
       request Demo.world (S fuel) (HttpURL "http" "old" 80 "/") 0
         Demo.after_old
       = request Demo.world (S fuel) (HttpURL "http" "old" 80 "/") 0
           (set_cache (delete (absolute_url "http" "old" "/")) Demo.after_old).
Proof.
  split; [vm_compute; reflexivity|]. split; [vm_compute; discriminate|].
  split; [vm_compute; reflexivity|].
  eapply (expired_entry_refetched Demo.world 0 _ "http" "old" 80 "/" 0
            Demo.after_old).
  - reflexivity.
  - vm_compute; reflexivity.
  - vm_compute; discriminate.
  - vm_compute; reflexivity.
Defined.

(** C6.  With [transfer-encoding: chunked] the body read from a stream of
    chunks (hexadecimal size, CRLF, payload, CRLF, ..., a last chunk of
    size 0 and its CRLF) is the concatenation of the payloads in order, and
    exactly the chunked body is consumed.  In particular chunks with size
    lines 5, 3 and 0 give a body of eight bytes. *)
Theorem chunked_body_reassembled (response_headers : gmap string string) :
  response_headers !! "transfer-encoding" = Some "chunked" ->
  (forall chunks rest,
     Forall (fun payload => payload <> "") chunks ->
     read_body response_headers (Spec.encode_chunked chunks +:+ rest)
     = (Returns (Spec.concat chunks), rest))
  /\ (forall p1 p2 rest,
        String.length p1 = 5%nat -> String.length p2 = 3%nat ->
        read_body response_headers
          ("5" +:+ CRLF +:+ p1 +:+ CRLF +:+ "3" +:+ CRLF +:+ p2 +:+ CRLF
           +:+ "0" +:+ CRLF +:+ CRLF +:+ rest)
        = (Returns (p1 +:+ p2), rest)
        /\ String.length (p1 +:+ p2) = 8%nat).
Proof.
  intros Hte. split; [intros; by apply read_body_chunked|].
  intros p1 p2 rest H1 H2. split; [|rewrite slength_app; lia].
  pose proof (read_body_chunked response_headers [p1; p2] rest Hte) as H.
  cbn [Spec.encode_chunked Spec.concat] in H. unfold Spec.encode_chunk in H.
  rewrite H1, H2, sapp_nil_r, !sapp_assoc in H.
  apply H. repeat constructor; intros ->; done.
Qed.

Lemma chunked_body_reassembled_witness :
  Demo.chunked_headers !! "transfer-encoding" = Some "chunked"
  /\ read_body Demo.chunked_headers
       ("5" +:+ CRLF +:+ "hello" +:+ CRLF +:+ "3" +:+ CRLF +:+ "abc" +:+ CRLF
        +:+ "0" +:+ CRLF +:+ CRLF +:+ "next")
     = (Returns ("hello" +:+ "abc"), "next").
Proof.
  assert (H : Demo.chunked_headers !! "transfer-encoding" = Some "chunked")
    by (vm_compute; reflexivity).
  split; [exact H|].
  apply (proj2 (chunked_body_reassembled Demo.chunked_headers H)
           "hello" "abc" "next"); reflexivity.
Defined.

(** The same through [request]: the two chunks of the demo peer. *)
Lemma chunked_page_fetched :
  (Demo.fetch "http://chunks/" initial).1 = Returns "helloabc".
Proof. vm_compute. reflexivity. Qed.

(** C7.  For [scheme://host[:port]/path] with scheme http or https and a
    host without [/] and [:], the constructor (at any depth of the stack
    that lets it be called) yields that host, the
    explicit port when there is one and 80 or 443 otherwise, and the path
    with its leading [/]; without a [/] after the host the path is [/].
    Writing host, port and path back as a URL and parsing again gives the
    same URL.  And whatever the input, the host of an http or https URL
    that the constructor builds holds no [:] and its path starts with
    [/]. *)
Theorem URL_parse_http (fuel : nat) (scheme host rest : string) :
  scheme = "http" \/ scheme = "https" ->
  Py.contains "/" host = false -> Py.contains ":" host = false ->
  URL_init (S fuel) (scheme +:+ "://" +:+ host +:+ "/" +:+ rest)
  = Returns (HttpURL scheme host (default_port scheme) ("/" +:+ rest))
  /\ URL_init (S fuel) (scheme +:+ "://" +:+ host)
     = Returns (HttpURL scheme host (default_port scheme) "/")
  /\ (forall p n,
        Py.contains "/" p = false -> Py.int 10 p = Some n ->
        URL_init (S fuel)
          (scheme +:+ "://" +:+ host +:+ ":" +:+ p +:+ "/" +:+ rest)
        = Returns (HttpURL scheme host n ("/" +:+ rest))
        /\ URL_init (S fuel) (scheme +:+ "://" +:+ host +:+ ":" +:+ p)
           = Returns (HttpURL scheme host n "/"))
  /\ (forall n,
        URL_init (S fuel)
          (Spec.serialize (HttpURL scheme host n ("/" +:+ rest)))
        = Returns (HttpURL scheme host n ("/" +:+ rest)))
  /\ (forall depth url sch h p pa,
        URL_init depth url = Returns (HttpURL sch h p pa) ->
        (sch = "http" \/ sch = "https") /\ Py.contains ":" h = false /\
        Py.contains "/" h = false /\ exists r, pa = "/" +:+ r).
Proof.
  intros Hsch Hs Hc.
  split; [by apply URL_host_path|].
  split; [by apply URL_host_only|].
  split; [intros p n Hp Hn; split;
          [by apply URL_host_port_path | by apply URL_host_port]|].
  split; [intros n; by apply URL_serialize|].
  intros depth url sch h p pa. apply URL_init_http_shape.
Qed.

Lemma URL_parse_http_witness :
  Py.contains "/" "example.org" = false
  /\ Py.contains ":" "example.org" = false
  /\ URL_init 1 "https://example.org/a/b"
     = Returns (HttpURL "https" "example.org" 443 "/a/b")
  /\ URL_init 1 "https://example.org:8080/a/b"
     = Returns (HttpURL "https" "example.org" 8080 "/a/b").
Proof.
  split; [reflexivity|]. split; [reflexivity|].
  destruct (URL_parse_http 0 "https" "example.org" "a/b")
    as (H1 & _ & H3 & _); [by right | reflexivity | reflexivity |].
  split; [exact H1|].
  exact (proj1 (H3 "8080" 8080 eq_refl eq_refl)).
Defined.

(** C8.  [decode_entities] replaces, left to right, every occurrence of
    one of the five entities of the table and keeps every other character:
    its result is the one and only text related to the input by
    [Spec.decoded].  A text in which no entity of the table occurs, for
    instance one with an unknown entity or with an ampersand that no
    semicolon follows, comes back unchanged. *)
Theorem decode_entities_table :
  (forall text, Spec.decoded text (decode_entities text))
  /\ (forall text out, Spec.decoded text out -> out = decode_entities text)
  /\ (forall text,
        (forall k v, In (k, v) ENTITIES -> Py.contains k text = false) ->
        decode_entities text = text)
  /\ decode_entities "a &lt;b&gt; c" = "a <b> c"
  /\ decode_entities "&foo" = "&foo"
  /\ decode_entities "&lt;&gt;&copy;&ndash;&amp; &bar;" = "<>©–& &bar;".
Proof.
  split; [apply decode_entities_decoded|].
  split.
  { intros text out H. symmetry.
    exact (decoded_unique _ _ (decode_entities_decoded text) _ H). }
  split.
  { intros text H.
    exact (decoded_unique _ _ (decode_entities_decoded text) _
             (decoded_no_entity text H)). }
  repeat split; reflexivity.
Qed.

Lemma decode_entities_table_witness :
  (forall k v, In (k, v) ENTITIES -> Py.contains k "x &foo; y" = false)
  /\ decode_entities "x &foo; y" = "x &foo; y".
Proof.
  assert (H : forall k v, In (k, v) ENTITIES ->
                          Py.contains k "x &foo; y" = false).
  { intros k v Hin. cbn in Hin.
    destruct Hin as [Hin|[Hin|[Hin|[Hin|[Hin|[]]]]]];
      injection Hin as <- <-; reflexivity. }
  split; [exact H|].
  exact (proj1 (proj2 (proj2 decode_entities_table)) "x &foo; y" H).
Defined.

(** C9 as written fails: the entry that a fetch of [http://h/] has left
    is of no use to a fetch of [http://h:9999/], which tries to connect to
    port 9999 before it looks at the cache and raises when the peer
    refuses. *)
Lemma cached_body_needs_connection : ~ Stated.cached_body_on_any_port.
Proof.
  intros H.
  assert (H1 : (request Demo.world 1 (HttpURL "http" "h" 9999 "/") 0
                  Demo.after_h).1 = Returns "hello").
  { apply (H Demo.world 100%nat 0%nat "http" "h" 80 9999 "/" 0 0 initial
             Demo.after_h "hello" (Some 61)).
    - by left.
    - done.
    - vm_compute; reflexivity.
    - vm_compute; reflexivity.
    - vm_compute; reflexivity. }
  vm_compute in H1. discriminate H1.
Qed.

(** C9 (amended).  The cache key is the scheme, [://], the host and the
    path; the port is no part of it.  When a request for a URL on one port
    has returned a body, and the cache then holds an unexpired entry under
    scheme, [://], host and path of that URL, the entry is this body; and
    a request for the same scheme, host and path on any port whose
    connection is pooled or can be opened returns it, sends no request
    and leaves the cache as it is. *)
Theorem cache_key_ignores_port (E : Env) (fuel1 fuel2 : nat)
    (scheme host : string) (port1 port2 : Z) (path : string) (r1 r2 : Z)
    (st0 st1 st2 : State) (s : socket) (body b : string) (expiry : option Z) :
  request E fuel1 (HttpURL scheme host port1 path) r1 st0 = (Returns body, st1) ->
  cache st1 !! (scheme +:+ "://" +:+ host +:+ path) = Some (b, expiry) ->
  unexpired expiry (time_at E (ticks st1)) ->
  obtain E scheme host port2 st1 = (Returns s, st2) ->
  b = body /\
  exists st',
    request E (S fuel2) (HttpURL scheme host port2 path) r2 st1
    = (Returns body, st') /\
    filter is_send (log st') = filter is_send (log st1) /\
    cache st' = cache st1.
Proof.
  intros Hreq Hc Hu Hob.
  assert (b = body) as ->.
  { eapply (request_cached_body E fuel1); [|exact Hreq|exact Hc]. by right. }
  split; [done|]. exists (time_time E st2).2.
  cbn [request].
  rewrite (request_step_cache_hit _ _ _ _ _ _ _ _ _ _ _ _ Hob Hc Hu).
  destruct (obtain_frame _ _ _ _ _ _ _ Hob) as (Hcache & _ & _ & _).
  split; [done|]. split; [|done]. cbn [time_time snd log].
  revert Hob. unfold obtain.
  repeat case_match; intros; simplify_eq; cbn;
    rewrite ?filter_app; cbn; by rewrite ?app_nil_r.
Qed.

Lemma cache_key_ignores_port_witness :
  request Demo.world 100 (HttpURL "http" "h" 80 "/") 0 initial
  = (Returns "hello", Demo.after_h)
  /\ cache Demo.after_h !! "http://h/" = Some ("hello", Some 61)
  /\ unexpired (Some 61) (time_at Demo.world (ticks Demo.after_h))
  /\ exists st',
       request Demo.world 1 (HttpURL "http" "h" 8080 "/") 0 Demo.after_h
       = (Returns "hello", st') /\
       filter is_send (log st') = filter is_send (log Demo.after_h) /\
       cache st' = cache Demo.after_h.
Proof.
  split; [vm_compute; reflexivity|]. split; [vm_compute; reflexivity|].
  split; [vm_compute; reflexivity|].
  refine (proj2 (cache_key_ignores_port Demo.world 100 0 "http" "h" 80 8080
                   "/" 0 0 initial Demo.after_h _ _ "hello" "hello" (Some 61)
                   _ _ _ _)).
  - vm_compute; reflexivity.
  - vm_compute; reflexivity.
  - vm_compute; reflexivity.
  - vm_compute; reflexivity.
Defined.

(** C10.  A file URL returns the text of the file (or raises when it
    cannot be read) and a data URL returns its inline data; in both cases
    the state of the process (pool, cache, clock readings, network log) is
    exactly what it was. *)
Theorem file_and_data_leave_state (E : Env) (fuel : nat) (r : Z) (st : State) :
  (forall path,
     request E (S fuel) (FileURL path) r st
     = (of_option FileNotFoundError (files E path), st))
  /\ (forall MIME_type data,
        request E (S fuel) (DataURL MIME_type data) r st = (Returns data, st))
  /\ (forall path text,
        files E path = Some text ->
        request E (S fuel) (FileURL path) r st = (Returns text, st)).
Proof.
  split; [done|]. split; [done|].
  intros path text H. cbn. by rewrite H.
Qed.

Lemma file_and_data_leave_state_witness :
  files Demo.world "/tmp/a.txt" = Some "text"
  /\ request Demo.world 1 (FileURL "/tmp/a.txt") 0 Demo.after_h
     = (Returns "text", Demo.after_h)
  /\ Demo.fetch "data:text/html,Hello" Demo.after_h
     = (Returns "Hello", Demo.after_h)
  /\ Demo.fetch "file:///tmp/a.txt" Demo.after_h
     = (Returns "text", Demo.after_h).
Proof.
  split; [reflexivity|]. split.
  - exact (proj2 (proj2 (file_and_data_leave_state Demo.world 0 0 Demo.after_h))
             "/tmp/a.txt" "text" eq_refl).
  - split; vm_compute; reflexivity.
Defined.

End Claims.

(** * Further properties of the two files *)

Section Tags.

Lemma for_chars_app {S : Type} (f : S -> ascii -> S) (a b : string) (st : S) :
  for_chars f (a +:+ b) st = for_chars f b (for_chars f a st).
Proof. revert st; induction a as [|c a IH]; intros st; cbn; [done | apply IH]. Qed.

(** The text collected so far is only ever extended. *)
Lemma tag_loop_acc (body acc : string) (in_tag : bool) :
  for_chars tag_step body (acc, in_tag)
  = (acc +:+ (for_chars tag_step body ("", in_tag)).1,
     (for_chars tag_step body ("", in_tag)).2).
Proof.
  revert acc in_tag. induction body as [|c body IH]; intros acc in_tag.
  - cbn. by rewrite sapp_nil_r.
  - cbn [for_chars tag_step].
    destruct (Ascii.eqb c "<"); [apply IH|].
    destruct (Ascii.eqb c ">"); [apply IH|].
    destruct in_tag; cbn [negb]; [apply IH|].
    rewrite IH, (IH (String c "")). cbn [fst snd]. by rewrite sapp_assoc.
Qed.

Lemma tag_loop_no_brackets (body : string) (in_tag : bool) :
  Py.contains "<" (for_chars tag_step body ("", in_tag)).1 = false /\
  Py.contains ">" (for_chars tag_step body ("", in_tag)).1 = false.
Proof.
  revert in_tag. induction body as [|c body IH]; intros in_tag; [done|].
  cbn [for_chars tag_step].
  destruct (Ascii.eqb c "<") eqn:Hlt; [apply IH|].
  destruct (Ascii.eqb c ">") eqn:Hgt; [apply IH|].
  destruct in_tag; cbn [negb]; [apply IH|].
  rewrite tag_loop_acc. cbn [fst String.append].
  rewrite !contains_char, (Ascii.eqb_sym "<"), (Ascii.eqb_sym ">"), Hlt, Hgt.
  apply IH.
Qed.

Lemma tag_loop_plain (body : string) :
  Py.contains "<" body = false -> Py.contains ">" body = false ->
  for_chars tag_step body ("", false) = (body, false).
Proof.
  induction body as [|c body IH]; [done|].
  rewrite !contains_char. intros [Hlt H1]%orb_false_elim [Hgt H2]%orb_false_elim.
  cbn [for_chars tag_step]. rewrite Ascii.eqb_sym, Hlt, Ascii.eqb_sym, Hgt.
  cbn [negb]. rewrite tag_loop_acc, (IH H1 H2). done.
Qed.

Lemma tag_loop_inside (t : string) (acc : string) (in_tag : bool) :
  Py.contains ">" t = false ->
  for_chars tag_step ("<" +:+ t +:+ ">") (acc, in_tag) = (acc, false).
Proof.
  intros Ht. cbn [String.append for_chars tag_step Ascii.eqb Bool.eqb].
  clear in_tag. induction t as [|c t IH].
  - reflexivity.
  - rewrite contains_char in Ht. apply orb_false_elim in Ht as [Hc Ht].
    rewrite sapp_cons. cbn [for_chars tag_step].
    destruct (Ascii.eqb c "<"); [by apply IH|].
    rewrite Ascii.eqb_sym, Hc. cbn [negb]. by apply IH.
Qed.

(** X1.  What [show] and [lex] keep of a text.  The result never holds an
    angle bracket; a text without angle brackets is kept as it is; and
    where the text before a tag has its own tags closed, the tag (anything
    between [<] and the next [>]) goes and the two sides are filtered on
    their own. *)
Theorem strip_tags_removes_tags :
  (forall body,
     Py.contains "<" (strip_tags body) = false /\
     Py.contains ">" (strip_tags body) = false)
  /\ (forall body,
        Py.contains "<" body = false -> Py.contains ">" body = false ->
        strip_tags body = body)
  /\ (forall a t b,
        (for_chars tag_step a ("", false)).2 = false ->
        Py.contains ">" t = false ->
        strip_tags (a +:+ "<" +:+ t +:+ ">" +:+ b)
        = strip_tags a +:+ strip_tags b)
  /\ (forall body, Browser.lex body = strip_tags body).
Proof.
  split; [intros; apply tag_loop_no_brackets|].
  split; [intros body H1 H2; unfold strip_tags; by rewrite tag_loop_plain|].
  split; [|done].
  intros a t b Ha Ht. unfold strip_tags.
  rewrite for_chars_app.
  destruct (for_chars tag_step a ("", false)) as [ta fa] eqn:Hfa.
  cbn [snd] in Ha. subst fa.
  replace ("<" +:+ t +:+ ">" +:+ b) with (("<" +:+ t +:+ ">") +:+ b)
    by (cbn; by rewrite sapp_assoc).
  rewrite for_chars_app, tag_loop_inside by done.
  by rewrite tag_loop_acc.
Qed.

Lemma strip_tags_removes_tags_witness :
  (for_chars tag_step "a<i>b</i> " ("", false)).2 = false
  /\ Py.contains ">" "p class=x" = false
  /\ strip_tags ("a<i>b</i> " +:+ "<" +:+ "p class=x" +:+ ">" +:+ "c")
     = strip_tags "a<i>b</i> " +:+ strip_tags "c".
Proof.
  split; [reflexivity|]. split; [reflexivity|].
  exact (proj1 (proj2 (proj2 strip_tags_removes_tags))
           "a<i>b</i> " "p class=x" "c" eq_refl eq_refl).
Defined.

End Tags.

Section EntitiesMore.

Lemma entity_shorter (k v : string) :
  In (k, v) ENTITIES -> (String.length v <= String.length k)%nat.
Proof.
  cbn. intros [H|[H|[H|[H|[H|[]]]]]]; injection H as <- <-; cbn; lia.
Qed.

Lemma decoded_length (s o : string) :
  Spec.decoded s o -> (String.length o <= String.length s)%nat.
Proof.
  induction 1 as [|k v rest out Hat _ IH|c rest out _ _ IH]; cbn; [lia| |lia].
  rewrite !slength_app.
  unfold Spec.entity_at in Hat. apply find_some in Hat as [Hin _].
  apply entity_shorter in Hin. lia.
Qed.

Lemma contains_first_char (c : ascii) (k s : string) :
  Py.contains (String c k) s = true -> Py.contains (String c "") s = true.
Proof.
  induction s as [|x s IH]; [done|].
  cbn [Py.contains Py.startswith]. rewrite andb_true_r.
  intros [[-> _]%andb_prop|H]%orb_prop; [done|].
  rewrite (IH H). apply orb_true_r.
Qed.

Lemma no_ampersand_no_entity (text : string) :
  Py.contains "&" text = false ->
  forall k v, In (k, v) ENTITIES -> Py.contains k text = false.
Proof.
  intros Hno k v Hin.
  destruct (Py.contains k text) eqn:Hk; [|done].
  cbn in Hin. destruct Hin as [H|[H|[H|[H|[H|[]]]]]]; injection H as <- <-;
    apply contains_first_char in Hk; congruence.
Qed.

(** X2.  [decode_entities] never makes a text longer (counted in bytes of
    UTF-8), and leaves a text without an ampersand as it is; so [show]
    prints a body without angle brackets and ampersands unchanged. *)
Theorem decode_entities_never_longer :
  (forall text,
     (String.length (decode_entities text) <= String.length text)%nat)
  /\ (forall text,
        Py.contains "&" text = false -> decode_entities text = text)
  /\ (forall body,
        Py.contains "<" body = false -> Py.contains ">" body = false ->
        Py.contains "&" body = false -> show body = body).
Proof.
  assert (Hplain : forall text,
            Py.contains "&" text = false -> decode_entities text = text).
  { intros text H.
    exact (decoded_unique _ _ (decode_entities_decoded text) _
             (decoded_no_entity text (no_ampersand_no_entity text H))). }
  split; [intros; apply decoded_length, decode_entities_decoded|].
  split; [exact Hplain|].
  intros body H1 H2 H3. unfold show.
  unfold strip_tags. rewrite tag_loop_plain by done. by apply Hplain.
Qed.

End EntitiesMore.

Section URLMore.

Lemma split1_none (c : ascii) (s : string) :
  Py.contains (String c "") s = false -> Py.split c 1 s = [s].
Proof.
  induction s as [|x s IH]; [done|].
  rewrite contains_char. intros [Hx Hs]%orb_false_elim.
  cbn [Py.split]. by rewrite Ascii.eqb_sym, Hx, (IH Hs).
Qed.

(** The constructor raises nothing but the two exceptions of lines 14-45
    and, when the stack is used up, [RecursionError]. *)
Lemma URL_init_errors (fuel : nat) :
  forall (url : string) (e : exn),
    URL_init fuel url = Raises e ->
    e = ValueError \/ e = AssertionError "Unsupported scheme" \/
    e = RecursionError.
Proof.
  induction fuel as [|fuel IH]; intros url e; [intros [= <-]; auto|].
  cbn [URL_init].
  destruct (Py.split ":" 1 url) as [|sch [|body [|? ?]]] eqn:Hu;
    cbn beta iota delta [Py.unpack2 obind]; try (intros [= <-]; by left).
  cbv zeta.
  generalize (if Py.startswith "//" body then Py.drop 2 body else body).
  intros b0.
  generalize (if negb (Py.contains "/" b0) then b0 +:+ "/" else b0).
  intros b1.
  destruct (negb (str_in sch schemes)); [intros [= <-]; auto|].
  destruct (String.eqb sch "data").
  { destruct (Py.split "," 1 body) as [|? [|? [|? ?]]]; cbn;
      intros [= <-]; by left. }
  destruct (String.eqb sch "view-source").
  { destruct (URL_init fuel body) eqn:Hin; cbn; [done|].
    intros [= <-]. eapply IH. exact Hin. }
  destruct (String.eqb sch "file"); [done|].
  destruct (Py.split "/" 1 b1) as [|h [|pa [|? ?]]]; cbn;
    try (intros [= <-]; by left).
  destruct (Py.contains ":" h); [|done].
  destruct (Py.split ":" 1 h) as [|? [|p1 [|? ?]]]; cbn;
    try (intros [= <-]; by left).
  destruct (Py.int 10 p1); cbn; [done | intros [= <-]; by left].
Qed.

Lemma URL_init_view_source (fuel : nat) (s : string) :
  URL_init (S fuel) ("view-source:" +:+ s)
  = obind (URL_init fuel s) (fun u => Returns (ViewSourceURL u)).
Proof.
  cbn [URL_init].
  change ("view-source:" +:+ s) with ("view-source" +:+ String ":" s).
  rewrite split1_app by reflexivity.
  cbn beta iota delta [Py.unpack2 obind].
  change (negb (str_in "view-source" schemes)) with false.
  change (String.eqb "view-source" "data") with false.
  change (String.eqb "view-source" "view-source") with true.
  cbn iota. done.
Qed.

(** The stack is used up exactly by a string that starts with as many
    [view-source:] as there are calls left. *)
Lemma URL_init_wrapped (fuel : nat) (rest : string) :
  URL_init fuel (wrapped fuel rest) = Raises RecursionError.
Proof.
  induction fuel as [|fuel IH]; [done|].
  cbn [wrapped]. by rewrite URL_init_view_source, IH.
Qed.

Lemma URL_init_recursion (fuel : nat) :
  forall url : string,
    URL_init fuel url = Raises RecursionError ->
    exists rest, url = wrapped fuel rest.
Proof.
  induction fuel as [|fuel IH]; intros url; [by exists url|].
  cbn [URL_init].
  destruct (Py.split ":" 1 url) as [|sch [|body [|? ?]]] eqn:Hu;
    cbn beta iota delta [Py.unpack2 obind]; try done.
  apply split1_inv in Hu as [_ ->].
  cbv zeta.
  generalize (if Py.startswith "//" body then Py.drop 2 body else body).
  intros b0.
  generalize (if negb (Py.contains "/" b0) then b0 +:+ "/" else b0).
  intros b1.
  destruct (negb (str_in sch schemes)); [done|].
  destruct (String.eqb sch "data").
  { destruct (Py.split "," 1 body) as [|? [|? [|? ?]]]; cbn; done. }
  destruct (String.eqb_spec sch "view-source") as [->|_].
  { destruct (URL_init fuel body) eqn:Hin; cbn; [done|].
    intros [= ->]. destruct (IH body Hin) as [rest ->].
    by exists rest. }
  destruct (String.eqb sch "file"); [done|].
  destruct (Py.split "/" 1 b1) as [|h [|pa [|? ?]]]; cbn; try done.
  destruct (Py.contains ":" h); [|done].
  destruct (Py.split ":" 1 h) as [|? [|p1 [|? ?]]]; cbn; try done.
  destruct (Py.int 10 p1); cbn; done.
Qed.

(** X3.  How the constructor fails.  Whatever the string and the depth of
    the stack, it raises nothing but [ValueError] (no colon, a data URL
    without comma, a port that is no integer), the assertion on the scheme
    and [RecursionError]; the last one exactly for the strings that start
    with as many [view-source:] as there are calls left on the stack.
    With room for the call, a string without a colon is a [ValueError] and
    a scheme outside the five is the assertion. *)
Theorem URL_init_failures (fuel : nat) :
  (forall url e,
     URL_init fuel url = Raises e ->
     e = ValueError \/ e = AssertionError "Unsupported scheme" \/
     e = RecursionError)
  /\ (forall url,
        URL_init fuel url = Raises RecursionError <->
        exists rest, url = wrapped fuel rest)
  /\ (forall url,
        Py.contains ":" url = false ->
        URL_init (S fuel) url = Raises ValueError)
  /\ (forall scheme rest,
        Py.contains ":" scheme = false -> str_in scheme schemes = false ->
        URL_init (S fuel) (scheme +:+ ":" +:+ rest)
        = Raises (AssertionError "Unsupported scheme")).
Proof.
  split; [apply URL_init_errors|].
  split.
  { intros url. split; [apply URL_init_recursion|].
    intros [rest ->]. apply URL_init_wrapped. }
  split.
  - intros url H. cbn [URL_init]. by rewrite split1_none.
  - intros scheme rest Hs Hin. cbn [URL_init].
    change (":" +:+ rest) with (String ":" rest).
    rewrite split1_app by done. cbn beta iota delta [Py.unpack2 obind].
    by rewrite Hin.
Qed.

Lemma URL_init_failures_witness :
  Py.contains ":" "ftp" = false /\ str_in "ftp" schemes = false
  /\ URL_init 1 ("ftp" +:+ ":" +:+ "//example.org/")
     = Raises (AssertionError "Unsupported scheme")
  /\ URL_init 2 "view-source:view-source:http://example.org/"
     = Raises RecursionError
  /\ URL_init 3 "view-source:view-source:http://example.org/"
     = Returns (ViewSourceURL (ViewSourceURL
                  (HttpURL "http" "example.org" 80 "/"))).
Proof.
  split; [reflexivity|]. split; [reflexivity|].
  split.
  { exact (proj2 (proj2 (proj2 (URL_init_failures 0)))
             "ftp" "//example.org/" eq_refl eq_refl). }
  split; [|reflexivity].
  apply (proj1 (proj2 (URL_init_failures 2))).
  by exists "http://example.org/".
Defined.

Lemma URL_init_file (fuel : nat) (path : string) :
  URL_init (S fuel) ("file://" +:+ path) = Returns (FileURL path).
Proof.
  cbn [URL_init].
  change ("file://" +:+ path) with ("file" +:+ String ":" ("//" +:+ path)).
  rewrite split1_app by reflexivity.
  cbn beta iota delta [Py.unpack2 obind].
  change (negb (str_in "file" schemes)) with false.
  change (String.eqb "file" "data") with false.
  change (String.eqb "file" "view-source") with false.
  change (String.eqb "file" "file") with true.
  cbn iota zeta.
  change (Py.startswith "//" ("//" +:+ path)) with true.
  cbn iota. by destruct path.
Qed.

Lemma URL_init_data_parts (fuel : nat) (body : string) :
  URL_init (S fuel) ("data:" +:+ body)
  = obind (Py.unpack2 (Py.split "," 1 body))
      (fun '(MIME_type, data) => Returns (DataURL MIME_type data)).
Proof.
  cbn [URL_init].
  change ("data:" +:+ body) with ("data" +:+ String ":" body).
  rewrite split1_app by reflexivity.
  cbn beta iota delta [Py.unpack2 obind].
  change (negb (str_in "data" schemes)) with false.
  change (String.eqb "data" "data") with true.
  cbn iota. done.
Qed.

Lemma URL_init_data (fuel : nat) (MIME_type data : string) :
  Py.contains "," MIME_type = false ->
  URL_init (S fuel) ("data:" +:+ MIME_type +:+ "," +:+ data)
  = Returns (DataURL MIME_type data).
Proof.
  intros H. rewrite URL_init_data_parts.
  change ("," +:+ data) with (String "," data).
  by rewrite split1_app.
Qed.

(** X4.  The other schemes, with room on the stack for the call.
    [file://path] is the file URL of [path], for any path;
    [data:mime,data] is the data URL of the two parts when the MIME type
    holds no comma, and everything after that comma is the data; writing
    such a URL back and parsing it again gives the same URL; a data URL
    without comma is a [ValueError]; and [view-source:] in front of a
    string wraps what the string parses to one call deeper, or fails as
    it does there. *)
Theorem URL_init_other_schemes (fuel : nat) (MIME_type data : string) :
  Py.contains "," MIME_type = false ->
  URL_init (S fuel) ("data:" +:+ MIME_type +:+ "," +:+ data)
  = Returns (DataURL MIME_type data)
  /\ URL_init (S fuel) (Spec.serialize (DataURL MIME_type data))
     = Returns (DataURL MIME_type data)
  /\ URL_init (S fuel) ("data:" +:+ MIME_type) = Raises ValueError
  /\ (forall path,
        URL_init (S fuel) ("file://" +:+ path) = Returns (FileURL path) /\
        URL_init (S fuel) (Spec.serialize (FileURL path))
        = Returns (FileURL path))
  /\ (forall s,
        URL_init (S fuel) ("view-source:" +:+ s)
        = obind (URL_init fuel s) (fun u => Returns (ViewSourceURL u))).
Proof.
  intros H.
  split; [by apply URL_init_data|]. split; [by apply URL_init_data|].
  split; [rewrite URL_init_data_parts; by rewrite split1_none|].
  split; [intros path; split; apply URL_init_file | apply URL_init_view_source].
Qed.

Lemma URL_init_other_schemes_witness :
  Py.contains "," "text/html" = false
  /\ URL_init 1 ("data:" +:+ "text/html" +:+ "," +:+ "a, b: c")
     = Returns (DataURL "text/html" "a, b: c").
Proof.
  split; [reflexivity|].
  exact (proj1 (URL_init_other_schemes 0 "text/html" "a, b: c" eq_refl)).
Defined.

(** X5.  Where a redirect goes.  A Location with [://] is taken as it is.
    Otherwise the target keeps scheme and host of the current URL and
    takes the port that the scheme implies, whatever the current port: a
    Location that starts with [/] is the new path, any other is appended to
    the current path, after a [/] when that path does not end with one. *)
Theorem redirect_target (fuel : nat) (scheme host path location : string) :
  scheme = "http" \/ scheme = "https" ->
  Py.contains "/" host = false -> Py.contains ":" host = false ->
  Py.startswith "/" path = true ->
  Py.contains "://" location = false ->
  URL_init (S fuel) (resolve_location scheme host path location)
  = Returns
      (HttpURL scheme host (default_port scheme)
         (if Py.startswith "/" location then location
          else if Py.endswith "/" path then path +:+ location
          else path +:+ "/" +:+ location))
  /\ (forall absolute,
        Py.contains "://" absolute = true ->
        resolve_location scheme host path absolute = absolute).
Proof.
  intros Hsch Hs Hc Hp Hl. split.
  2: { intros a Ha. unfold resolve_location. by rewrite Ha. }
  unfold resolve_location. rewrite Hl. cbn [negb].
  destruct path as [|c0 p]; [done|]. cbn [Py.startswith] in Hp.
  apply andb_prop in Hp as [Hc0 _]. apply Ascii.eqb_eq in Hc0 as <-.
  destruct (Py.startswith "/" location) eqn:Hloc.
  - destruct location as [|c1 l]; [done|]. cbn [Py.startswith] in Hloc.
    apply andb_prop in Hloc as [Hc1 _]. apply Ascii.eqb_eq in Hc1 as <-.
    exact (URL_host_path fuel scheme host l Hsch Hs Hc).
  - destruct (Py.endswith "/" (String "/" p)).
    + exact (URL_host_path fuel scheme host (p +:+ location) Hsch Hs Hc).
    + exact (URL_host_path fuel scheme host (p +:+ "/" +:+ location) Hsch Hs Hc).
Qed.

Lemma redirect_target_witness :
  Py.contains "/" "example.org" = false
  /\ Py.contains ":" "example.org" = false
  /\ Py.startswith "/" "/a/b" = true
  /\ Py.contains "://" "c.html" = false
  /\ URL_init 1 (resolve_location "https" "example.org" "/a/b" "c.html")
     = Returns (HttpURL "https" "example.org" 443 "/a/b/c.html").
Proof.
  repeat (split; [reflexivity|]).
  exact (proj1 (redirect_target 0 "https" "example.org" "/a/b" "c.html"
                  (or_intror eq_refl) eq_refl eq_refl eq_refl eq_refl)).
Defined.

End URLMore.

Section Load.

Variable E : Env.

(** X6.  Loading a data URL.  The inline data is printed with its tags
    removed and its entities decoded; behind [view-source:] it is printed
    as it is; the state of the process does not change in either case. *)
Theorem load_data_url (fuel : nat) (MIME_type data : string) (st : State) :
  Py.contains "," MIME_type = false ->
  browse E (S fuel) ("data:" +:+ MIME_type +:+ "," +:+ data) st
  = (Returns (decode_entities (strip_tags data)), st)
  /\ browse E (S (S fuel))
       ("view-source:" +:+ "data:" +:+ MIME_type +:+ "," +:+ data) st
     = (Returns data, st).
Proof.
  intros H. unfold browse. split.
  - by rewrite URL_init_data.
  - rewrite URL_init_view_source, URL_init_data by done. done.
Qed.

End Load.

Lemma load_data_url_witness :
  Py.contains "," "text/html" = false
  /\ browse Demo.world 1
       ("data:" +:+ "text/html" +:+ "," +:+ "<b>1 &lt; 2</b>") initial
     = (Returns "1 < 2", initial).
Proof.
  split; [reflexivity|].
  exact (proj1 (load_data_url Demo.world 0 "text/html" "<b>1 &lt; 2</b>"
                  initial eq_refl)).
Defined.

Section Pool.

Variable E : Env.

Lemma connects_app (k : string * Z) (l1 l2 : list event) :
  connects k (l1 ++ l2) = (connects k l1 + connects k l2)%nat.
Proof. unfold connects. by rewrite filter_app, length_app. Qed.

Lemma connects_other (k : string * Z) (ev : event) :
  is_connect_to k ev = false -> connects k [ev] = 0%nat.
Proof.
  intros H. unfold connects. rewrite filter_cons_False; [done|].
  by apply Is_true_false.
Qed.

(** What [obtain] leaves of a pool entry and of the log. *)
Lemma obtain_keeps (scheme host : string) (port : Z) (st st' : State)
    (o : outcome socket) (k : string * Z) :
  obtain E scheme host port st = (o, st') ->
  is_Some (open_sockets st !! k) ->
  is_Some (open_sockets st' !! k) /\
  connects k (log st') = connects k (log st).
Proof.
  unfold obtain. intros Hob Hk.
  destruct (open_sockets st !! (host, port)) as [s|] eqn:Hs;
    [by injection Hob as <- <-|].
  assert (Hne : (host, port) <> k) by (intros <-; rewrite Hs in Hk; by destruct Hk).
  assert (Hc : is_connect_to k (Connect (host, port)) = false).
  { cbn. by apply bool_decide_eq_false_2. }
  destruct (remote E (host, port)) as [stream|];
    [destruct (String.eqb scheme "https");
     [destruct (tls_ok E (host, port))|]|];
    injection Hob as <- <-; cbn [open_sockets log emit set_sockets];
    rewrite ?lookup_insert_ne by done; (split; [done|]);
    rewrite ?connects_app, ?(connects_other k (Connect (host, port))),
      ?(connects_other k (Handshake (host, port))) by done; lia.
Qed.

Lemma obtain_pools (scheme host : string) (port : Z) (st st' : State)
    (s : socket) :
  obtain E scheme host port st = (Returns s, st') ->
  open_sockets st' !! (host, port) = Some s.
Proof.
  unfold obtain.
  destruct (open_sockets st !! (host, port)) as [s0|] eqn:Hs;
    [by intros [= <- <-]|].
  destruct (remote E (host, port)) as [stream|]; [|done].
  destruct (String.eqb scheme "https");
    [destruct (tls_ok E (host, port)); [|done]|];
    intros [= <- <-]; cbn; apply lookup_insert_eq.
Qed.

Lemma insert_keeps (m : gmap (string * Z) socket) (j k : string * Z)
    (x : socket) :
  is_Some (m !! k) -> is_Some (<[j := x]> m !! k).
Proof.
  intros H. destruct (decide (j = k)) as [->|Hne].
  - rewrite lookup_insert_eq. eauto.
  - by rewrite lookup_insert_ne.
Qed.

Lemma cache_lookup_keeps (url : string) (now : Z) (st st' : State)
    (o : option string) :
  cache_lookup url now st = (o, st') ->
  open_sockets st' = open_sockets st /\ log st' = log st /\
  ticks st' = ticks st.
Proof.
  unfold cache_lookup. repeat case_match; intros; simplify_eq; done.
Qed.

Lemma respond_keeps (fuel : nat) (scheme host : string) (port : Z)
    (path : string) (s : socket) (r : Z) (st : State) (k : string * Z) :
  is_Some (open_sockets st !! k) ->
  is_Some (open_sockets (respond E fuel scheme host port path s r st).2 !! k) /\
  connects k (log (respond E fuel scheme host port path s r st).2)
  = connects k (log st).
Proof.
  intros Hk. unfold respond, send, recv, raising, Bytes.encode.
  repeat case_match; simplify_eq; cache_store_facts;
    cbn [fst snd open_sockets log emit set_sockets];
    rewrite ?connects_app, ?connects_other by done;
    (split; [eauto using insert_keeps | lia]).
Qed.

Lemma exchange_keeps (fuel : nat) (scheme host : string) (port : Z)
    (path : string) (s : socket) (r : Z) (st : State) (k : string * Z) :
  is_Some (open_sockets st !! k) ->
  is_Some (open_sockets (exchange E fuel scheme host port path s r st).2 !! k) /\
  connects k (log (exchange E fuel scheme host port path s r st).2)
  = connects k (log st).
Proof.
  intros Hk. rewrite exchange_unfold. cbn [snd].
  destruct (respond_keeps fuel scheme host port path s r st k Hk) as [H1 H2].
  destruct (release_frame E (host, port)
              (respond E fuel scheme host port path s r st).2)
    as (-> & _ & _ & _ & Hkeep).
  split; [by apply Hkeep | done].
Qed.

Lemma request_step_keeps (fuel : nat) (u : URL) (r : Z) (st : State)
    (k : string * Z) :
  is_Some (open_sockets st !! k) ->
  is_Some (open_sockets (request_step E fuel u r st).2 !! k) /\
  connects k (log (request_step E fuel u r st).2) = connects k (log st).
Proof.
  intros Hk. destruct u as [m d|u|p|scheme host port path]; cbn; try done.
  destruct (obtain E scheme host port st) as [[s|e] st1] eqn:Hob;
    destruct (obtain_keeps _ _ _ _ _ _ k Hob Hk) as [Hk1 Hc1]; [|done].
  unfold time_time.
  destruct (cache_lookup _ _ _) as [[body|] st2] eqn:Hl;
    apply cache_lookup_keeps in Hl as (Hs2 & Hl2 & _); cbn in Hs2, Hl2.
  - cbn. by rewrite Hs2, Hl2.
  - destruct (exchange_keeps fuel scheme host port path s r st2 k) as [? ?].
    { by rewrite Hs2. }
    split; [done|]. congruence.
Qed.

(** X7.  A pooled connection stays pooled and is never opened again: during
    a whole [request], redirects included, no connection is attempted to a
    peer whose socket is in the pool, and the entry is still there at the
    end. *)
Theorem pooled_connection_never_reopened (fuel : nat) (u : URL) (r : Z)
    (st : State) (k : string * Z) :
  is_Some (open_sockets st !! k) ->
  is_Some (open_sockets (request E fuel u r st).2 !! k) /\
  connects k (log (request E fuel u r st).2) = connects k (log st).
Proof.
  revert u r st. induction fuel as [|fuel IH]; intros u r st Hk; [done|].
  cbn [request].
  destruct (request_step_keeps fuel u r st k Hk) as [Hk1 Hc1].
  destruct (request_step E fuel u r st) as [[o|u' r'] st1]; cbn in *; [done|].
  destruct (IH u' r' st1 Hk1) as [? ?]. split; [done | congruence].
Qed.

End Pool.

Lemma pooled_connection_never_reopened_witness :
  is_Some (open_sockets Demo.after_h !! ("h", 80))
  /\ connects ("h", 80)
       (log (request Demo.world 5 (HttpURL "http" "h" 80 "/x") 0
               Demo.after_h).2)
     = connects ("h", 80) (log Demo.after_h).
Proof.
  assert (H : is_Some (open_sockets Demo.after_h !! ("h", 80)))
    by (vm_compute; eauto).
  split; [exact H|].
  exact (proj2 (pooled_connection_never_reopened Demo.world 5
                  (HttpURL "http" "h" 80 "/x") 0 Demo.after_h ("h", 80) H)).
Defined.

Section CacheMore.

Variable E : Env.

(** X8.  A request reads and writes the cache under the key of its own URL
    only: one activation of [request] leaves every other cache entry as it
    was, and a file, data or view-source URL leaves them all. *)
Theorem request_step_cache_frame (fuel : nat) (u : URL) (r : Z) (st : State)
    (k : string) :
  cache_key u <> Some k ->
  cache (request_step E fuel u r st).2 !! k = cache st !! k.
Proof.
  intros Hk. destruct u as [m d|u|p|scheme host port path]; cbn; try done.
  assert (Hne : k <> absolute_url scheme host path) by (cbn in Hk; congruence).
  destruct (obtain E scheme host port st) as [[s|e] st1] eqn:Hob;
    destruct (obtain_frame _ _ _ _ _ _ _ Hob) as (Hc1 & _); cbn;
    [|by rewrite Hc1].
  destruct (cache_lookup _ _ _) as [[body|] st2] eqn:Hl;
    destruct (cache_lookup_cache _ _ _ _ _ k Hl) as (Hother & _);
    cbn in Hother.
  - cbn. by rewrite Hother, Hc1.
  - by rewrite exchange_cache_other, Hother, Hc1.
Qed.

(** X9.  Fetching the same URL again.  When one activation of [request] on
    an http or https URL has returned a body and the cache holds an entry
    for the URL that is unexpired at the next clock reading, that entry is
    this body and the next [request] for the URL returns it with no
    network activity at all: pool, cache and log stay as they are and only
    the count of clock readings grows. *)
Theorem second_fetch_from_cache (fuel0 fuel : nat) (scheme host : string)
    (port : Z) (path : string) (r r' : Z) (st st1 : State) (body b : string)
    (expiry : option Z) :
  request_step E fuel0 (HttpURL scheme host port path) r st
  = (Final (Returns body), st1) ->
  cache st1 !! absolute_url scheme host path = Some (b, expiry) ->
  unexpired expiry (time_at E (ticks st1)) ->
  b = body /\
  request E (S fuel) (HttpURL scheme host port path) r' st1
  = (Returns body, (time_time E st1).2) /\
  open_sockets (time_time E st1).2 = open_sockets st1 /\
  cache (time_time E st1).2 = cache st1 /\
  log (time_time E st1).2 = log st1.
Proof.
  intros Hstep Hc Hu.
  assert (Hpool : is_Some (open_sockets st1 !! (host, port)) /\ b = body).
  { revert Hstep Hc. cbn [request_step].
    destruct (obtain E scheme host port st) as [[s|e] st0] eqn:Hob; [|done].
    pose proof (obtain_pools _ _ _ _ _ _ _ Hob) as Hs.
    unfold time_time.
    destruct (cache_lookup _ _ _) as [[body0|] st2] eqn:Hl.
    - destruct (cache_lookup_cache _ _ _ _ _ "" Hl) as (_ & _ & Hhit).
      destruct (Hhit body0 eq_refl) as (-> & e & He). cbn in He.
      intros [= <- <-] Hc. cbn in Hc. split; [cbn; eauto | congruence].
    - destruct (cache_lookup_cache _ _ _ _ _ "" Hl) as (_ & Hmiss & _).
      apply cache_lookup_keeps in Hl as (Hs2 & _). cbn in Hs2.
      intros Hex Hc.
      destruct (exchange_keeps E fuel0 scheme host port path s r st2
                  (host, port)) as [Hk _]; [rewrite Hs2; eauto|].
      rewrite Hex in Hk. split; [exact Hk|].
      eapply (exchange_cache_own E fuel0 scheme host port path s r st2);
        [by apply Hmiss | by rewrite Hex | by rewrite Hex]. }
  destruct Hpool as [[s Hs] ->]. split; [done|].
  split; [|done].
  cbn [request].
  by rewrite (request_step_cache_hit E _ _ _ _ _ _ _ _ _ _ _
                (obtain_pooled E scheme host port st1 s Hs) Hc Hu).
Qed.

End CacheMore.

Lemma request_step_cache_frame_witness :
  cache_key (HttpURL "http" "old" 80 "/") <> Some "http://h/"
  /\ cache (request_step Demo.world 1 (HttpURL "http" "old" 80 "/") 0
              Demo.after_h).2 !! "http://h/"
     = cache Demo.after_h !! "http://h/".
Proof.
  assert (H : cache_key (HttpURL "http" "old" 80 "/") <> Some "http://h/")
    by (vm_compute; discriminate).
  split; [exact H|].
  exact (request_step_cache_frame Demo.world 1 (HttpURL "http" "old" 80 "/") 0
           Demo.after_h "http://h/" H).
Defined.

Lemma second_fetch_from_cache_witness :
  request_step Demo.world 1 (HttpURL "http" "h" 80 "/") 0 initial
  = (Final (Returns "hello"), Demo.after_h)
  /\ cache Demo.after_h !! absolute_url "http" "h" "/"
     = Some ("hello", Some 61)
  /\ unexpired (Some 61) (time_at Demo.world (ticks Demo.after_h))
  /\ request Demo.world 1 (HttpURL "http" "h" 80 "/") 0 Demo.after_h
     = (Returns "hello", (time_time Demo.world Demo.after_h).2).
Proof.
  assert (H1 : request_step Demo.world 1 (HttpURL "http" "h" 80 "/") 0 initial
               = (Final (Returns "hello"), Demo.after_h))
    by (vm_compute; reflexivity).
  assert (H2 : cache Demo.after_h !! absolute_url "http" "h" "/"
               = Some ("hello", Some 61)) by (vm_compute; reflexivity).
  assert (H3 : unexpired (Some 61) (time_at Demo.world (ticks Demo.after_h)))
    by (vm_compute; reflexivity).
  split; [exact H1|]. split; [exact H2|]. split; [exact H3|].
  exact (proj1 (proj2 (second_fetch_from_cache Demo.world 1 0 "http" "h" 80
                         "/" 0 0 initial Demo.after_h "hello" "hello"
                         (Some 61) H1 H2 H3))).
Defined.

Section Head.

Lemma utf8_valid_app_bounded (n : nat) :
  forall a b,
    (String.length a <= n)%nat ->
    Bytes.utf8_valid a = true -> Bytes.utf8_valid b = true ->
    Bytes.utf8_valid (a +:+ b) = true.
Proof.
  induction n as [|n IH]; intros a b Hn Ha Hb.
  { destruct a; [done | cbn in Hn; lia]. }
  destruct a as [|c a1]; [done|].
  cbn [String.append Bytes.utf8_valid String.length] in *.
  destruct (Bytes.byte_in 0 127 c); [apply IH; [lia|done..]|].
  destruct a1 as [|c1 a2]; [done|].
  cbn [String.append String.length] in *.
  destruct (Bytes.byte_in 194 223 c).
  { apply andb_prop in Ha as [-> Ha]. apply IH; [lia|done..]. }
  destruct a2 as [|c2 a3]; [done|].
  cbn [String.append String.length] in *.
  destruct (Bytes.byte_in 224 239 c).
  { apply andb_prop in Ha as [-> Ha]. apply IH; [lia|done..]. }
  destruct a3 as [|c3 a4]; [done|].
  cbn [String.append String.length] in *.
  destruct (Bytes.byte_in 240 244 c); [|done].
  apply andb_prop in Ha as [-> Ha]. apply IH; [lia|done..].
Qed.

Lemma utf8_valid_app (a b : string) :
  Bytes.utf8_valid a = true -> Bytes.utf8_valid b = true ->
  Bytes.utf8_valid (a +:+ b) = true.
Proof. by apply (utf8_valid_app_bounded (String.length a)). Qed.

Lemma field_ok_parts (s : string) :
  Wire.field_ok s = true ->
  Bytes.utf8_valid s = true /\
  all_chars (fun c => negb (Ascii.eqb c LF)) s = true.
Proof.
  unfold Wire.field_ok. intros [? ?]%andb_prop.
  split; [by apply utf8_valid_ascii | done].
Qed.

(** Reading one line [l CRLF] whose text has no line feed. *)
Lemma readline_crlf (l rest : string) :
  all_chars (fun c => negb (Ascii.eqb c LF)) l = true ->
  Bytes.readline_split (l +:+ CRLF +:+ rest) = (l +:+ CRLF, rest).
Proof.
  intros Hl.
  change (CRLF +:+ rest) with (String CR (String LF rest)).
  replace (l +:+ String CR (String LF rest))
    with ((l +:+ String CR "") +:+ String LF rest) by (by rewrite sapp_assoc).
  rewrite readline_split_app; [by rewrite sapp_assoc|].
  rewrite all_chars_app, Hl. done.
Qed.

Lemma split_app_S (c : ascii) (n : nat) (a b : string) :
  Py.contains (String c "") a = false ->
  Py.split c (S n) (a +:+ String c b) = a :: Py.split c n b.
Proof.
  induction a as [|x a IH]; intros Ha.
  - cbn. by rewrite Ascii.eqb_refl.
  - rewrite contains_char in Ha. apply orb_false_elim in Ha as [Hx Ha].
    rewrite sapp_cons. cbn [Py.split]. rewrite Ascii.eqb_sym, Hx, (IH Ha). done.
Qed.

Lemma header_line_read (fuel : nat) (acc : gmap string string)
    (h : string * string) (rest : string) :
  Wire.header_ok h = true ->
  read_headers (S fuel) acc (Wire.header_line h +:+ rest)
  = read_headers fuel (<[Py.casefold h.1 := Py.strip (h.2 +:+ CRLF)]> acc) rest.
Proof.
  destruct h as [n v]. unfold Wire.header_ok, Wire.header_line. cbn [fst snd].
  intros [[Hn Hv]%andb_prop Hcolon%negb_true_iff]%andb_prop.
  apply field_ok_parts in Hn as [Hn1 Hn2].
  apply field_ok_parts in Hv as [Hv1 Hv2].
  set (l := n +:+ ":" +:+ v).
  assert (Hl : all_chars (fun c => negb (Ascii.eqb c LF)) l = true).
  { unfold l. rewrite !all_chars_app, Hn2, Hv2. done. }
  assert (Hu : Bytes.utf8_valid (l +:+ CRLF) = true).
  { unfold l. repeat apply utf8_valid_app; done. }
  replace ((n +:+ ":" +:+ v +:+ CRLF) +:+ rest) with (l +:+ CRLF +:+ rest)
    by (unfold l; by rewrite !sapp_assoc).
  cbn [read_headers]. unfold Bytes.bind at 1. unfold Bytes.readline.
  rewrite readline_crlf by done.
  unfold Bytes.bind at 1. unfold Bytes.lift at 1, Bytes.decode. rewrite Hu.
  assert (Hne : String.eqb (l +:+ CRLF) CRLF = false).
  { apply String.eqb_neq. intros Heq.
    assert (Py.contains ":" (l +:+ CRLF) = true) as Hc.
    { unfold l. rewrite !contains_char_app. cbn. by rewrite orb_true_r. }
    rewrite Heq in Hc. done. }
  rewrite Hne.
  assert (Hsplit : Py.split ":" 1 (l +:+ CRLF) = [n; v +:+ CRLF]).
  { unfold l. rewrite !sapp_assoc.
    change (":" +:+ v +:+ CRLF) with (String ":" (v +:+ CRLF)).
    by apply split1_app. }
  unfold Bytes.bind at 1. unfold Bytes.lift at 1. rewrite Hsplit.
  reflexivity.
Qed.

Lemma header_lines_read (hs : list (string * string)) :
  forall (fuel : nat) (acc : gmap string string) (rest : string),
    forallb Wire.header_ok hs = true ->
    (length hs < fuel)%nat ->
    read_headers fuel acc (Wire.header_lines hs +:+ CRLF +:+ rest)
    = (Returns (Wire.headers_from acc hs), rest).
Proof.
  induction hs as [|h hs IH]; intros fuel acc rest Hok Hf.
  - destruct fuel as [|fuel]; [cbn in Hf; lia|]. reflexivity.
  - destruct fuel as [|fuel]; [cbn in Hf; lia|].
    cbn [forallb] in Hok. apply andb_prop in Hok as [Hh Hok].
    cbn [Wire.header_lines]. rewrite sapp_assoc.
    rewrite header_line_read by done.
    rewrite IH; [done | done | cbn in Hf; lia].
Qed.

Lemma length_header_lines (hs : list (string * string)) :
  (length hs <= String.length (Wire.header_lines hs))%nat.
Proof.
  induction hs as [|h hs IH]; [done|].
  cbn [Wire.header_lines length]. unfold Wire.header_line.
  rewrite !slength_app. cbn [String.length]. lia.
Qed.

Lemma read_head_encoded (version status reason : string)
    (hs : list (string * string)) (rest : string) :
  Wire.field_ok version = true -> Wire.field_ok status = true ->
  Wire.field_ok reason = true ->
  Py.contains " " version = false -> Py.contains " " status = false ->
  forallb Wire.header_ok hs = true ->
  read_head (Wire.head version status reason hs +:+ rest)
  = (Returns (status, Wire.headers_from ∅ hs), rest).
Proof.
  intros Hv Hs Hr Hvs Hss Hok.
  apply field_ok_parts in Hv as [Hv1 Hv2].
  apply field_ok_parts in Hs as [Hs1 Hs2].
  apply field_ok_parts in Hr as [Hr1 Hr2].
  unfold read_head, Wire.head.
  set (l := version +:+ " " +:+ status +:+ " " +:+ reason).
  set (buf := (_ +:+ rest)).
  assert (Hbuf : buf = l +:+ CRLF +:+ (Wire.header_lines hs +:+ CRLF +:+ rest)).
  { unfold buf, l. by rewrite !sapp_assoc. }
  assert (Hlen : (length hs < S (String.length buf))%nat).
  { rewrite Hbuf, !slength_app. pose proof (length_header_lines hs). lia. }
  revert Hlen. generalize (S (String.length buf)). intros fuel Hlen.
  rewrite Hbuf.
  assert (Hl : all_chars (fun c => negb (Ascii.eqb c LF)) l = true).
  { unfold l. rewrite !all_chars_app, Hv2, Hs2, Hr2. done. }
  assert (Hu : Bytes.utf8_valid (l +:+ CRLF) = true).
  { unfold l. repeat apply utf8_valid_app; done. }
  unfold Bytes.bind at 1. unfold Bytes.readline.
  rewrite readline_crlf by done.
  unfold Bytes.bind at 1. unfold Bytes.lift at 1, Bytes.decode. rewrite Hu.
  assert (Hsplit : Py.split " " 2 (l +:+ CRLF)
                   = [version; status; reason +:+ CRLF]).
  { unfold l. rewrite !sapp_assoc.
    change (" " +:+ status +:+ " " +:+ reason +:+ CRLF)
      with (String " " (status +:+ String " " (reason +:+ CRLF))).
    rewrite split_app_S by done. by rewrite split1_app. }
  unfold Bytes.bind at 1. unfold Bytes.lift at 1. rewrite Hsplit.
  cbn [Py.unpack3]. unfold Bytes.bind at 1.
  rewrite header_lines_read by done. reflexivity.
Qed.

End Head.

Section HeadersMore.

Lemma rstrip_app_space (v t : string) :
  all_chars Py.is_space t = true -> Py.rstrip (v +:+ t) = Py.rstrip v.
Proof.
  intros Ht. induction v as [|c v IH]; cbn.
  - by apply rstrip_all_space.
  - by rewrite IH.
Qed.

Lemma lstrip_all_space (t : string) :
  all_chars Py.is_space t = true -> Py.lstrip t = "".
Proof.
  induction t as [|c t IH]; cbn; [done|].
  intros [-> Ht]%andb_prop. auto.
Qed.

Lemma lstrip_app_space (v t : string) :
  all_chars Py.is_space t = true ->
  Py.lstrip (v +:+ t) = Py.lstrip v +:+ t \/
  (Py.lstrip (v +:+ t) = "" /\ Py.lstrip v = "").
Proof.
  intros Ht. induction v as [|c v IH]; cbn.
  - right. by rewrite lstrip_all_space.
  - destruct (Py.is_space c); [done | by left].
Qed.

Lemma strip_app_space (v t : string) :
  all_chars Py.is_space t = true -> Py.strip (v +:+ t) = Py.strip v.
Proof.
  intros Ht. unfold Py.strip.
  destruct (lstrip_app_space v t Ht) as [->|[-> ->]]; [|done].
  by apply rstrip_app_space.
Qed.

Lemma headers_from_snoc (acc : gmap string string)
    (hs : list (string * string)) (h : string * string) :
  Wire.headers_from acc (hs ++ [h])
  = <[Py.casefold h.1 := Py.strip h.2]> (Wire.headers_from acc hs).
Proof.
  unfold Wire.headers_from. rewrite fold_left_app. cbn.
  by rewrite strip_app_space.
Qed.

(** The blanks of [str.strip] are the ten characters of [Wire.blanks]. *)
Lemma is_space_blank (c : ascii) : Py.is_space c = Wire.blank c.
Proof. destruct c as [[] [] [] [] [] [] [] []]; reflexivity. Qed.

Lemma all_space_blank (s : string) :
  all_chars Py.is_space s = all_chars Wire.blank s.
Proof. induction s as [|c s IH]; cbn; [done|]. by rewrite is_space_blank, IH. Qed.

(** [lstrip] takes blanks off the front, and all of them. *)
Lemma lstrip_spec (s : string) :
  exists a, s = a +:+ Py.lstrip s /\ all_chars Py.is_space a = true /\
            forall c r, Py.lstrip s = String c r -> Py.is_space c = false.
Proof.
  induction s as [|c s (a & Ha & Hblank & Hfirst)].
  - exists "". split; [done|]. split; [done|]. done.
  - cbn [Py.lstrip]. destruct (Py.is_space c) eqn:Hc.
    + exists (String c a). split; [by rewrite sapp_cons, <- Ha|].
      split; [cbn; by rewrite Hc | done].
    + exists "". split; [done|]. split; [done|]. by intros ? ? [= <- <-].
Qed.

(** An end of a string: its last character and what is before. *)
Lemma snoc_cons (x r : string) (c d : ascii) :
  String c x = r +:+ String d "" ->
  (x = "" /\ r = "" /\ c = d) \/ exists r', r = String c r' /\ x = r' +:+ String d "".
Proof.
  destruct r as [|c' r']; cbn.
  - intros [= -> <-]. by left.
  - intros [= <- ->]. right. by exists r'.
Qed.

(** [rstrip] takes blanks off the end, and all of them, and lets the
    front be. *)
Lemma rstrip_spec (s : string) :
  exists b, s = Py.rstrip s +:+ b /\ all_chars Py.is_space b = true /\
            (forall r d, Py.rstrip s = r +:+ String d "" ->
                         Py.is_space d = false) /\
            (forall c r, s = String c r -> Py.is_space c = false ->
                         exists r', Py.rstrip s = String c r').
Proof.
  induction s as [|c s (b & Hb & Hblank & Hlast & _)].
  - exists "". split; [done|]. split; [done|]. split; [|done].
    intros [|? ?] d; done.
  - cbn [Py.rstrip]. destruct (Py.rstrip s) as [|x r] eqn:Hr.
    + destruct (Py.is_space c) eqn:Hc.
      * exists (String c s). split; [done|].
        split; [cbn; rewrite Hc; cbn in Hb; by rewrite Hb|].
        split; [intros [|? ?] d; done|].
        intros ? ? [= <- <-]. congruence.
      * exists b. split; [cbn in Hb; by rewrite sapp_cons, <- Hb|].
        split; [done|]. split.
        -- intros r d Heq. apply snoc_cons in Heq as [(_ & _ & <-)|(r' & _ & Hx)];
             [done | by destruct r'].
        -- intros ? ? [= <- <-] _. eauto.
    + exists b. split; [by rewrite sapp_cons, <- Hb|].
      split; [done|]. split.
      * intros r0 d Heq.
        apply snoc_cons in Heq as [(Hx & _ & _)|(r' & _ & Hx)]; [done|].
        by eapply Hlast.
      * intros ? ? [= <- <-] _. eauto.
Qed.

(** What [strip] returns is its argument without the blanks at its ends. *)
Lemma strip_trimmed (s : string) : Wire.trimmed s (Py.strip s).
Proof.
  unfold Py.strip.
  destruct (lstrip_spec s) as (a & Ha & Hablank & Hfirst).
  destruct (rstrip_spec (Py.lstrip s)) as (b & Hb & Hbblank & Hlast & Hkeep).
  split; [|split].
  - exists a, b. rewrite <- Hb, <- Ha, <- !all_space_blank. done.
  - intros c r Heq. rewrite <- is_space_blank.
    destruct (Py.lstrip s) as [|c0 r0] eqn:Hl; [done|].
    pose proof (Hfirst c0 r0 eq_refl) as Hc0.
    destruct (Hkeep c0 r0 eq_refl Hc0) as [r' Hr']. congruence.
  - intros r d Heq. rewrite <- is_space_blank. by eapply Hlast.
Qed.

Ltac in_letters :=
  cbn; repeat (first [left; reflexivity | right]).

(** [casefold] on one character. *)
Lemma lower_same (c : ascii) : Wire.same_letter c (Py.lower_ascii c).
Proof.
  destruct c as [[] [] [] [] [] [] [] []];
    first [left; reflexivity | right; left; in_letters].
Qed.

Lemma lower_not_upper (c : ascii) : Wire.upper (Py.lower_ascii c) = false.
Proof. destruct c as [[] [] [] [] [] [] [] []]; reflexivity. Qed.

Lemma same_letter_lower (a b : ascii) :
  Wire.same_letter a b -> Wire.upper b = false -> Py.lower_ascii a = b.
Proof.
  intros [->|[H|H]] Hup.
  - revert Hup. destruct b as [[] [] [] [] [] [] [] []]; vm_compute; done.
  - cbn in H. repeat (destruct H as [H|H]; [by injection H as <- <-|]). done.
  - cbn in H.
    repeat (destruct H as [H|H]; [injection H as <- <-; discriminate Hup|]).
    done.
Qed.

Lemma casefold_same_name (s : string) : Wire.same_name s (Py.casefold s).
Proof. induction s as [|c s IH]; cbn; [done|]. split; [apply lower_same | done]. Qed.

Lemma casefold_lower_case (s : string) : Wire.lower_case (Py.casefold s) = true.
Proof.
  induction s as [|c s IH]; [done|]. unfold Wire.lower_case in *.
  cbn [Py.casefold all_chars]. by rewrite lower_not_upper, IH.
Qed.

Lemma same_name_casefold (a k : string) :
  Wire.same_name a k -> Wire.lower_case k = true -> Py.casefold a = k.
Proof.
  revert k. induction a as [|x a IH]; intros [|y k]; cbn; try done.
  intros [Hxy Hak]. unfold Wire.lower_case. cbn [all_chars].
  intros [Hy Hk]%andb_prop. apply negb_true_iff in Hy.
  by rewrite (same_letter_lower _ _ Hxy Hy), (IH k Hak Hk).
Qed.

(** Every entry of the dictionary comes from a header line, or was there
    before. *)
Lemma headers_from_lookup (hs : list (string * string)) :
  forall (acc : gmap string string) (k v : string),
    Wire.headers_from acc hs !! k = Some v ->
    acc !! k = Some v \/
    exists name raw, In (name, raw) hs /\ Py.casefold name = k /\
                     Py.strip raw = v.
Proof.
  induction hs as [|[n raw] hs IH] using rev_ind; intros acc k v.
  - cbn. auto.
  - rewrite headers_from_snoc. cbn [fst snd].
    destruct (decide (Py.casefold n = k)) as [<-|Hne].
    + rewrite lookup_insert_eq. intros [= <-]. right. exists n, raw.
      split; [apply in_or_app; right; by left | done].
    + rewrite lookup_insert_ne by done. intros [H|(n' & raw' & Hin & ? & ?)]%IH;
        [by left|].
      right. exists n', raw'. split; [apply in_or_app; by left | done].
Qed.

(** A header line decides the entry of its name when no later line has
    the same name. *)
Lemma headers_from_last (hs2 : list (string * string)) :
  forall (acc : gmap string string) (k v : string),
    acc !! k = Some v ->
    (forall name raw, In (name, raw) hs2 -> Py.casefold name <> k) ->
    Wire.headers_from acc hs2 !! k = Some v.
Proof.
  induction hs2 as [|[n raw] hs2 IH]; intros acc k v Hacc Hlater; [done|].
  cbn. apply IH.
  - rewrite lookup_insert_ne; [done|]. apply (Hlater n raw). by left.
  - intros name raw' Hin. apply (Hlater name raw'). by right.
Qed.

(** X10.  The head of a response read back.  For a status line
    [version status reason] and header lines [name:value] of ASCII text,
    each followed by CRLF, and a closing blank line, the reader returns the
    status and the header dictionary and stops right after the blank line.
    Every key of the dictionary has no upper-case letter and is the name of
    a header line up to the case of its letters, and its value is the value
    of that line without the blanks at its two ends; for each such key, the
    last line whose name it is up to case decides the value. *)
Theorem response_head_read_back (version status reason : string)
    (hs : list (string * string)) (rest : string) :
  Wire.field_ok version = true -> Wire.field_ok status = true ->
  Wire.field_ok reason = true ->
  Py.contains " " version = false -> Py.contains " " status = false ->
  forallb Wire.header_ok hs = true ->
  exists response_headers,
    read_head (Wire.head version status reason hs +:+ rest)
    = (Returns (status, response_headers), rest)
    /\ response_headers = Wire.headers_from ∅ hs
    /\ (forall k v,
          response_headers !! k = Some v ->
          Wire.lower_case k = true /\
          exists name raw,
            In (name, raw) hs /\ Wire.same_name name k /\ Wire.trimmed raw v)
    /\ (forall hs1 hs2 name raw k,
          hs = hs1 ++ (name, raw) :: hs2 ->
          Wire.same_name name k -> Wire.lower_case k = true ->
          (forall name' raw',
             In (name', raw') hs2 -> ~ Wire.same_name name' k) ->
          exists v, response_headers !! k = Some v /\ Wire.trimmed raw v).
Proof.
  intros Hv Hs Hr Hvs Hss Hok.
  exists (Wire.headers_from ∅ hs).
  split; [by apply read_head_encoded|]. split; [done|]. split.
  - intros k v [H|(name & raw & Hin & <- & <-)]%headers_from_lookup; [done|].
    split; [apply casefold_lower_case|].
    exists name, raw. split; [done|].
    split; [apply casefold_same_name | apply strip_trimmed].
  - intros hs1 hs2 name raw k -> Hname Hk Hlater.
    exists (Py.strip raw). split; [|apply strip_trimmed].
    replace (hs1 ++ (name, raw) :: hs2) with ((hs1 ++ [(name, raw)]) ++ hs2)
      by (by rewrite <- (assoc_L (++))).
    unfold Wire.headers_from at 1. rewrite fold_left_app.
    apply headers_from_last.
    + fold (Wire.headers_from ∅ (hs1 ++ [(name, raw)])).
      rewrite headers_from_snoc. cbn [fst snd].
      rewrite (same_name_casefold _ _ Hname Hk). apply lookup_insert_eq.
    + intros name' raw' Hin Heq. apply (Hlater name' raw' Hin).
      rewrite <- Heq. apply casefold_same_name.
Qed.

Lemma response_head_read_back_witness :
  Wire.field_ok "HTTP/1.1" = true /\ Wire.field_ok "200" = true
  /\ Wire.field_ok "OK" = true
  /\ Py.contains " " "HTTP/1.1" = false /\ Py.contains " " "200" = false
  /\ forallb Wire.header_ok
       [("Content-Length", " 5"); ("X-Tag", "a"); ("x-tag", " b ")] = true
  /\ exists response_headers,
       read_head
         (Wire.head "HTTP/1.1" "200" "OK"
            [("Content-Length", " 5"); ("X-Tag", "a"); ("x-tag", " b ")]
          +:+ "hello")
       = (Returns ("200", response_headers), "hello")
       /\ response_headers !! "content-length" = Some "5"
       /\ response_headers !! "x-tag" = Some "b".
Proof.
  repeat (split; [reflexivity|]).
  destruct (response_head_read_back "HTTP/1.1" "200" "OK"
              [("Content-Length", " 5"); ("X-Tag", "a"); ("x-tag", " b ")]
              "hello" eq_refl eq_refl eq_refl eq_refl eq_refl eq_refl)
    as (response_headers & Hread & -> & _).
  eexists. split; [exact Hread|]. split; vm_compute; reflexivity.
Defined.

End HeadersMore.

Section Bodies.

(** X11.  A body framed by Content-Length.  When the response is not chunked
    and the header is a positive number [n], written within the length
    that [int] converts, the body is the next [n] bytes and the following
    bytes stay unread; when fewer than [n] bytes (for [n] below 2^20)
    arrive before the end of the stream they are returned as the body
    without any error; without the header, or with a number that is not
    positive, the body is everything up to the end of the stream; a header
    of ASCII text that is no number is a [ValueError]. *)
Theorem body_by_content_length (response_headers : gmap string string)
    (buf : string) :
  response_headers !! "transfer-encoding" <> Some "chunked" ->
  (forall v n,
     response_headers !! "content-length" = Some v ->
     (String.length v <= Py.int_max_str_digits)%nat ->
     Py.int 10 v = Some n -> 0 < n ->
     (forall body rest,
        buf = body +:+ rest -> Z.of_nat (String.length body) = n ->
        read_body response_headers buf = (Returns body, rest))
     /\ ((String.length buf <= Z.to_nat n)%nat -> n < 2 ^ 20 ->
         read_body response_headers buf = (Returns buf, "")))
  /\ (response_headers !! "content-length" = None ->
      read_body response_headers buf = (Returns buf, ""))
  /\ (forall v n,
        response_headers !! "content-length" = Some v ->
        (String.length v <= Py.int_max_str_digits)%nat ->
        Py.int 10 v = Some n -> n <= 0 ->
        read_body response_headers buf = (Returns buf, ""))
  /\ (forall v,
        response_headers !! "content-length" = Some v ->
        ascii_text v = true -> Py.int 10 v = None ->
        read_body response_headers buf = (Raises ValueError, buf)).
Proof.
  intros Hte. unfold read_body. rewrite bool_decide_eq_false_2 by done.
  unfold Bytes.bind, Bytes.lift, Bytes.read, Bytes.read_all.
  split; [|split; [|split]].
  - intros v n -> _ -> Hn. cbn [of_option].
    destruct (Z.ltb_spec 0 n); [|lia].
    destruct (Z.eqb_spec n (-1)); [lia|].
    destruct (Z.ltb_spec n (-1)); [lia|].
    split.
    + intros body rest -> <-.
      by rewrite Nat2Z.id, stake_app_length, sdrop_app_length.
    + intros Hlen _. f_equal.
      * f_equal. clear -Hlen. revert buf Hlen.
        induction (Z.to_nat n) as [|m IH]; intros [|c buf] Hlen; cbn in *;
          try done; [lia|]. rewrite IH; [done|lia].
      * clear -Hlen. revert buf Hlen.
        induction (Z.to_nat n) as [|m IH]; intros [|c buf] Hlen; cbn in *;
          try done; [lia|]. apply IH; lia.
  - intros ->. done.
  - intros v n -> _ -> Hn. cbn [of_option].
    by destruct (Z.ltb_spec 0 n); [lia|].
  - intros v -> _ ->. done.
Qed.

Lemma body_by_content_length_witness :
  ({["content-length" := "5"]} : gmap string string) !! "transfer-encoding"
    <> Some "chunked"
  /\ read_body {["content-length" := "5"]} ("hello" +:+ "HTTP/1.1 200 OK")
     = (Returns "hello", "HTTP/1.1 200 OK").
Proof.
  assert (H : ({["content-length" := "5"]} : gmap string string)
                !! "transfer-encoding" <> Some "chunked")
    by (vm_compute; discriminate).
  split; [exact H|].
  refine (proj1 (proj1 (body_by_content_length
                          {["content-length" := "5"]}
                          ("hello" +:+ "HTTP/1.1 200 OK") H)
                   "5" 5 _ _ _ _)
            "hello" "HTTP/1.1 200 OK" eq_refl eq_refl);
    [vm_compute; reflexivity | vm_compute; lia | reflexivity | lia].
Defined.

Lemma read_chunked_truncated (chunks : list string) :
  Forall (fun payload => payload <> "") chunks ->
  forall (fuel : nat) (acc : string),
    (length chunks < fuel)%nat ->
    read_chunked fuel acc (Wire.truncated_chunks chunks)
    = (Raises ValueError, "").
Proof.
  induction 1 as [|payload chunks Hne _ IH]; intros fuel acc Hf.
  - destruct fuel as [|fuel]; [cbn in Hf; lia|]. reflexivity.
  - destruct fuel as [|fuel]; [cbn in Hf; lia|].
    cbn [Wire.truncated_chunks].
    rewrite read_chunked_chunk by done. apply IH. cbn in Hf; lia.
Qed.

Lemma length_truncated_chunks (chunks : list string) :
  (length chunks <= String.length (Wire.truncated_chunks chunks))%nat.
Proof.
  induction chunks as [|payload chunks IH]; [done|].
  cbn [Wire.truncated_chunks length]. unfold Spec.encode_chunk.
  rewrite !slength_app. unfold CRLF. cbn [String.length]. lia.
Qed.

(** X12.  A chunked body that ends early.  When the stream ends after a data
    chunk, before the chunk of size 0, the whole stream is consumed and
    [ValueError] is raised (the size line at the end of the stream is
    empty); the chunks read so far are not returned. *)
Theorem chunked_body_cut_short (response_headers : gmap string string)
    (chunks : list string) :
  response_headers !! "transfer-encoding" = Some "chunked" ->
  Forall (fun payload => payload <> "") chunks ->
  read_body response_headers (Wire.truncated_chunks chunks)
  = (Raises ValueError, "").
Proof.
  intros Hte Hne. unfold read_body. rewrite bool_decide_eq_true_2 by done.
  apply read_chunked_truncated; [done|].
  pose proof (length_truncated_chunks chunks). lia.
Qed.

Lemma chunked_body_cut_short_witness :
  Demo.chunked_headers !! "transfer-encoding" = Some "chunked"
  /\ Forall (fun payload => payload <> "") ["hello"; "abc"]
  /\ read_body Demo.chunked_headers (Wire.truncated_chunks ["hello"; "abc"])
     = (Raises ValueError, "").
Proof.
  assert (H1 : Demo.chunked_headers !! "transfer-encoding" = Some "chunked")
    by (vm_compute; reflexivity).
  assert (H2 : Forall (fun payload => payload <> "") ["hello"; "abc"])
    by (repeat constructor; discriminate).
  split; [exact H1|]. split; [exact H2|].
  exact (chunked_body_cut_short Demo.chunked_headers ["hello"; "abc"] H1 H2).
Defined.

End Bodies.

Section HappyPath.

Variable E : Env.

Lemma respond_body_result (fuel : nat) (scheme host : string) (port : Z)
    (path : string) (s : socket) (r : Z) (st : State)
    (version status reason : string) (hs : list (string * string))
    (body rest v : string) (code : Z) :
  unread s = Wire.head version status reason hs +:+ body +:+ rest ->
  Wire.field_ok version = true -> Wire.field_ok status = true ->
  Wire.field_ok reason = true ->
  Py.contains " " version = false -> Py.contains " " status = false ->
  forallb Wire.header_ok hs = true ->
  Py.int 10 status = Some code -> (300 <=? code) && (code <? 400) = false ->
  Wire.headers_from ∅ hs !! "transfer-encoding" <> Some "chunked" ->
  Wire.headers_from ∅ hs !! "content-length" = Some v ->
  Py.int 10 v = Some (Z.of_nat (String.length body)) -> body <> "" ->
  default "" (Wire.headers_from ∅ hs !! "content-encoding") <> "gzip" ->
  Bytes.utf8_valid body = true ->
  exists st2,
    respond E fuel scheme host port path s r st
    = (match
         (cache_store E (absolute_url scheme host path) body code
            (Wire.headers_from ∅ hs) st2).1
       with
       | Returns _ => Final (Returns body)
       | Raises e => raising e
       end,
       (cache_store E (absolute_url scheme host path) body code
          (Wire.headers_from ∅ hs) st2).2)
    /\ open_sockets st2 !! (host, port)
       = Some {| tls := tls s; unread := rest |}
    /\ cache st2 = cache st /\ ticks st2 = ticks st
    /\ filter is_send (log st2)
       = filter is_send (log st) ++ [Send (host, port) (frame_request host path)].
Proof.
  intros Hun Hv Hs Hr Hvs Hss Hok Hcode H3xx Hte Hcl Hlen Hne Hce Hutf.
  eexists. split.
  - unfold respond, recv. rewrite Hun.
    rewrite read_head_encoded by done. rewrite Hcode, H3xx.
    cbn [unread tls].
    unfold read_body. rewrite bool_decide_eq_false_2 by done.
    unfold Bytes.bind, Bytes.lift. rewrite Hcl, Hlen. cbn [of_option].
    assert (0 < String.length body)%nat by (destruct body; cbn; [done|lia]).
    destruct (Z.ltb_spec 0 (Z.of_nat (String.length body))); [|lia].
    rewrite read_exact by done.
    destruct (String.eqb_spec
                (default "" (Wire.headers_from ∅ hs !! "content-encoding"))
                "gzip"); [done|].
    unfold Bytes.decode. rewrite Hutf.
    lazymatch goal with
    | |- (let (_, _) := ?c in _) = _ =>
      transitivity (match c.1 with
                    | Returns _ => Final (Returns body)
                    | Raises e => raising e
                    end, c.2);
        [by destruct c as [[[]|?] ?] | reflexivity]
    end.
  - cbn [open_sockets cache ticks log emit set_sockets send].
    split; [apply lookup_insert_eq|]. split; [done|]. split; [done|].
    rewrite !filter_app. cbn. by rewrite !app_nil_r.
Qed.

(** The socket of the pool after [release]. *)
Lemma release_socket (k : string * Z) (st : State) (s : socket) :
  open_sockets st !! k = Some s ->
  open_sockets (release E k st) !! k
  = Some {| tls := tls s;
            unread := Py.drop (read_ahead E (log (release E k st))) (unread s) |}.
Proof.
  intros Hs. unfold release, set_sockets. cbn.
  by rewrite lookup_alter_eq, Hs.
Qed.

(** X13.  A response with a body of known length.  When the socket holds a
    well-formed head of ASCII text with a status outside 300..399, no
    chunked transfer encoding, no gzip content encoding and a
    Content-Length equal to the length of the non-empty, well-formed UTF-8
    body that follows, the exchange changes the cache as the cache policy
    says for this status and these headers, and returns that body unless
    the cache policy raises.  The socket stays in the pool; of the bytes
    after the body (the next response of a keep-alive connection) it has
    lost the ones that the reader had read ahead. *)
Theorem exchange_returns_body (fuel : nat) (scheme host : string) (port : Z)
    (path : string) (s : socket) (r : Z) (st : State)
    (version status reason : string) (hs : list (string * string))
    (body rest v : string) (code : Z) :
  unread s = Wire.head version status reason hs +:+ body +:+ rest ->
  Wire.field_ok version = true -> Wire.field_ok status = true ->
  Wire.field_ok reason = true ->
  Py.contains " " version = false -> Py.contains " " status = false ->
  forallb Wire.header_ok hs = true ->
  (String.length status <= Py.int_max_str_digits)%nat ->
  Py.int 10 status = Some code -> (300 <=? code) && (code <? 400) = false ->
  Wire.headers_from ∅ hs !! "transfer-encoding" <> Some "chunked" ->
  Wire.headers_from ∅ hs !! "content-length" = Some v ->
  (String.length v <= Py.int_max_str_digits)%nat ->
  Py.int 10 v = Some (Z.of_nat (String.length body)) -> body <> "" ->
  default "" (Wire.headers_from ∅ hs !! "content-encoding") <> "gzip" ->
  (String.length (default "" (Wire.headers_from ∅ hs !! "cache-control"))
   <= Py.int_max_str_digits)%nat ->
  Bytes.utf8_valid body = true ->
  let stored :=
    cache_store E (absolute_url scheme host path) body code
      (Wire.headers_from ∅ hs) st in
  let st' := (exchange E fuel scheme host port path s r st).2 in
  (exchange E fuel scheme host port path s r st).1
  = match stored.1 with
    | Returns _ => Final (Returns body)
    | Raises e => raising e
    end
  /\ open_sockets st' !! (host, port)
     = Some {| tls := tls s;
               unread := Py.drop (read_ahead E (log st')) rest |}
  /\ (read_ahead E (log st') = 0%nat ->
      open_sockets st' !! (host, port)
      = Some {| tls := tls s; unread := rest |})
  /\ cache st' = cache stored.2.
Proof.
  intros Hun Hv Hs Hr Hvs Hss Hok _ Hcode H3xx Hte Hcl _ Hlen Hne Hce _ Hutf
    stored st'.
  destruct (respond_body_result fuel scheme host port path s r st version
              status reason hs body rest v code)
    as (st2 & Hres & Hs2 & Hc2 & Ht2 & _); try done.
  destruct (cache_store_ext E (absolute_url scheme host path) body code
              (Wire.headers_from ∅ hs) st st2 Hc2 Ht2) as [Hext1 Hext2].
  assert (Hsock : open_sockets st' !! (host, port)
                  = Some {| tls := tls s;
                            unread := Py.drop (read_ahead E (log st')) rest |}).
  { unfold st'. rewrite exchange_unfold, Hres. cbn [fst snd].
    rewrite (release_socket _ _ {| tls := tls s; unread := rest |}); [done|].
    by rewrite cache_store_sockets. }
  split; [|split; [exact Hsock|split]].
  - rewrite exchange_unfold, Hres. cbn [fst]. unfold stored. by rewrite Hext2.
  - intros Hz. by rewrite Hsock, Hz.
  - unfold st', stored. rewrite exchange_unfold, Hres. cbn [snd].
    destruct (release_frame E (host, port)
                (cache_store E (absolute_url scheme host path) body code
                   (Wire.headers_from ∅ hs) st2).2) as (_ & -> & _).
    done.
Qed.

(** X14.  A redirect without Location.  When the head on the socket has a
    status in 300..399, the redirect count is below 5 and there is no
    Location header, or an empty one, "Redirect with no Location header" is
    raised; one request was sent, the cache is not changed, and the socket
    is left after the head, less what the reader had read ahead. *)
Theorem redirect_without_location (fuel : nat) (scheme host : string)
    (port : Z) (path : string) (s : socket) (r : Z) (st : State)
    (version status reason : string) (hs : list (string * string))
    (rest : string) (code : Z) :
  unread s = Wire.head version status reason hs +:+ rest ->
  Wire.field_ok version = true -> Wire.field_ok status = true ->
  Wire.field_ok reason = true ->
  Py.contains " " version = false -> Py.contains " " status = false ->
  forallb Wire.header_ok hs = true ->
  (String.length status <= Py.int_max_str_digits)%nat ->
  Py.int 10 status = Some code -> 300 <= code < 400 -> r < 5 ->
  default "" (Wire.headers_from ∅ hs !! "location") = "" ->
  let st' := (exchange E fuel scheme host port path s r st).2 in
  (exchange E fuel scheme host port path s r st).1
  = raising (Exception "Redirect with no Location header")
  /\ open_sockets st' !! (host, port)
     = Some {| tls := tls s;
               unread := Py.drop (read_ahead E (log st')) rest |}
  /\ cache st' = cache st
  /\ filter is_send (log st')
     = filter is_send (log st) ++ [Send (host, port) (frame_request host path)].
Proof.
  intros Hun Hv Hs Hr Hvs Hss Hok _ Hcode H3xx Hr5 Hloc st'.
  assert (Hex : exists consumed,
    respond E fuel scheme host port path s r st
    = (raising (Exception "Redirect with no Location header"),
       emit (Recv (host, port) consumed)
         (set_sockets <[(host, port) := {| tls := tls s; unread := rest |}]>
            (send (host, port) (Bytes.encode (frame_request host path)) st)))).
  { eexists. unfold respond, recv. rewrite Hun.
    rewrite read_head_encoded by done. rewrite Hcode.
    destruct (Z.leb_spec 300 code); [|lia].
    destruct (Z.ltb_spec code 400); [|lia]. cbn [andb].
    destruct (Z.leb_spec 5 r); [lia|].
    by destruct (Wire.headers_from ∅ hs !! "location") as [[|c l]|]. }
  destruct Hex as (consumed & Hres).
  unfold st'. rewrite exchange_unfold, Hres. cbn [fst snd].
  split; [done|]. split.
  { rewrite (release_socket _ _ {| tls := tls s; unread := rest |}); [done|].
    cbn. apply lookup_insert_eq. }
  match goal with
  | |- context [release E ?k ?st0] =>
    destruct (release_frame E k st0) as (-> & -> & _)
  end.
  cbn [fst snd open_sockets cache log emit set_sockets send].
  split; [done|].
  rewrite !filter_app. cbn. by rewrite app_nil_r.
Qed.

End HappyPath.

Lemma exchange_returns_body_witness :
  (exchange (Demo.hasty 2) 0 "http" "h" 80 "/"
     {| tls := false; unread := Demo.page "max-age=60" "hello" +:+ "next" |}
     0 initial).1 = Final (Returns "hello")
  /\ open_sockets
       (exchange (Demo.hasty 2) 0 "http" "h" 80 "/"
          {| tls := false; unread := Demo.page "max-age=60" "hello" +:+ "next" |}
          0 initial).2 !! ("h", 80)
     = Some {| tls := false; unread := "xt" |}.
Proof.
  destruct (exchange_returns_body (Demo.hasty 2) 0 "http" "h" 80 "/"
              {| tls := false;
                 unread := Demo.page "max-age=60" "hello" +:+ "next" |}
              0 initial "HTTP/1.1" "200" "OK"
              [("Content-Length", " 5"); ("Cache-Control", " max-age=60")]
              "hello" "next" "5" 200)
    as (H1 & H2 & _);
    try reflexivity; try (vm_compute; discriminate); try (vm_compute; lia).
  split; [exact H1 | exact H2].
Defined.

Lemma redirect_without_location_witness :
  (exchange Demo.world 0 "http" "h" 80 "/"
     {| tls := false;
        unread := Wire.head "HTTP/1.1" "302" "Found" [("Server", " x")]
                  +:+ "next" |}
     0 initial).1
  = raising (Exception "Redirect with no Location header").
Proof.
  refine (proj1 (redirect_without_location Demo.world 0 "http" "h" 80 "/"
              {| tls := false;
                 unread := Wire.head "HTTP/1.1" "302" "Found" [("Server", " x")]
                           +:+ "next" |}
              0 initial "HTTP/1.1" "302" "Found" [("Server", " x")]
              "next" 302 _ _ _ _ _ _ _ _ _ _ _ _));
    try reflexivity; try lia; try (vm_compute; lia).
Defined.

Section LayoutFacts.

Context {A : Type} (is_newline : A -> bool).

Lemma mod_step (n k : Z) : n mod k = 0 -> (n + k) mod k = 0.
Proof.
  intros H. replace (n + k) with (n + 1 * k) by lia.
  by rewrite Z_mod_plus_full.
Qed.

Lemma layout_step_inv (st : list (Z * Z * A) * Z * Z) (c : A) :
  layout_inv st -> layout_inv (Browser.layout_step is_newline st c).
Proof.
  destruct st as [[dl x] y]. intros ((Hx & Hxm & Hy & Hym) & Hg & Hc & Hs).
  unfold Browser.layout_step, Browser.WIDTH, Browser.HSTEP, Browser.VSTEP.
  assert (Hdown : Forall (cursor_after 13 (y + 18)) dl).
  { eapply Forall_impl; [exact Hc|]. unfold cursor_after. intros p; lia. }
  destruct (is_newline c).
  - change (800 - 13 <=? 13) with false. cbn iota.
    repeat split; try done; try lia; by apply mod_step.
  - assert (Hnew : on_grid (x, y, c)).
    { unfold on_grid, Browser.WIDTH, Browser.HSTEP, Browser.VSTEP. cbn. lia. }
    assert (Hsorted : StronglySorted before (dl ++ [(x, y, c)])).
    { apply StronglySorted_app. split; [|split; [done|]].
      - intros p q Hp ->%list_elem_of_singleton.
        rewrite Forall_forall in Hc. apply Hc in Hp.
        unfold cursor_after, before in *. cbn. lia.
      - repeat constructor. }
    assert (Hgrid : Forall on_grid (dl ++ [(x, y, c)])).
    { apply Forall_app. split; [done|]. constructor; [done | constructor]. }
    assert (Hxm' : (x + 13) mod 13 = 0) by by apply mod_step.
    destruct (Z.leb_spec (800 - 13) (x + 13)).
    + repeat split; try done; try lia.
      * by apply mod_step.
      * apply Forall_app. split; [done|]. constructor; [|constructor].
        unfold cursor_after. cbn. lia.
    + repeat split; try done; try lia.
      apply Forall_app. split.
      * eapply Forall_impl; [exact Hc|]. unfold cursor_after. intros p; lia.
      * constructor; [|constructor]. unfold cursor_after. cbn. lia.
Qed.

Lemma layout_loop_inv (text : list A) (st : list (Z * Z * A) * Z * Z) :
  layout_inv st -> layout_inv (fold_left (Browser.layout_step is_newline) text st).
Proof.
  revert st. induction text as [|c text IH]; intros st H; [done|].
  cbn. by apply IH, layout_step_inv.
Qed.

Lemma layout_loop_chars (text : list A) (st : list (Z * Z * A) * Z * Z) :
  (fold_left (Browser.layout_step is_newline) text st).1.1.*2
  = st.1.1.*2 ++ List.filter (fun c => negb (is_newline c)) text.
Proof.
  revert st. induction text as [|c text IH]; intros [[dl x] y].
  - cbn. by rewrite app_nil_r.
  - cbn [fold_left List.filter]. rewrite IH.
    unfold Browser.layout_step. destruct (is_newline c); cbn [negb].
    + by destruct (_ <=? _).
    + destruct (_ <=? _); cbn; by rewrite fmap_app, <- (assoc_L (++)).
Qed.

(** X15.  Where [layout] puts the characters.  Every item of the display
    list sits on the grid (a column that is a multiple of [HSTEP], from
    [HSTEP] up to but left of [WIDTH - HSTEP], a line that is a multiple of
    [VSTEP], from [VSTEP] on), and the items are in strict reading order,
    so no two of them share a position. *)
Theorem layout_on_grid (text : list A) :
  Forall on_grid (Browser.layout is_newline text) /\
  StronglySorted before (Browser.layout is_newline text) /\
  (forall i j p q,
     Browser.layout is_newline text !! i = Some p ->
     Browser.layout is_newline text !! j = Some q ->
     (i < j)%nat -> (p.1.1, p.1.2) <> (q.1.1, q.1.2)).
Proof.
  unfold Browser.layout.
  pose proof (layout_loop_inv text ([], Browser.HSTEP, Browser.VSTEP)) as H.
  destruct (fold_left _ text _) as [[dl x] y]. cbn [fst].
  destruct H as (_ & Hg & _ & Hs).
  { unfold layout_inv, Browser.HSTEP, Browser.VSTEP.
    repeat split; try done; constructor. }
  split; [done|]. split; [done|].
  intros i j p q Hi Hj Hij.
  rewrite <- (take_drop j dl) in Hs, Hi.
  rewrite lookup_app_l in Hi
    by (rewrite length_take; apply lookup_lt_Some in Hj; lia).
  assert (Hq : q ∈ drop j dl).
  { apply list_elem_of_lookup. exists 0%nat. by rewrite lookup_drop, Nat.add_0_r. }
  apply list_elem_of_lookup_2 in Hi.
  pose proof (StronglySorted_app_1_elem_of _ _ _ _ _ Hs Hi Hq) as Hb.
  unfold before in Hb. intros [= Hx Hy]. lia.
Qed.

(** X16.  What [layout] keeps of the text: the characters of the display
    list, in order, are the characters of the text that are no newline. *)
Theorem layout_keeps_characters (text : list A) :
  (Browser.layout is_newline text).*2
  = List.filter (fun c => negb (is_newline c)) text
  /\ length (Browser.layout is_newline text)
     = length (List.filter (fun c => negb (is_newline c)) text).
Proof.
  assert (H : (Browser.layout is_newline text).*2
              = List.filter (fun c => negb (is_newline c)) text).
  { unfold Browser.layout. by rewrite layout_loop_chars. }
  split; [done|]. by rewrite <- H, length_fmap.
Qed.

End LayoutFacts.

Section Scrolling.

Context {A : Type} (is_newline : A -> bool).

Lemma visible_on_screen (sc : Z) (dl : list (Z * Z * A)) :
  Forall on_grid dl -> Forall on_screen (Browser.visible sc dl).
Proof.
  induction 1 as [|[[x y] c] dl Hp _ IH]; [constructor|].
  cbn [Browser.visible]. unfold Browser.HEIGHT, Browser.VSTEP in *.
  destruct (Z.ltb_spec (sc + 600) y); [done|].
  destruct (Z.ltb_spec (y + 18) sc); [done|].
  constructor; [|done].
  destruct Hp as (Hx & _). unfold on_screen, Browser.HEIGHT, Browser.VSTEP.
  cbn in *. lia.
Qed.

(** What [draw] puts on the canvas: the items of the display list in the
    window, in their order, each moved up by the scroll offset. *)
Lemma visible_window (sc : Z) (dl : list (Z * Z * A)) :
  Browser.visible sc dl = map (scrolled sc) (List.filter (in_window sc) dl).
Proof.
  induction dl as [|[[x y] c] dl IH]; [done|].
  cbn [Browser.visible List.filter]. unfold in_window at 1. cbn [fst snd].
  unfold Browser.HEIGHT, Browser.VSTEP.
  destruct (Z.ltb_spec (sc + 600) y), (Z.ltb_spec (y + 18) sc),
    (Z.leb_spec (sc - 18) y), (Z.leb_spec y (sc + 600));
    try lia; cbn [andb map]; by rewrite IH.
Qed.

Lemma handle_synced (text : list A) (b : Browser.browser) (k : Browser.key) :
  synced is_newline text b -> synced is_newline text (Browser.handle b k).
Proof.
  intros (H0 & Hm & Hd & Hc). unfold synced, Browser.SCROLL_STEP in *.
  destruct k; cbn.
  - unfold Browser.SCROLL_STEP. repeat split; try done; [lia|].
    by apply mod_step.
  - unfold Browser.scroll_up, Browser.SCROLL_STEP.
    destruct (Z.ltb_spec 0 (Browser.scroll b)); cbn; [|done].
    assert (100 <= Browser.scroll b).
    { pose proof (Z.div_mod (Browser.scroll b) 100 ltac:(lia)). lia. }
    repeat split; try done; [lia|].
    replace (Browser.scroll b - 100) with (Browser.scroll b + (-1) * 100) by lia.
    by rewrite Z_mod_plus_full.
Qed.

Lemma run_synced (text : list A) (keys : list Browser.key)
    (b : Browser.browser) :
  synced is_newline text b -> synced is_newline text (fold_left Browser.handle keys b).
Proof.
  revert b. induction keys as [|k keys IH]; intros b H; [done|].
  cbn. by apply IH, handle_synced.
Qed.

Lemma load_text_synced (text : list A) :
  synced is_newline text (Browser.load_text is_newline text).
Proof. unfold synced. cbn. done. Qed.

(** X17.  Scrolling.  After a text is loaded and any sequence of Down and Up
    events is handled, the scroll offset is a non-negative multiple of 100,
    the display list is still the layout of the text, and the canvas holds
    the items of the layout whose line is from 18 above the offset to 600
    below it, in the order of the layout, each at its column and at its
    line less the offset; so each is left of the right margin and at a
    height between [-VSTEP] and [HEIGHT]. *)
Theorem scroll_stays_in_range (text : list A) (keys : list Browser.key) :
  let b := fold_left Browser.handle keys (Browser.load_text is_newline text) in
  0 <= Browser.scroll b
  /\ Browser.scroll b mod 100 = 0
  /\ Browser.display_list b = Browser.layout is_newline text
  /\ Browser.canvas b
     = map (fun p => (p.1.1, p.1.2 - Browser.scroll b, p.2))
         (List.filter
            (fun p => (Browser.scroll b - 18 <=? p.1.2)
                      && (p.1.2 <=? Browser.scroll b + 600))
            (Browser.layout is_newline text))
  /\ Forall on_screen (Browser.canvas b).
Proof.
  intros b.
  destruct (run_synced text keys _ (load_text_synced text))
    as (H0 & Hm & Hd & Hc).
  fold b in H0, Hm, Hd, Hc.
  split; [done|]. split; [done|]. split; [done|]. split.
  { rewrite Hc, Hd. apply visible_window. }
  rewrite Hc, Hd. apply visible_on_screen.
  unfold Browser.layout.
  pose proof (layout_loop_inv is_newline text
                ([], Browser.HSTEP, Browser.VSTEP)) as H.
  destruct (fold_left _ text _) as [[dl x] y]. cbn [fst].
  destruct H as (_ & Hg & _); [|done].
  unfold layout_inv, Browser.HSTEP, Browser.VSTEP.
  repeat split; try done; constructor.
Qed.

(** X18.  Down then Up.  In such a state a Down event followed by an Up
    event gives the state back, canvas included; an Up event at offset 0
    changes nothing. *)
Theorem scroll_down_then_up (text : list A) (keys : list Browser.key) :
  let b := fold_left Browser.handle keys (Browser.load_text is_newline text) in
  Browser.handle (Browser.handle b Browser.Down) Browser.Up = b
  /\ (Browser.scroll b = 0 -> Browser.handle b Browser.Up = b)
  /\ Browser.scroll (Browser.handle b Browser.Down)
     = Browser.scroll b + Browser.SCROLL_STEP.
Proof.
  intros b.
  destruct (run_synced text keys _ (load_text_synced text))
    as (H0 & Hm & Hd & Hc).
  fold b in H0, Hm, Hd, Hc.
  split; [|split; [|done]].
  - cbn. unfold Browser.scroll_up, Browser.scroll_down, Browser.draw,
      Browser.SCROLL_STEP. cbn.
    destruct (Z.ltb_spec 0 (Browser.scroll b + 100)); [|lia]. cbn.
    replace (Browser.scroll b + 100 - 100) with (Browser.scroll b) by lia.
    rewrite <- Hc. by destruct b.
  - intros Hz. cbn. unfold Browser.scroll_up. by rewrite Hz.
Qed.

End Scrolling.

Section TwoParsers.

Lemma partition_inv (sep s a b : string) :
  Browser.partition sep s = Some (a, b) -> s = a +:+ sep +:+ b.
Proof.
  revert a. induction s as [|c s IH]; intros a.
  - cbn. destruct (Py.startswith sep "") eqn:Hs; [|done].
    intros [= <- <-]. apply startswith_inv in Hs. by rewrite Hs at 1.
  - cbn [Browser.partition].
    destruct (Py.startswith sep (String c s)) eqn:Hs.
    + intros [= <- <-]. by apply startswith_inv in Hs.
    + destruct (Browser.partition sep s) as [[a0 b0]|]; [|done].
      intros [= <- <-]. by rewrite (IH a0 eq_refl).
Qed.

(** X19.  The two constructors agree.  Whenever [URL.__init__] of
    [browser.py] accepts a string, [URL.__init__] of the exercise, with
    room on the stack for the call, accepts it too and finds the same
    scheme, host, port and path. *)
Theorem browser_URL_agrees (fuel : nat) (url : string) (u : Browser.URL) :
  Browser.URL_init url = Returns u ->
  URL_init (S fuel) url
  = Returns (HttpURL (Browser.scheme u) (Browser.host u) (Browser.port u)
               (Browser.path u)).
Proof.
  unfold Browser.URL_init.
  destruct (Browser.partition "://" url) as [[sch rest]|] eqn:Hp; [|done].
  apply partition_inv in Hp as ->. cbn [of_option obind].
  unfold str_in. cbn [existsb].
  destruct (String.eqb_spec sch "http") as [->|Hh];
    [|destruct (String.eqb_spec sch "https") as [->|Hs]; [|done]];
    cbn [orb negb]; cbv zeta; intros H; cbn [URL_init].
  - change ("http" +:+ "://" +:+ rest)
      with ("http" +:+ String ":" ("//" +:+ rest)).
    rewrite split1_app by reflexivity.
    cbn beta iota delta [Py.unpack2 obind].
    change (negb (str_in "http" schemes)) with false.
    change (String.eqb "http" "data") with false.
    change (String.eqb "http" "view-source") with false.
    change (String.eqb "http" "file") with false.
    change (String.eqb "http" "http") with true.
    change (Py.startswith "//" ("//" +:+ rest)) with true.
    cbn iota zeta. change (Py.drop 2 ("//" +:+ rest)) with rest.
    revert H. generalize (if negb (Py.contains "/" rest) then rest +:+ "/" else rest).
    intros b1.
    destruct (Py.unpack2 (Py.split "/" 1 b1)) as [[h pa]|]; [|done].
    cbn beta iota delta [obind].
    destruct (Py.contains ":" h); [|by intros [= <-]].
    destruct (Py.unpack2 (Py.split ":" 1 h)) as [[h1 p1]|]; [|done].
    cbn beta iota delta [obind].
    destruct (Py.int 10 p1); [|done]. cbn beta iota delta [of_option obind].
    by intros [= <-].
  - change ("https" +:+ "://" +:+ rest)
      with ("https" +:+ String ":" ("//" +:+ rest)).
    rewrite split1_app by reflexivity.
    cbn beta iota delta [Py.unpack2 obind].
    change (negb (str_in "https" schemes)) with false.
    change (String.eqb "https" "data") with false.
    change (String.eqb "https" "view-source") with false.
    change (String.eqb "https" "file") with false.
    change (String.eqb "https" "http") with false.
    change (Py.startswith "//" ("//" +:+ rest)) with true.
    cbn iota zeta. change (Py.drop 2 ("//" +:+ rest)) with rest.
    revert H. generalize (if negb (Py.contains "/" rest) then rest +:+ "/" else rest).
    intros b1.
    destruct (Py.unpack2 (Py.split "/" 1 b1)) as [[h pa]|]; [|done].
    cbn beta iota delta [obind].
    destruct (Py.contains ":" h); [|by intros [= <-]].
    destruct (Py.unpack2 (Py.split ":" 1 h)) as [[h1 p1]|]; [|done].
    cbn beta iota delta [obind].
    destruct (Py.int 10 p1); [|done]. cbn beta iota delta [of_option obind].
    by intros [= <-].
Qed.

Lemma browser_URL_agrees_witness :
  Browser.URL_init "https://example.org:8080/a"
  = Returns {| Browser.scheme := "https"; Browser.host := "example.org";
               Browser.port := 8080; Browser.path := "/a" |}
  /\ URL_init 1 "https://example.org:8080/a"
     = Returns (HttpURL "https" "example.org" 8080 "/a").
Proof.
  split; [reflexivity|].
  exact (browser_URL_agrees 0 "https://example.org:8080/a" _ eq_refl).
Defined.

End TwoParsers.

Section Steps.

Variable E : Env.

Lemma obtain_sends (scheme host : string) (port : Z) (st st' : State)
    (o : outcome socket) :
  obtain E scheme host port st = (o, st') ->
  filter is_send (log st') = filter is_send (log st).
Proof.
  unfold obtain. repeat case_match; intros; simplify_eq; cbn;
    rewrite ?filter_app; cbn; by rewrite ?app_nil_r.
Qed.

Lemma respond_forward (fuel : nat) (scheme host : string) (port : Z)
    (path : string) (s : socket) (r r' : Z) (st : State) (u' : URL) :
  (respond E fuel scheme host port path s r st).1 = Forward u' r' ->
  r < 5 /\ r' = r + 1.
Proof.
  unfold respond, raising.
  repeat case_match; cbn [fst]; intros; simplify_eq. lia.
Qed.

(** X20.  When [request] hands over to another [request].  A view-source URL
    hands over to the URL it wraps, with the count set to 0 and the state
    untouched; an http or https URL hands over only when its count is
    below 5, and then with the count plus one; a file or data URL never
    does. *)
Theorem forward_only_below_limit (fuel : nat) (u u' : URL) (r r' : Z)
    (st st' : State) :
  request_step E fuel u r st = (Forward u' r', st') ->
  match u with
  | ViewSourceURL actual_url => u' = actual_url /\ r' = 0 /\ st' = st
  | HttpURL scheme host port path =>
    r < 5 /\ r' = r + 1 /\
    exists l, log st' = log st ++ l
              /\ In (Send (host, port) (frame_request host path)) l
  | FileURL _ | DataURL _ _ => False
  end.
Proof.
  destruct u as [m d|a|p|scheme host port path]; cbn [request_step];
    try done; [by intros [= <- <- <-]|].
  destruct (obtain E scheme host port st) as [[s|e] st1] eqn:Hob; [|done].
  assert (Hlog : exists l0, log st1 = log st ++ l0).
  { revert Hob. unfold obtain. repeat case_match; intros; simplify_eq; cbn;
      rewrite <- ?(assoc_L (++)); eauto. by exists []; rewrite app_nil_r. }
  destruct Hlog as [l0 Hl0].
  unfold time_time.
  destruct (cache_lookup _ _ _) as [[body|] st2] eqn:Hl; [done|].
  apply cache_lookup_keeps in Hl as (_ & Hl2 & _). cbn in Hl2.
  destruct (exchange_sends E fuel scheme host port path s r st2) as [l Hl].
  intros Hex. rewrite Hex in Hl. cbn [snd] in Hl.
  rewrite exchange_unfold in Hex. injection Hex as Hres _.
  apply respond_forward in Hres as [? ?].
  split; [done|]. split; [done|].
  exists (l0 ++ Send (host, port) (frame_request host path) :: l).
  split.
  - by rewrite Hl, Hl2, Hl0, <- (assoc_L (++)).
  - apply in_or_app. right. by left.
Qed.


Lemma frame_request_bytes (host path : string) :
  frame_request host path
  = "GET " +:+ path +:+ " HTTP/1.1" +:+ CRLF
    +:+ "Host: " +:+ host +:+ CRLF
    +:+ "Connection: keep-alive" +:+ CRLF
    +:+ "User-Agent: ArunBrowser/0.1" +:+ CRLF
    +:+ "Accept-Encoding: gzip" +:+ CRLF +:+ CRLF.
Proof.
  unfold frame_request, request_headers. cbn [fold_left fst snd].
  by rewrite !sapp_assoc.
Qed.

(** X22.  A fetch that goes to the network.  When the connection is
    available, the cache has no entry for the URL and the socket holds a
    well-formed response of ASCII headers (status outside 300..399, not
    chunked, not gzipped, Content-Length equal to the length of the
    non-empty UTF-8 body), [request] sends one request: the GET line of
    the path and the four headers Host, Connection, User-Agent and
    Accept-Encoding, then a blank line.  The body is
    cached exactly when the status is 200 and the first max-age directive
    of the cache-control header holds a number within the range of the
    floats, with the second clock reading of the call plus max-age as
    expiry; a number beyond that range makes [request] raise
    OverflowError instead of returning the body; in every other case the
    body is returned.  The socket stays in the pool, at the end of the
    body less what the reader had read ahead. *)
Theorem fetch_returns_body (fuel : nat) (scheme host : string) (port : Z)
    (path : string) (s : socket) (r : Z) (st st1 : State)
    (version status reason : string) (hs : list (string * string))
    (body rest v : string) (code : Z) :
  obtain E scheme host port st = (Returns s, st1) ->
  cache st !! (scheme +:+ "://" +:+ host +:+ path) = None ->
  unread s = Wire.head version status reason hs +:+ body +:+ rest ->
  Wire.field_ok version = true -> Wire.field_ok status = true ->
  Wire.field_ok reason = true ->
  Py.contains " " version = false -> Py.contains " " status = false ->
  forallb Wire.header_ok hs = true ->
  (String.length status <= Py.int_max_str_digits)%nat ->
  Py.int 10 status = Some code -> (300 <=? code) && (code <? 400) = false ->
  Wire.headers_from ∅ hs !! "transfer-encoding" <> Some "chunked" ->
  Wire.headers_from ∅ hs !! "content-length" = Some v ->
  (String.length v <= Py.int_max_str_digits)%nat ->
  Py.int 10 v = Some (Z.of_nat (String.length body)) -> body <> "" ->
  default "" (Wire.headers_from ∅ hs !! "content-encoding") <> "gzip" ->
  (String.length (default "" (Wire.headers_from ∅ hs !! "cache-control"))
   <= Py.int_max_str_digits)%nat ->
  Bytes.utf8_valid body = true ->
  let max_age :=
    if code =? 200 then
      d ← Spec.max_age_directive
            (default "" (Wire.headers_from ∅ hs !! "cache-control"));
      v ← Spec.directive_value d; Py.int 10 v
    else None in
  exists st',
    request E (S fuel) (HttpURL scheme host port path) r st
    = (match max_age with
       | Some n =>
         if 2 ^ 1024 - 2 ^ 970 <=? Z.abs n then Raises OverflowError
         else Returns body
       | None => Returns body
       end, st')
    /\ open_sockets st' !! (host, port)
       = Some {| tls := tls s;
                 unread := Py.drop (read_ahead E (log st')) rest |}
    /\ filter is_send (log st')
       = filter is_send (log st)
         ++ [Send (host, port)
               ("GET " +:+ path +:+ " HTTP/1.1" +:+ CRLF
                +:+ "Host: " +:+ host +:+ CRLF
                +:+ "Connection: keep-alive" +:+ CRLF
                +:+ "User-Agent: ArunBrowser/0.1" +:+ CRLF
                +:+ "Accept-Encoding: gzip" +:+ CRLF +:+ CRLF)]
    /\ cache st' =
       match max_age with
       | Some n =>
         if 2 ^ 1024 - 2 ^ 970 <=? Z.abs n then cache st
         else <[scheme +:+ "://" +:+ host +:+ path :=
                  (body, Some (time_at E (S (ticks st)) + n))]> (cache st)
       | None => cache st
       end.
Proof.
  intros Hob Hmiss Hun Hv Hs Hr Hvs Hss Hok _ Hcode H3xx Hte Hcl _ Hlen Hne Hce
    _ Hutf max_age.
  cbn [request]. rewrite (request_step_miss E _ _ _ _ _ _ _ _ _ Hob Hmiss).
  destruct (obtain_frame _ _ _ _ _ _ _ Hob) as (Hc1 & Ht1 & _).
  pose proof (obtain_sends _ _ _ _ _ _ Hob) as Hsend1.
  destruct (respond_body_result E fuel scheme host port path s r
              (time_time E st1).2 version status reason hs body rest v code)
    as (st2 & Hres & Hs2 & Hc2 & Ht2 & Hsend2); try done.
  rewrite exchange_unfold, Hres. cbn [fst snd].
  set (stored := cache_store E (absolute_url scheme host path) body code
                   (Wire.headers_from ∅ hs) st2).
  destruct (release_frame E (host, port) stored.2) as (Hrl & Hrc & _).
  assert (Hpol : stored
    = match max_age with
      | Some n =>
        if 2 ^ 1024 - 2 ^ 970 <=? Z.abs n then
          (Raises OverflowError, (time_time E st2).2)
        else
          (Returns tt,
           set_cache <[absolute_url scheme host path :=
                         (body, Some (time_at E (ticks st2) + n))]>
             (time_time E st2).2)
      | None => (Returns tt, st2)
      end).
  { unfold stored, cache_store, max_age. destruct (code =? 200); [|done].
    rewrite max_age_of_spec. by destruct (_ ≫= _). }
  exists (release E (host, port) stored.2). split; [|split; [|split]].
  - rewrite Hpol. destruct max_age as [n|]; [|done].
    by destruct (2 ^ 1024 - 2 ^ 970 <=? Z.abs n).
  - rewrite (release_socket _ _ _ {| tls := tls s; unread := rest |}); [done|].
    unfold stored. by rewrite cache_store_sockets.
  - rewrite Hrl. unfold stored.
    by rewrite cache_store_log, Hsend2, <- Hsend1, frame_request_bytes.
  - rewrite Hrc, Hpol.
    destruct max_age as [n|]; [|cbn [snd]; by rewrite Hc2].
    destruct (2 ^ 1024 - 2 ^ 970 <=? Z.abs n); cbn; rewrite Hc2; cbn;
      rewrite Hc1; [done|].
    by rewrite Ht2; cbn; rewrite Ht1.
Qed.

End Steps.

Lemma forward_only_below_limit_witness :
  request_step Demo.world 1 (HttpURL "http" "five" 80 "/") 0 initial
  = (Forward (HttpURL "http" "five" 80 "/1") 1,
     (request_step Demo.world 1 (HttpURL "http" "five" 80 "/") 0 initial).2)
  /\ (0 < 5 /\ 1 = 0 + 1).
Proof.
  assert (H : request_step Demo.world 1 (HttpURL "http" "five" 80 "/") 0 initial
              = (Forward (HttpURL "http" "five" 80 "/1") 1,
                 (request_step Demo.world 1 (HttpURL "http" "five" 80 "/") 0
                    initial).2))
    by (vm_compute; reflexivity).
  split; [exact H|].
  destruct (forward_only_below_limit Demo.world _ _ _ _ _ _ _ H) as (H1 & H2 & _).
  split; [exact H1 | exact H2].
Defined.


Lemma fetch_returns_body_witness :
  obtain Demo.world "http" "h" 80 initial
  = (Returns {| tls := false; unread := Demo.page "max-age=60" "hello" |},
     (obtain Demo.world "http" "h" 80 initial).2)
  /\ exists st',
       request Demo.world 1 (HttpURL "http" "h" 80 "/") 0 initial
       = (Returns "hello", st')
       /\ open_sockets st' !! ("h", 80) = Some {| tls := false; unread := "" |}
       /\ cache st' = {["http://h/" := ("hello", Some 61)]}.
Proof.
  assert (H : obtain Demo.world "http" "h" 80 initial
              = (Returns {| tls := false;
                            unread := Demo.page "max-age=60" "hello" |},
                 (obtain Demo.world "http" "h" 80 initial).2))
    by (vm_compute; reflexivity).
  split; [exact H|].
  destruct (fetch_returns_body Demo.world 0 "http" "h" 80 "/" _ 0 initial _
              "HTTP/1.1" "200" "OK"
              [("Content-Length", " 5"); ("Cache-Control", " max-age=60")]
              "hello" "" "5" 200 H)
    as (st' & H1 & H2 & _ & H4);
    try reflexivity; try (vm_compute; discriminate); try (vm_compute; lia).
  exists st'. split; [exact H1|]. split; [exact H2|].
  rewrite H4. vm_compute. reflexivity.
Defined.
